(** * Enhancement orchestration and quality validation

    A shallow embedding of the text-enhancement pipeline:
    - [EnhancementQualityValidator] (services/qualityValidator.ts),
    - [PromptEnhancer] (services/promptEnhancer.ts),
    - [SingleModelEnhancer] (the two-stage retry controller),
    - [OpenRouterApiService] (services/openRouterApi.ts, model fallback),
    - [validateTextLength] (lib/validations.ts).

    JavaScript strings are sequences of UTF-16 code units; regular
    expressions are run by a small backtracking matcher; the network is an
    oracle consulted through a state-and-exception monad that logs every
    HTTP request. *)

From Stdlib Require Import Ascii String DecimalString.
From Stdlib Require Import List NArith ZArith QArith Bool Lia.
Import ListNotations.

Open Scope string_scope.
Open Scope list_scope.

Set Implicit Arguments.

(* ================================================================== *)
(** ** JavaScript strings *)
(* ================================================================== *)

Module JsString.

(** A string is its list of UTF-16 code units. *)
Definition jsstring := list N.

(** Source literals are ASCII, one code unit per character. *)
Definition js (s : string) : jsstring :=
  map N_of_ascii (list_ascii_of_string s).

Definition nl : jsstring := [10%N].           (* line feed *)
Definition dquote : N := 34%N.                (* the double-quote character *)
Definition bullet : N := 8226%N.              (* U+2022 *)
Definition plusMinus : N := 177%N.            (* U+00B1 *)

(** [s.length] *)
Definition jslength (s : jsstring) : Z := Z.of_nat (length s).

(** [a === b] on strings *)
Fixpoint streq (a b : jsstring) : bool :=
  match a, b with
  | [], [] => true
  | x :: a', y :: b' => N.eqb x y && streq a' b'
  | _, _ => false
  end.

(** WhiteSpace and LineTerminator code units: what [trim] strips and what
    the class [\s] matches. *)
Definition isWhiteSpace (c : N) : bool :=
  existsb (N.eqb c)
    [9; 10; 11; 12; 13; 32; 160; 5760; 8232; 8233; 8239; 8287; 12288; 65279]%N
  || (N.leb 8192 c && N.leb c 8202).

Fixpoint trimStart (s : jsstring) : jsstring :=
  match s with
  | c :: s' => if isWhiteSpace c then trimStart s' else s
  | [] => []
  end.

Definition trimEnd (s : jsstring) : jsstring := rev (trimStart (rev s)).

(** [s.trim()] *)
Definition trim (s : jsstring) : jsstring := trimEnd (trimStart s).

Fixpoint startsWith (pat s : jsstring) : bool :=
  match pat, s with
  | [], _ => true
  | p :: pat', c :: s' => N.eqb p c && startsWith pat' s'
  | _ :: _, [] => false
  end.

(** [s.includes(pat)] *)
Fixpoint includes (pat s : jsstring) : bool :=
  startsWith pat s ||
  match s with
  | [] => false
  | _ :: s' => includes pat s'
  end.

(** [arr.includes(w)] on an array of strings *)
Definition arrayIncludes (arr : list jsstring) (w : jsstring) : bool :=
  existsb (streq w) arr.

(** [arr.join(sep)] *)
Fixpoint join (sep : jsstring) (arr : list jsstring) : jsstring :=
  match arr with
  | [] => []
  | [a] => a
  | a :: rest => a ++ sep ++ join sep rest
  end.

(** [s.replace(pat, repl)] with a string pattern: the first occurrence
    only, compared code unit by code unit. *)
Fixpoint replaceFirst (pat repl s : jsstring) : jsstring :=
  if startsWith pat s then repl ++ skipn (length pat) s
  else match s with
       | [] => []
       | c :: s' => c :: replaceFirst pat repl s'
       end.

(** Template interpolation of a non-negative integer: its decimal digits. *)
Definition numToString (n : N) : jsstring :=
  js (NilZero.string_of_uint (N.to_uint n)).

(** Truthiness of an optional string: [undefined] and [''] are falsy. *)
Definition truthy (o : option jsstring) : bool :=
  match o with
  | Some (_ :: _) => true
  | _ => false
  end.

(** [String.prototype.toLowerCase] belongs to the host: it follows the
    Unicode case tables.  The development is parametric in it, and runs
    concrete examples with the Basic Latin instance below, which agrees
    with the host on every string of code units below 128. *)
Class StringHost := toLowerCase : jsstring -> jsstring.

Definition lowerLatin (c : N) : N :=
  if N.leb 65 c && N.leb c 90 then (c + 32)%N else c.

Definition basicLatinHost : StringHost := map lowerLatin.

End JsString.

Import JsString.

(* ================================================================== *)
(** ** Regular expressions *)
(* ================================================================== *)

Module Regex.

(** The fragment of the RegExp syntax that the sources use.  The flag [i]
    is an argument of the matcher; the flag [g] selects [matchAll] or
    [replaceAll] instead of [test] and [matchFirst]. *)
Inductive regex : Type :=
| RChar (c : N)                 (* a pattern character *)
| RClass (p : N -> bool)        (* a class: \d, \s, [A-Z], [^\w], the dot *)
| REmpty
| RSeq (a b : regex)
| RAlt (a b : regex)            (* a|b, left alternative first *)
| RStar (a : regex)             (* a*, greedy *)
| RWordB                        (* \b *)
| REnd.                         (* $ without the m flag *)

Definition RPlus (a : regex) : regex := RSeq a (RStar a).
Definition ROpt (a : regex) : regex := RAlt a REmpty.

Fixpoint RLit (s : jsstring) : regex :=
  match s with
  | [] => REmpty
  | [c] => RChar c
  | c :: s' => RSeq (RChar c) (RLit s')
  end.

Fixpoint RAlts (l : list regex) : regex :=
  match l with
  | [] => RClass (fun _ => false)
  | [a] => a
  | a :: l' => RAlt a (RAlts l')
  end.

(** A parenthesised list of literal alternatives, [(w1|w2|...)]. *)
Definition RWords (l : list string) : regex :=
  RAlts (map (fun w => RLit (js w)) l).

Definition isDigit (c : N) : bool := N.leb 48 c && N.leb c 57.
Definition isUpper (c : N) : bool := N.leb 65 c && N.leb c 90.
Definition isLower (c : N) : bool := N.leb 97 c && N.leb c 122.
(** [\w] is [A-Za-z0-9_]. *)
Definition isWordChar (c : N) : bool :=
  isUpper c || isLower c || isDigit c || N.eqb c 95.
Definition isLineTerminator (c : N) : bool :=
  existsb (N.eqb c) [10; 13; 8232; 8233]%N.
Definition RDot : regex := RClass (fun c => negb (isLineTerminator c)).

(** Canonicalize of a case-insensitive match without the [u] flag, on the
    pattern characters the sources use (all below 128): a code unit of
    128 or more never canonicalizes to one below 128, so such a pattern
    character matches its two ASCII cases and nothing else. *)
Definition canonicalize (c : N) : N :=
  if isLower c then (c - 32)%N else c.

Definition charEq (ignoreCase : bool) (c x : N) : bool :=
  if ignoreCase then N.eqb (canonicalize c) (canonicalize x) else N.eqb c x.

Definition isWordBefore (prev : option N) : bool :=
  match prev with Some c => isWordChar c | None => false end.
Definition isWordAt (s : jsstring) : bool :=
  match s with c :: _ => isWordChar c | [] => false end.

(** Backtracking matcher in continuation-passing style.  [prev] is the
    code unit before the current position, [s] the input from the current
    position on; the continuation receives the position after the match
    and answers with the end of the whole match (as the remaining input)
    or fails, which makes the matcher try its next choice.  An iteration
    of a star that consumes nothing is refused, as in the language, so at
    most [length s] iterations can succeed. *)
Fixpoint rmatch (ignoreCase : bool) (r : regex) (prev : option N) (s : jsstring)
         (k : option N -> jsstring -> option jsstring) {struct r}
  : option jsstring :=
  match r with
  | RChar c =>
      match s with
      | x :: s' => if charEq ignoreCase c x then k (Some x) s' else None
      | [] => None
      end
  | RClass p =>
      match s with
      | x :: s' => if p x then k (Some x) s' else None
      | [] => None
      end
  | REmpty => k prev s
  | RSeq a b =>
      rmatch ignoreCase a prev s (fun prev' s' => rmatch ignoreCase b prev' s' k)
  | RAlt a b =>
      match rmatch ignoreCase a prev s k with
      | Some e => Some e
      | None => rmatch ignoreCase b prev s k
      end
  | RStar a =>
      (fix iterate (fuel : nat) (prev : option N) (s : jsstring) {struct fuel}
         : option jsstring :=
         match fuel with
         | O => k prev s
         | S fuel' =>
             match rmatch ignoreCase a prev s
                     (fun prev' s' =>
                        if (length s' <? length s)%nat
                        then iterate fuel' prev' s' else None) with
             | Some e => Some e
             | None => k prev s
             end
         end) (length s) prev s
  | RWordB =>
      if xorb (isWordBefore prev) (isWordAt s) then k prev s else None
  | REnd =>
      match s with
      | [] => k prev s
      | _ :: _ => None
      end
  end.

(** A match starting exactly at the current position: the remaining
    input after it. *)
Definition matchHere (ignoreCase : bool) (r : regex) (prev : option N)
           (s : jsstring) : option jsstring :=
  rmatch ignoreCase r prev s (fun _ e => Some e).

(** Leftmost match at or after the current position: the input from its
    start, and the input after its end. *)
Fixpoint search (ignoreCase : bool) (r : regex) (prev : option N)
         (s : jsstring) {struct s} : option (jsstring * jsstring) :=
  match matchHere ignoreCase r prev s with
  | Some e => Some (s, e)
  | None =>
      match s with
      | [] => None
      | x :: s' => search ignoreCase r (Some x) s'
      end
  end.

(** [re.test(s)] *)
Definition test (ignoreCase : bool) (r : regex) (s : jsstring) : bool :=
  match search ignoreCase r None s with
  | Some _ => true
  | None => false
  end.

(** [s.match(re)] without [g]: the matched text, [None] for [null]. *)
Definition matchFirst (ignoreCase : bool) (r : regex) (s : jsstring)
  : option jsstring :=
  match search ignoreCase r None s with
  | Some (from, e) => Some (firstn (length from - length e) from)
  | None => None
  end.

(** [s.match(re)] with [g]: every match from left to right, the next
    search starting where the last match ended (one further after an
    empty match); the empty list stands for [null].  [skip] counts the
    code units still covered by the last match. *)
Fixpoint matchAllFrom (ignoreCase : bool) (r : regex) (skip : nat)
         (prev : option N) (s : jsstring) {struct s} : list jsstring :=
  match skip with
  | S skip' =>
      match s with
      | x :: s' => matchAllFrom ignoreCase r skip' (Some x) s'
      | [] => []
      end
  | O =>
      match matchHere ignoreCase r prev s with
      | Some e =>
          let n := (length s - length e)%nat in
          firstn n s ::
            match s with
            | x :: s' => matchAllFrom ignoreCase r (pred n) (Some x) s'
            | [] => []
            end
      | None =>
          match s with
          | x :: s' => matchAllFrom ignoreCase r O (Some x) s'
          | [] => []
          end
      end
  end.

Definition matchAll (ignoreCase : bool) (r : regex) (s : jsstring)
  : list jsstring :=
  matchAllFrom ignoreCase r O None s.

(** [s.replace(re, repl)] with [g] and a replacement without [$]. *)
Fixpoint replaceAllFrom (ignoreCase : bool) (r : regex) (repl : jsstring)
         (skip : nat) (prev : option N) (s : jsstring) {struct s} : jsstring :=
  match skip with
  | S skip' =>
      match s with
      | x :: s' => replaceAllFrom ignoreCase r repl skip' (Some x) s'
      | [] => []
      end
  | O =>
      match matchHere ignoreCase r prev s with
      | Some e =>
          let n := (length s - length e)%nat in
          repl ++
            match s with
            | x :: s' =>
                (if (n =? 0)%nat then [x] else []) ++
                replaceAllFrom ignoreCase r repl (pred n) (Some x) s'
            | [] => []
            end
      | None =>
          match s with
          | x :: s' => x :: replaceAllFrom ignoreCase r repl O (Some x) s'
          | [] => []
          end
      end
  end.

Definition replaceAll (ignoreCase : bool) (r : regex) (repl s : jsstring)
  : jsstring :=
  replaceAllFrom ignoreCase r repl O None s.

(** [s.split(re)].  The separator is looked for at every position [q]
    before the end; a match that ends where the current piece starts is
    skipped; otherwise the piece read so far is emitted and the next one
    starts after the match.  [cur] holds the current piece reversed,
    [skip] the code units of the separator still to pass. *)
Fixpoint splitFrom (ignoreCase : bool) (r : regex) (skip : nat)
         (cur : jsstring) (prev : option N) (s : jsstring) {struct s}
  : list jsstring :=
  match s with
  | [] => [rev cur]
  | x :: s' =>
      match skip with
      | S skip' => splitFrom ignoreCase r skip' cur (Some x) s'
      | O =>
          match matchHere ignoreCase r prev s with
          | Some e =>
              let n := (length s - length e)%nat in
              match n, cur with
              | O, [] => splitFrom ignoreCase r O [x] (Some x) s'
              | O, _ :: _ => rev cur :: splitFrom ignoreCase r O [x] (Some x) s'
              | S n', _ => rev cur :: splitFrom ignoreCase r n' [] (Some x) s'
              end
          | None => splitFrom ignoreCase r O (x :: cur) (Some x) s'
          end
      end
  end.

Definition split (ignoreCase : bool) (r : regex) (s : jsstring)
  : list jsstring :=
  match s with
  | [] =>
      match matchHere ignoreCase r None [] with
      | Some _ => []
      | None => [[]]
      end
  | _ :: _ => splitFrom ignoreCase r O [] None s
  end.

(** [/\s+/] *)
Definition whitespaceRun : regex := RPlus (RClass isWhiteSpace).

End Regex.

Import Regex.

(* ================================================================== *)
(** ** Numbers: quotients of two lengths *)
(* ================================================================== *)

Module JsNumber.

(** The only non-integer numbers of the validator are quotients [a / b]
    of two non-negative integers (lengths and counts), compared with the
    literals 0.3, 3 and 4.0.  A quotient by zero is [Infinity] when the
    numerator is positive and [NaN] when it is zero.  A finite quotient
    is kept exact: for operands below 2^50 (string lengths are far
    below) the comparison of the rounded double with the rounded literal
    agrees with the comparison of the exact values. *)
Inductive quotient : Type :=
| NaN
| Infinity
| Quot (num den : Z).

Definition div (a b : Z) : quotient :=
  if (b =? 0)%Z then (if (a =? 0)%Z then NaN else Infinity) else Quot a b.

(** [q < n/d] and [q > n/d] for a literal [n/d] with [d > 0]: every
    comparison with [NaN] is false. *)
Definition ltLit (q : quotient) (n d : Z) : bool :=
  match q with
  | NaN => false
  | Infinity => false
  | Quot a b => (a * d <? n * b)%Z
  end.

Definition gtLit (q : quotient) (n d : Z) : bool :=
  match q with
  | NaN => false
  | Infinity => true
  | Quot a b => (n * b <? a * d)%Z
  end.

End JsNumber.

Import JsNumber.

(* ================================================================== *)
(** ** services/qualityValidator.ts *)
(* ================================================================== *)

Module EnhancementQualityValidator.

Record ValidationResult : Type := {
  isValid : bool;
  score : Z;
  issues : list jsstring;
  confidence : Z
}.

Record ValidationConfig : Type := {
  minScore : Z;
  maxRetries : Z;
  strictMode : bool
}.

(** [Partial<ValidationConfig>]: [None] is an absent property.  The
    numbers of a configuration are integers, as the default and the two
    call sites have them. *)
Record PartialValidationConfig : Type := {
  minScore_opt : option Z;
  maxRetries_opt : option Z;
  strictMode_opt : option bool
}.

Definition emptyConfig : PartialValidationConfig :=
  {| minScore_opt := None; maxRetries_opt := None; strictMode_opt := None |}.

Definition DEFAULT_CONFIG : ValidationConfig :=
  {| minScore := 70; maxRetries := 3; strictMode := true |}.

(** [{ ...DEFAULT_CONFIG, ...config }] *)
Definition spread (d : ValidationConfig) (c : PartialValidationConfig)
  : ValidationConfig :=
  {| minScore := match minScore_opt c with Some v => v | None => minScore d end;
     maxRetries := match maxRetries_opt c with Some v => v | None => maxRetries d end;
     strictMode := match strictMode_opt c with Some v => v | None => strictMode d end |}.

(** The result of a single-issue check. *)
Record CheckResult : Type := {
  c_isValid : bool;
  c_issue : jsstring;
  c_penalty : Z
}.

(** The result of a check that may report several issues. *)
Record ChecksResult : Type := {
  cs_isValid : bool;
  cs_issues : list jsstring;
  cs_penalty : Z
}.

Definition passed : CheckResult :=
  {| c_isValid := true; c_issue := []; c_penalty := 0 |}.

(** [patterns.some(pattern => pattern.test(text))]; each pattern comes
    with its [i] flag. *)
Definition somePatternTests (patterns : list (bool * regex)) (text : jsstring)
  : bool :=
  existsb (fun p => test (fst p) (snd p) text) patterns.

(** A phrase pattern with the [i] flag, such as [/could you/i]. *)
Definition phrase (w : string) : bool * regex := (true, RLit (js w)).

Definition questionPatterns : list (bool * regex) :=
  (false, RChar 63) ::                        (* any question mark *)
  map phrase
    [ "could you"; "would you like"; "do you want"; "should i";
      "what would you prefer"; "would you prefer"; "can you clarify";
      "do you need"; "are you looking for"; "what kind of";
      "which would you"; "how would you like" ].

Definition containsQuestions (text : jsstring) : bool :=
  somePatternTests questionPatterns text.

Definition explanationPatterns : list (bool * regex) :=
  map phrase
    [ "here is"; "i have enhanced"; "the improved version";
      "here's the enhanced"; "i've rewritten"; "i've improved";
      "the enhanced text"; "below is the"; "the following is";
      "i've made the following"; "here are the improvements";
      "the revised version" ].

Definition containsExplanations (text : jsstring) : bool :=
  somePatternTests explanationPatterns text.

Definition metaPatterns : list (bool * regex) :=
  map phrase
    [ "i understand"; "based on your request"; "as requested";
      "to improve"; "in order to enhance"; "for better"; "this will help";
      "the goal is to"; "i've focused on"; "the changes include";
      "improvements made"; "to make it more" ].

Definition containsMetaCommentary (text : jsstring) : bool :=
  somePatternTests metaPatterns text.

Definition issueTooShortRatio : jsstring :=
  js "Enhanced text is too short (less than 30% of original)".
Definition issueTooLongRatio : jsstring :=
  js "Enhanced text is too long (more than 400% of original)".
Definition issueExtremelyShort : jsstring :=
  js "Enhanced text is extremely short".

Definition validateLength (original enhanced : jsstring) : CheckResult :=
  let originalLength := jslength original in
  let enhancedLength := jslength enhanced in
  let ratio := div enhancedLength originalLength in
  if ltLit ratio 3 10 then
    {| c_isValid := false; c_issue := issueTooShortRatio; c_penalty := 30 |}
  else if gtLit ratio 4 1 then
    {| c_isValid := false; c_issue := issueTooLongRatio; c_penalty := 25 |}
  else if (enhancedLength <? 10)%Z then
    {| c_isValid := false; c_issue := issueExtremelyShort; c_penalty := 40 |}
  else passed.

Definition issueIdentical : jsstring :=
  js "No enhancement detected - text is identical to original".
Definition issueDifferentContent : jsstring :=
  js "Enhanced text appears to be completely different content".

Definition validateContentPreservation `{StringHost}
           (original enhanced : jsstring) : CheckResult :=
  if streq (trim original) (trim enhanced) then
    {| c_isValid := false; c_issue := issueIdentical; c_penalty := 50 |}
  else
    let originalWords := split false whitespaceRun (toLowerCase original) in
    let enhancedWords := split false whitespaceRun (toLowerCase enhanced) in
    let commonWords :=
      filter (fun word => arrayIncludes enhancedWords word
                          && (3 <? jslength word)%Z) originalWords in
    let overlapRatio :=
      div (Z.of_nat (length commonWords))
          (Z.max (Z.of_nat (length originalWords)) 1) in
    if ltLit overlapRatio 3 10 then
      {| c_isValid := false; c_issue := issueDifferentContent; c_penalty := 45 |}
    else passed.

(** [wordCounts.set(w, (wordCounts.get(w) || 0) + 1)] on a [Map] kept in
    insertion order. *)
Fixpoint countWord (w : jsstring) (m : list (jsstring * Z))
  : list (jsstring * Z) :=
  match m with
  | [] => [(w, 1%Z)]
  | (k, n) :: m' =>
      if streq k w then (k, (n + 1)%Z) :: m' else (k, n) :: countWord w m'
  end.

Definition issueEmpty : jsstring :=
  js "Response is empty or contains only whitespace".
Definition issueIncomplete : jsstring :=
  js "Response appears to be incomplete (no ending punctuation)".
Definition issueRepetition : jsstring :=
  js "Response contains excessive word repetition".

(** [/[.!?]$/] *)
Definition endingPunctuation : regex :=
  RSeq (RClass (fun c => existsb (N.eqb c) [46; 33; 63]%N)) REnd.

(** [/[^\w]/g] *)
Definition nonWordChar : regex := RClass (fun c => negb (isWordChar c)).

Definition validateBasicQuality `{StringHost} (enhanced : jsstring)
  : ChecksResult :=
  let issues : list jsstring := [] in
  let penalty := 0%Z in
  let '(issues, penalty) :=
    match trim enhanced with
    | [] => (issues ++ [issueEmpty], (penalty + 100)%Z)
    | _ :: _ => (issues, penalty)
    end in
  let '(issues, penalty) :=
    if (20 <? jslength (trim enhanced))%Z
       && negb (test false endingPunctuation enhanced)
    then (issues ++ [issueIncomplete], (penalty + 15)%Z)
    else (issues, penalty) in
  let words := split false whitespaceRun enhanced in
  let wordCounts :=
    fold_left
      (fun counts word =>
         let cleanWord := replaceAll false nonWordChar [] (toLowerCase word) in
         if (4 <? jslength cleanWord)%Z then countWord cleanWord counts
         else counts)
      words [] in
  let repeatedWords := filter (fun e => (3 <? snd e)%Z) wordCounts in
  let '(issues, penalty) :=
    if (0 <? length repeatedWords)%nat
    then (issues ++ [issueRepetition], (penalty + 10)%Z)
    else (issues, penalty) in
  {| cs_isValid := (length issues =? 0)%nat;
     cs_issues := issues;
     cs_penalty := penalty |}.

Definition issueQuestionsRemoved : jsstring :=
  js "Original questions were removed in enhancement".
Definition issueCapitalization : jsstring :=
  js "Significant tone shift detected in capitalization".

Definition validateToneConsistency (original enhanced : jsstring)
  : CheckResult :=
  let originalHasQuestion := test false (RChar 63) original in
  let enhancedHasQuestion := test false (RChar 63) enhanced in
  if originalHasQuestion && negb enhancedHasQuestion then
    {| c_isValid := false; c_issue := issueQuestionsRemoved; c_penalty := 20 |}
  else
    let originalCaps := Z.of_nat (length (matchAll false (RClass isUpper) original)) in
    let enhancedCaps := Z.of_nat (length (matchAll false (RClass isUpper) enhanced)) in
    let capsRatio := div enhancedCaps (Z.max originalCaps 1) in
    if gtLit capsRatio 3 1 || ltLit capsRatio 3 10 then
      {| c_isValid := false; c_issue := issueCapitalization; c_penalty := 15 |}
    else passed.

Definition aiPhrases : list (bool * regex) :=
  map phrase
    [ "as an ai"; "i'm an ai"; "i cannot"; "i don't have"; "i'm not able";
      "i apologize"; "i'm sorry"; "unfortunately"; "however, i" ].

(** An opening mark, anything on the same line, the closing mark:
    the shape of the five markup patterns. *)
Definition enclosed (opening closing : string) : bool * regex :=
  (false, RSeq (RLit (js opening)) (RSeq (RStar RDot) (RLit (js closing)))).

Definition formatInstructions : list (bool * regex) :=
  [ enclosed "**" "**";       (* bold markdown *)
    enclosed "*" "*";         (* italic markdown *)
    enclosed "#" "#";         (* headers *)
    enclosed "```" "```";     (* code blocks *)
    enclosed "[" "]" ].       (* brackets *)

Definition issueAiPhrases : jsstring :=
  js "Response contains AI-like phrases or limitations".
Definition issueMarkup : jsstring :=
  js "Response contains formatting markup instead of plain text".

Definition strictModeValidation (enhanced : jsstring) : ChecksResult :=
  let issues : list jsstring := [] in
  let penalty := 0%Z in
  let '(issues, penalty) :=
    if somePatternTests aiPhrases enhanced
    then (issues ++ [issueAiPhrases], (penalty + 25)%Z)
    else (issues, penalty) in
  let '(issues, penalty) :=
    if somePatternTests formatInstructions enhanced
    then (issues ++ [issueMarkup], (penalty + 10)%Z)
    else (issues, penalty) in
  {| cs_isValid := (length issues =? 0)%nat;
     cs_issues := issues;
     cs_penalty := penalty |}.

Definition issueQuestions : jsstring :=
  js "Response contains questions instead of enhancement".
Definition issueExplanations : jsstring :=
  js "Response contains explanations instead of direct enhancement".
Definition issueMeta : jsstring :=
  js "Response contains meta-commentary about the enhancement process".

(** The running totals of [validateEnhancement]: the three [let]
    variables [issues], [score] and [confidence]. *)
Definition tally : Type := (list jsstring * Z * Z)%type.

(** One guarded block: [if (fired) { issues.push(...found); score -=
    penalty; confidence -= drop; }]. *)
Definition deduct (fired : bool) (found : list jsstring) (penalty drop : Z)
           (t : tally) : tally :=
  let '(issues, score, confidence) := t in
  if fired then (issues ++ found, (score - penalty)%Z, (confidence - drop)%Z)
  else t.

Definition tallyIssues (t : tally) : list jsstring := fst (fst t).
Definition tallyScore (t : tally) : Z := snd (fst t).

Definition validateEnhancement `{StringHost} (original enhanced : jsstring)
           (config : PartialValidationConfig) : ValidationResult :=
  let validationConfig := spread DEFAULT_CONFIG config in
  let t : tally := ([], 100%Z, 100%Z) in
  (* 1. questions *)
  let t := deduct (containsQuestions enhanced) [issueQuestions] 60 40 t in
  (* 2. explanations *)
  let t := deduct (containsExplanations enhanced) [issueExplanations] 40 30 t in
  (* 3. meta-commentary *)
  let t := deduct (containsMetaCommentary enhanced) [issueMeta] 35 25 t in
  (* 4. length *)
  let lengthValidation := validateLength original enhanced in
  let t := deduct (negb (c_isValid lengthValidation))
                  [c_issue lengthValidation] (c_penalty lengthValidation) 15 t in
  (* 5. content preservation *)
  let contentValidation := validateContentPreservation original enhanced in
  let t := deduct (negb (c_isValid contentValidation))
                  [c_issue contentValidation] (c_penalty contentValidation) 20 t in
  (* 6. basic quality *)
  let qualityValidation := validateBasicQuality enhanced in
  let t := deduct (negb (cs_isValid qualityValidation))
                  (cs_issues qualityValidation) (cs_penalty qualityValidation) 10 t in
  (* 7. tone consistency *)
  let toneValidation := validateToneConsistency original enhanced in
  let t := deduct (negb (c_isValid toneValidation))
                  [c_issue toneValidation] (c_penalty toneValidation) 10 t in
  (* 8. strict mode *)
  let t :=
    if strictMode validationConfig then
      let strictValidation := strictModeValidation enhanced in
      deduct (negb (cs_isValid strictValidation))
             (cs_issues strictValidation) (cs_penalty strictValidation) 15 t
    else t in
  let '(issues, score, confidence) := t in
  let score := Z.max 0 score in
  let confidence := Z.max 0 confidence in
  {| isValid := (minScore validationConfig <=? score)%Z
                && (length issues =? 0)%nat;
     score := score;
     issues := issues;
     confidence := confidence |}.

(** What one guarded block takes from the score when it fires, and what
    it adds to the issues. *)
Definition charge (fired : bool) (penalty : Z) : Z :=
  if fired then penalty else 0%Z.
Definition reported (fired : bool) (found : list jsstring) : list jsstring :=
  if fired then found else [].

(** The totals of [validateEnhancement] after its eight guarded blocks,
    before the floor at 0: the same chain, kept apart for the proofs. *)
Definition finalTally `{StringHost} (original enhanced : jsstring)
           (strict : bool) : tally :=
  let t : tally := ([], 100%Z, 100%Z) in
  let t := deduct (containsQuestions enhanced) [issueQuestions] 60 40 t in
  let t := deduct (containsExplanations enhanced) [issueExplanations] 40 30 t in
  let t := deduct (containsMetaCommentary enhanced) [issueMeta] 35 25 t in
  let lengthValidation := validateLength original enhanced in
  let t := deduct (negb (c_isValid lengthValidation))
                  [c_issue lengthValidation] (c_penalty lengthValidation) 15 t in
  let contentValidation := validateContentPreservation original enhanced in
  let t := deduct (negb (c_isValid contentValidation))
                  [c_issue contentValidation] (c_penalty contentValidation) 20 t in
  let qualityValidation := validateBasicQuality enhanced in
  let t := deduct (negb (cs_isValid qualityValidation))
                  (cs_issues qualityValidation) (cs_penalty qualityValidation) 10 t in
  let toneValidation := validateToneConsistency original enhanced in
  let t := deduct (negb (c_isValid toneValidation))
                  [c_issue toneValidation] (c_penalty toneValidation) 10 t in
  if strict then
    let strictValidation := strictModeValidation enhanced in
    deduct (negb (cs_isValid strictValidation))
           (cs_issues strictValidation) (cs_penalty strictValidation) 15 t
  else t.

(** *** Recommendations *)

Definition adviceNoQuestions : jsstring :=
  js "Use stricter prompt with explicit " ++ dquote :: js "NO QUESTIONS"
    ++ dquote :: js " instruction".
Definition adviceLowerTemperature : jsstring :=
  js "Lower temperature to 0.3 or below for more focused responses".
Definition adviceTextOnly : jsstring :=
  js "Add " ++ dquote :: js "RESPOND WITH ENHANCED TEXT ONLY" ++ dquote :: js " to prompt".
Definition adviceSystemMessage : jsstring :=
  js "Use system message to enforce output format".
Definition adviceOtherModel : jsstring :=
  js "Consider using a different model for this content type".
Definition adviceRetry : jsstring :=
  js "Retry with more specific instructions".
Definition adviceManualReview : jsstring :=
  js "Manual review recommended before using this enhancement".

(** [if (cond) { recommendations.push(...items) }] *)
Definition pushWhen (cond : bool) (items recommendations : list jsstring)
  : list jsstring :=
  if cond then recommendations ++ items else recommendations.

Definition getValidationRecommendations (validation : ValidationResult)
  : list jsstring :=
  let recommendations : list jsstring := [] in
  let recommendations :=
    pushWhen (arrayIncludes (issues validation) issueQuestions)
             [adviceNoQuestions; adviceLowerTemperature] recommendations in
  let recommendations :=
    pushWhen (arrayIncludes (issues validation) issueExplanations)
             [adviceTextOnly; adviceSystemMessage] recommendations in
  let recommendations :=
    pushWhen (score validation <? 50)%Z
             [adviceOtherModel; adviceRetry] recommendations in
  let recommendations :=
    pushWhen (confidence validation <? 60)%Z
             [adviceManualReview] recommendations in
  recommendations.

(** The confidence before the floor, read off a tally. *)
Definition tallyConfidence (t : tally) : Z := snd t.

End EnhancementQualityValidator.

Import EnhancementQualityValidator.

(* ================================================================== *)
(** ** Requests *)
(* ================================================================== *)

Inductive EnhancementType : Type :=
| general | professional | creative | academic | concise.

Inductive Tone : Type :=
| formal | casual | friendly | authoritative | persuasive.

Definition enhancementTypeName (t : EnhancementType) : jsstring :=
  match t with
  | general => js "general"
  | professional => js "professional"
  | creative => js "creative"
  | academic => js "academic"
  | concise => js "concise"
  end.

Definition toneName (t : Tone) : jsstring :=
  match t with
  | formal => js "formal"
  | casual => js "casual"
  | friendly => js "friendly"
  | authoritative => js "authoritative"
  | persuasive => js "persuasive"
  end.

(** [EnhancementRequest], declared alike by both services. *)
Record EnhancementRequest : Type := {
  text : jsstring;
  enhancementType : option EnhancementType;
  tone : option Tone;
  targetAudience : option jsstring;
  customInstructions : option jsstring
}.

(* ================================================================== *)
(** ** services/promptEnhancer.ts *)
(* ================================================================== *)

Module PromptEnhancer.

Record PromptEnhancementRequest : Type := {
  rawText : jsstring;
  p_enhancementType : option EnhancementType;
  p_tone : option Tone;
  p_targetAudience : option jsstring;
  p_customInstructions : option jsstring
}.

Record EnhancedPrompt : Type := {
  originalRequest : jsstring;
  enhancedPrompt : jsstring;
  clarity : Z;
  specificity : Z;
  actionability : Z;
  overallScore : Z
}.

(** The [options] argument of [buildEnhancedPrompt]; type and tone are
    plain strings there. *)
Record PromptOptions : Type := {
  o_enhancementType : jsstring;
  o_tone : jsstring;
  o_targetAudience : option jsstring;
  o_customInstructions : option jsstring
}.

Record KeyInformation : Type := {
  requirements : list jsstring;
  contentSpecs : list jsstring
}.

(** [/\b(w1|w2|...)\b/i]: the group spans the whole match, both [\b]
    being empty, so [match[1]] is the matched text. *)
Definition wholeWord (words : list string) : regex :=
  RSeq RWordB (RSeq (RWords words) RWordB).

Definition contentTypePattern : regex :=
  wholeWord [ "email"; "post"; "article"; "report"; "letter"; "message";
              "announcement"; "blog"; "tweet"; "caption" ].
Definition lengthPattern : regex :=
  wholeWord [ "short"; "long"; "brief"; "detailed"; "concise";
              "comprehensive"; "quick"; "lengthy" ].
Definition tonePattern : regex :=
  wholeWord [ "formal"; "casual"; "friendly"; "professional"; "fun";
              "serious"; "excited"; "grateful"; "celebratory" ].
(** [/\d+[k]?\s*(downloads|users|customers|sales|views|likes)/gi] *)
Definition numberPattern : regex :=
  RSeq (RPlus (RClass isDigit))
    (RSeq (ROpt (RChar 107))
       (RSeq (RStar (RClass isWhiteSpace))
          (RWords [ "downloads"; "users"; "customers"; "sales"; "views";
                    "likes" ]))).
(** [/not too (salesy|promotional|formal|casual|long|short)/gi] *)
Definition avoidPattern : regex :=
  RSeq (RLit (js "not too "))
    (RWords [ "salesy"; "promotional"; "formal"; "casual"; "long"; "short" ]).
Definition audiencePattern : regex :=
  wholeWord [ "users"; "customers"; "team"; "boss"; "clients"; "audience";
              "community"; "followers" ].
Definition platformPattern : regex :=
  wholeWord [ "linkedin"; "twitter"; "facebook"; "instagram"; "email";
              "slack" ].

(** [if (m) { arr.push(prefix + m[1]) }] *)
Definition pushMatch (prefix : string) (m : option jsstring)
           (arr : list jsstring) : list jsstring :=
  match m with
  | Some found => arr ++ [js prefix ++ found]
  | None => arr
  end.

(** The [analysis] argument of the source is never read here. *)
Definition extractKeyInformation (rawText : jsstring) : KeyInformation :=
  let requirements : list jsstring := [] in
  let contentSpecs : list jsstring := [] in
  let contentSpecs :=
    pushMatch "Content type: " (matchFirst true contentTypePattern rawText)
              contentSpecs in
  let contentSpecs :=
    pushMatch "Length preference: " (matchFirst true lengthPattern rawText)
              contentSpecs in
  let requirements :=
    pushMatch "Tone should be " (matchFirst true tonePattern rawText)
              requirements in
  let numberMatches := matchAll true numberPattern rawText in
  let requirements :=
    requirements ++
    map (fun m => js "Highlight achievement: " ++ m) numberMatches in
  let avoidMatches := matchAll true avoidPattern rawText in
  let requirements :=
    requirements ++
    map (fun m => js "Avoid being " ++ replaceFirst (js "not too ") [] m)
        avoidMatches in
  let requirements :=
    pushMatch "Target audience: " (matchFirst true audiencePattern rawText)
              requirements in
  let contentSpecs :=
    pushMatch "Platform: " (matchFirst true platformPattern rawText)
              contentSpecs in
  let requirements :=
    match requirements with
    | [] => [js "Improve overall clarity and engagement"]
    | _ :: _ => requirements
    end in
  let contentSpecs :=
    match contentSpecs with
    | [] => [js "General text enhancement"]
    | _ :: _ => contentSpecs
    end in
  {| requirements := requirements; contentSpecs := contentSpecs |}.

Definition tripleQuote : jsstring := [dquote; dquote; dquote].

(** [items.map(x => `• ${x}`).join('\n')] *)
Definition bulleted (items : list jsstring) : jsstring :=
  join nl (map (fun x => bullet :: js " " ++ x) items).

(** [flag ? `${label}${flag}` : ''] *)
Definition optionalLine (label : string) (v : option jsstring) : jsstring :=
  if truthy v
  then js label ++ match v with Some x => x | None => [] end
  else [].

(** The template literal, one list element per source line. *)
Definition buildEnhancedPrompt (rawText : jsstring) (options : PromptOptions)
  : jsstring :=
  let extractedInfo := extractKeyInformation rawText in
  join nl
    [ js "Enhance the following text with these specifications:";
      [];
      js "ENHANCEMENT TYPE: " ++ o_enhancementType options;
      js "TARGET TONE: " ++ o_tone options;
      optionalLine "TARGET AUDIENCE: " (o_targetAudience options);
      [];
      js "EXTRACTED REQUIREMENTS:";
      bulleted (requirements extractedInfo);
      [];
      js "CONTENT SPECIFICATIONS:";
      bulleted (contentSpecs extractedInfo);
      [];
      js "QUALITY STANDARDS:";
      bullet :: js " Maintain the original intent and key information";
      bullet :: js " Improve clarity and readability";
      bullet :: js " Ensure grammatical correctness";
      bullet :: js " Match the specified tone consistently";
      bullet :: js " Make the content engaging and purposeful";
      [];
      optionalLine "ADDITIONAL INSTRUCTIONS: " (o_customInstructions options);
      [];
      js "ORIGINAL TEXT:";
      tripleQuote;
      rawText;
      tripleQuote;
      [];
      js "Please provide the enhanced version:" ].

(** [Math.round(n / d)] for integers [n >= 0] and [d > 0]. *)
Definition roundDiv (n d : Z) : Z := ((2 * n + d) / (2 * d))%Z.

Definition bonus (present : bool) (points : Z) : Z :=
  if present then points else 0%Z.

Definition specificTermPattern : regex :=
  wholeWord [ "specific"; "exactly"; "precisely"; "must"; "should";
              "required" ].

Definition scorePromptQuality (prompt : jsstring) : Z * Z * Z * Z :=
  let clarity := 50%Z in
  let specificity := 50%Z in
  let actionability := 50%Z in
  let clarity := (clarity + bonus (includes (js "ENHANCEMENT TYPE:") prompt) 15)%Z in
  let clarity := (clarity + bonus (includes (js "TARGET TONE:") prompt) 15)%Z in
  let clarity := (clarity + bonus (includes (js "QUALITY STANDARDS:") prompt) 10)%Z in
  let clarity := (clarity + bonus (includes (js "EXTRACTED REQUIREMENTS:") prompt) 10)%Z in
  let specificTerms :=
    Z.of_nat (length (matchAll true specificTermPattern prompt)) in
  let specificity := (specificity + Z.min (specificTerms * 5) 30)%Z in
  let requirementCount :=
    Z.of_nat (length (matchAll false (RChar bullet) prompt)) in
  let specificity := (specificity + Z.min (requirementCount * 3) 20)%Z in
  let actionability := (actionability + bonus (includes (js "Please provide") prompt) 15)%Z in
  let actionability := (actionability + bonus (includes (js "ORIGINAL TEXT:") prompt) 15)%Z in
  let actionability := (actionability + bonus (includes (js "enhanced version") prompt) 10)%Z in
  let actionability := (actionability + bonus (includes (js "ADDITIONAL INSTRUCTIONS:") prompt) 10)%Z in
  let clarity := Z.min clarity 100 in
  let specificity := Z.min specificity 100 in
  let actionability := Z.min actionability 100 in
  let overallScore := roundDiv (clarity + specificity + actionability) 3 in
  (clarity, specificity, actionability, overallScore).

(** [analyzeRawText] only feeds the unused [analysis] argument, so it
    is left out.  The defaults of the destructuring are ['general'] and
    ['professional']. *)
Definition enhancePrompt (request : PromptEnhancementRequest) : EnhancedPrompt :=
  let enhancementType :=
    match p_enhancementType request with
    | Some t => enhancementTypeName t
    | None => js "general"
    end in
  let tone :=
    match p_tone request with
    | Some t => toneName t
    | None => js "professional"
    end in
  let enhancedPrompt :=
    buildEnhancedPrompt (rawText request)
      {| o_enhancementType := enhancementType;
         o_tone := tone;
         o_targetAudience := p_targetAudience request;
         o_customInstructions := p_customInstructions request |} in
  let '(clarity, specificity, actionability, overallScore) :=
    scorePromptQuality enhancedPrompt in
  {| originalRequest := rawText request;
     enhancedPrompt := enhancedPrompt;
     clarity := clarity;
     specificity := specificity;
     actionability := actionability;
     overallScore := overallScore |}.

End PromptEnhancer.

(* ================================================================== *)
(** ** The network and asynchronous code *)
(* ================================================================== *)

Module Net.

(** A thrown value: an [Error] with its [name] and [message], and the
    [statusCode] and [response] of an [OpenRouterApiError]. *)
Record JsError : Type := {
  name : jsstring;
  message : jsstring;
  statusCode : option N;
  response : option jsstring
}.

(** [new Error(message)] *)
Definition Error (message : jsstring) : JsError :=
  {| name := js "Error"; message := message;
     statusCode := None; response := None |}.

(** What the host raises when a method is called on [undefined]. *)
Definition TypeError (message : jsstring) : JsError :=
  {| name := js "TypeError"; message := message;
     statusCode := None; response := None |}.

Record SamplingParameters : Type := {
  temperature : Q;
  max_tokens : Z;
  top_p : Q;
  frequency_penalty : Q;
  presence_penalty : Q
}.

(** The POST to [/chat/completions]: the address, the bearer token, and
    the fields of the JSON body.  The body holds one message, of role
    [user], whose content is [prompt].  The headers that are the same on
    every request (content type, referer, title) are not recorded. *)
Record HttpRequest : Type := {
  url : jsstring;
  authorization : jsstring;
  model : jsstring;
  prompt : jsstring;
  parameters : SamplingParameters
}.

(** What [response.json()] gives, as far as the services look into it. *)
Inductive JsonBody : Type :=
| Unparsable (why : JsError)      (* [json()] rejects *)
| NoMessage                       (* no [choices], [choices[0]] or [message] *)
| MessageWithoutContent           (* [message.content] is undefined *)
| MessageContent (content : jsstring).

Record HttpResponse : Type := {
  ok : bool;
  status : N;
  statusText : jsstring;
  bodyText : jsstring;              (* [response.text()] *)
  bodyJson : JsonBody               (* [response.json()] *)
}.

Inductive FetchOutcome : Type :=
| Rejected (why : JsError)          (* no response: the promise rejects *)
| Responded (r : HttpResponse).

(** The remote side: the outcome of the [n]-th request of a run. *)
Definition Network : Type := nat -> HttpRequest -> FetchOutcome.

(** An asynchronous computation: it reads the network, appends to the
    log of the requests issued so far, and returns or throws.  Awaits
    are sequential, so a run is a function of the log. *)
Definition Async (A : Type) : Type :=
  Network -> list HttpRequest -> (JsError + A) * list HttpRequest.

Definition ret {A : Type} (a : A) : Async A :=
  fun _ log => (inr a, log).

Definition throw {A : Type} (e : JsError) : Async A :=
  fun _ log => (inl e, log).

Definition bind {A B : Type} (m : Async A) (f : A -> Async B) : Async B :=
  fun net log =>
    match m net log with
    | (inr a, log') => f a net log'
    | (inl e, log') => (inl e, log')
    end.

(** [try { body } catch (error) { handler }] *)
Definition tryCatch {A : Type} (body : Async A) (handler : JsError -> Async A)
  : Async A :=
  fun net log =>
    match body net log with
    | (inr a, log') => (inr a, log')
    | (inl e, log') => handler e net log'
    end.

(** [await fetch(...)] *)
Definition fetch (request : HttpRequest) : Async HttpResponse :=
  fun net log =>
    match net (length log) request with
    | Responded r => (inr r, log ++ [request])
    | Rejected e => (inl e, log ++ [request])
    end.

(** A run from an empty log. *)
Definition run {A : Type} (m : Async A) (net : Network)
  : (JsError + A) * list HttpRequest :=
  m net [].

End Net.

Import Net.

Declare Scope async_scope.
Delimit Scope async_scope with async.
Notation "x <- m ;; k" := (bind m (fun x => k))
  (at level 61, m at next level, right associativity) : async_scope.

Definition defaultBaseUrl : jsstring := js "https://openrouter.ai/api/v1".

(** [config.baseUrl || 'https://openrouter.ai/api/v1'] *)
Definition baseUrlOr (configured : option jsstring) : jsstring :=
  if truthy configured
  then match configured with Some u => u | None => [] end
  else defaultBaseUrl.

(* ================================================================== *)
(** ** The single-model enhancer and its retry controller *)
(* ================================================================== *)

Module SingleModelEnhancer.

Record SingleModelConfig : Type := {
  apiKey : jsstring;
  baseUrl : option jsstring
}.

(** The response, without [processingTime] (wall-clock time) and
    [improvements] (display strings built from floating-point
    percentages); neither is read back by the controller. *)
Record EnhancementResponse : Type := {
  enhancedText : jsstring;
  originalLength : Z;
  enhancedLength : Z;
  qualityScore : Z;
  promptScore : Z;
  modelUsed : jsstring
}.

Definition OPTIMAL_MODEL : jsstring := js "anthropic/claude-3.5-sonnet".

Definition OPTIMAL_PARAMETERS : SamplingParameters :=
  {| temperature := 0.3;
     max_tokens := 2000;
     top_p := 0.8;
     frequency_penalty := 0.1;
     presence_penalty := 0.0 |}.

Open Scope async_scope.

(** The request that carries one prompt. *)
Definition requestFor (config : SingleModelConfig) (prompt : jsstring)
  : HttpRequest :=
  {| url := baseUrlOr (baseUrl config) ++ js "/chat/completions";
     authorization := js "Bearer " ++ apiKey config;
     model := OPTIMAL_MODEL;
     prompt := prompt;
     parameters := OPTIMAL_PARAMETERS |}.

Definition callOptimalModel (config : SingleModelConfig) (prompt : jsstring)
  : Async jsstring :=
  response <- fetch (requestFor config prompt) ;;
  if negb (ok response) then
    throw (Error (js "API request failed: " ++ numToString (status response)
                    ++ js " " ++ statusText response))
  else
    match bodyJson response with
    | Unparsable e => throw e
    | NoMessage => throw (Error (js "Invalid response format from API"))
    | MessageWithoutContent =>
        throw (TypeError (js "Cannot read properties of undefined (reading 'trim')"))
    | MessageContent content => ret (trim content)
    end.

Definition createStricterPrompt (originalPrompt : jsstring)
           (issues : list jsstring) : jsstring :=
  join nl
    [ [];
      js "CRITICAL: The previous attempt had these issues:";
      PromptEnhancer.bulleted issues;
      [];
      js "STRICT REQUIREMENTS - FOLLOW EXACTLY:";
      js "1. Provide ONLY the enhanced text - no explanations";
      js "2. Do NOT ask questions or seek clarification";
      js "3. Do NOT add meta-commentary about the enhancement";
      js "4. Start your response directly with the enhanced text";
      js "5. Maintain the original meaning precisely";
      js "6. Keep similar length (" ++ [plusMinus] ++ js "30% maximum)";
      [];
      originalPrompt;
      [];
      js "ENHANCED TEXT (respond with enhanced text only):" ].

Definition buildResponse (originalText enhancedText : jsstring)
           (qualityScore promptScore : Z) : EnhancementResponse :=
  {| enhancedText := enhancedText;
     originalLength := jslength originalText;
     enhancedLength := jslength enhancedText;
     qualityScore := qualityScore;
     promptScore := promptScore;
     modelUsed := OPTIMAL_MODEL |}.

Definition firstPassConfig : PartialValidationConfig :=
  {| minScore_opt := Some 70%Z; maxRetries_opt := Some 2%Z;
     strictMode_opt := Some true |}.

Definition retryConfig : PartialValidationConfig :=
  {| minScore_opt := Some 60%Z; maxRetries_opt := Some 1%Z;
     strictMode_opt := Some true |}.

Definition promptOf (request : EnhancementRequest) : PromptEnhancer.EnhancedPrompt :=
  PromptEnhancer.enhancePrompt
    {| PromptEnhancer.rawText := text request;
       PromptEnhancer.p_enhancementType := enhancementType request;
       PromptEnhancer.p_tone := tone request;
       PromptEnhancer.p_targetAudience := targetAudience request;
       PromptEnhancer.p_customInstructions := customInstructions request |}.

(** The [return] inside the retry block leaves the function; the block
    is a computation of an optional early result. *)
Definition enhanceText `{StringHost} (config : SingleModelConfig)
           (request : EnhancementRequest) : Async EnhancementResponse :=
  tryCatch
    (let promptEnhancement := promptOf request in
     enhancedText <- callOptimalModel config
                       (PromptEnhancer.enhancedPrompt promptEnhancement) ;;
     let validation :=
       validateEnhancement (text request) enhancedText firstPassConfig in
     early <-
       (if negb (isValid validation) && (score validation <? 70)%Z then
          let stricterPrompt :=
            createStricterPrompt
              (PromptEnhancer.enhancedPrompt promptEnhancement)
              (issues validation) in
          retryResult <- callOptimalModel config stricterPrompt ;;
          let retryValidation :=
            validateEnhancement (text request) retryResult retryConfig in
          if isValid retryValidation
             || (score validation <? score retryValidation)%Z
          then ret (Some (buildResponse (text request) retryResult
                            (score retryValidation)
                            (PromptEnhancer.overallScore promptEnhancement)))
          else ret None
        else ret None) ;;
     match early with
     | Some result => ret result
     | None =>
         ret (buildResponse (text request) enhancedText (score validation)
                (PromptEnhancer.overallScore promptEnhancement))
     end)
    (fun error => throw (Error (js "Enhancement failed: " ++ message error))).

(** [testConnection]: one call with a fixed prompt; a failure is caught
    and answered with [false]. *)
Definition testPrompt : jsstring := js "Enhance this text: Hello world.".

Definition testConnection (config : SingleModelConfig) : Async bool :=
  tryCatch
    (_ <- callOptimalModel config testPrompt ;;
     ret true)
    (fun _ => ret false).

(** Names for the statements: the prompt of the first stage, and the
    condition under which the source retries. *)
Definition firstPrompt (request : EnhancementRequest) : jsstring :=
  PromptEnhancer.enhancedPrompt (promptOf request).

Definition retryGate (validation : ValidationResult) : bool :=
  negb (isValid validation) && (score validation <? 70)%Z.

(** The prompt of the retry after a first candidate [t1], and the error
    that the [catch] block throws for a caught [error]. *)
Definition secondPrompt `{StringHost} (request : EnhancementRequest)
           (t1 : jsstring) : jsstring :=
  createStricterPrompt (firstPrompt request)
    (issues (validateEnhancement (text request) t1 firstPassConfig)).

Definition wrapped (error : JsError) : JsError :=
  Error (js "Enhancement failed: " ++ message error).

End SingleModelEnhancer.

(* ================================================================== *)
(** ** services/openRouterApi.ts *)
(* ================================================================== *)

Module OpenRouterApiService.

Record OpenRouterConfig : Type := {
  apiKey : jsstring;
  configuredModel : jsstring;       (* [model]; the fallback loop ignores it *)
  baseUrl : option jsstring
}.

(** The response, without [processingTime] and the display list
    [improvements]. *)
Record EnhancementResponse : Type := {
  enhancedText : jsstring;
  originalLength : Z;
  enhancedLength : Z
}.

Definition OpenRouterApiError (message : jsstring) (statusCode : option N)
           (response : option jsstring) : JsError :=
  {| name := js "OpenRouterApiError"; message := message;
     statusCode := statusCode; response := response |}.

Definition PRIMARY_MODEL : jsstring := js "moonshotai/kimi-k2:free".
Definition FALLBACK_MODEL : jsstring := js "anthropic/claude-3-haiku".
Definition PREMIUM_FALLBACK : jsstring := js "anthropic/claude-3.5-sonnet".

Definition models : list jsstring :=
  [ PRIMARY_MODEL; FALLBACK_MODEL; PREMIUM_FALLBACK ].

Definition generateEnhancementPrompt (request : EnhancementRequest) : jsstring :=
  join nl
    [ js "You are a prompt enhancement specialist. Your job is to rewrite messy, unclear prompts into clean, professional versions.";
      [];
      js "IMPORTANT: Do NOT create content. Do NOT fulfill the request. Only rewrite the prompt to be clearer.";
      [];
      js "Take this messy prompt and rewrite it into a clean, professional version:";
      [];
      dquote :: text request ++ [dquote];
      [];
      js "Rewritten prompt:" ].

Definition requestParameters : SamplingParameters :=
  {| temperature := 0.3;
     max_tokens := 1000;
     top_p := 0.9;
     frequency_penalty := 0.1;
     presence_penalty := 0.1 |}.

Open Scope async_scope.

(** The request sent for one model. *)
Definition requestFor (config : OpenRouterConfig) (request : EnhancementRequest)
           (modelId : jsstring) : HttpRequest :=
  let prompt := generateEnhancementPrompt request in
  {| url := baseUrlOr (baseUrl config) ++ js "/chat/completions";
     authorization := js "Bearer " ++ apiKey config;
     model := modelId;
     prompt := prompt;
     parameters := requestParameters |}.

(** The body of the [try] block for one model. *)
Definition attempt (config : OpenRouterConfig) (request : EnhancementRequest)
           (modelId : jsstring) : Async EnhancementResponse :=
  response <- fetch (requestFor config request modelId) ;;
  if negb (ok response) then
    let errorData := bodyText response in
    throw (OpenRouterApiError
             (js "API request failed: " ++ numToString (status response)
                ++ js " - " ++ errorData)
             (Some (status response)) (Some errorData))
  else
    match bodyJson response with
    | Unparsable e => throw e
    | NoMessage =>
        throw (OpenRouterApiError (js "Invalid response format from API") None None)
    | MessageWithoutContent =>
        throw (TypeError (js "Cannot read properties of undefined (reading 'trim')"))
    | MessageContent content =>
        let enhancedText := trim content in
        if (jslength enhancedText <? 10)%Z then
          throw (OpenRouterApiError
                   (js "Enhancement response too short or empty") None None)
        else
          ret {| enhancedText := enhancedText;
                 originalLength := jslength (text request);
                 enhancedLength := jslength enhancedText |}
    end.

(** The [for] loop over the model list, with its variable [lastError]. *)
Fixpoint tryModels (config : OpenRouterConfig) (request : EnhancementRequest)
         (remaining : list jsstring) (lastError : option JsError)
  : Async EnhancementResponse :=
  match remaining with
  | modelId :: rest =>
      tryCatch (attempt config request modelId)
               (fun error => tryModels config request rest (Some error))
  | [] =>
      throw (match lastError with
             | Some e => e
             | None => OpenRouterApiError
                         (js "All models failed to enhance text") None None
             end)
  end.

Definition enhanceText (config : OpenRouterConfig) (request : EnhancementRequest)
  : Async EnhancementResponse :=
  tryModels config request models None.

(** For the statements: the requests sent for a list of models, in
    order; and that every model of [failing] fails when its turn comes,
    the log then holding the requests of the models before it. *)
Definition requestsFor (config : OpenRouterConfig) (request : EnhancementRequest)
           (ms : list jsstring) : list HttpRequest :=
  map (requestFor config request) ms.

Definition allFail (config : OpenRouterConfig) (request : EnhancementRequest)
           (net : Network) (log : list HttpRequest) (failing : list jsstring)
  : Prop :=
  forall before m after,
    failing = before ++ m :: after ->
    exists e,
      fst (attempt config request m net (log ++ requestsFor config request before))
      = inl e.

End OpenRouterApiService.

(* ================================================================== *)
(** ** pages/Index.tsx: the handler of the Enhance button *)
(* ================================================================== *)

Module IndexPage.

(** What the handler leaves on the page. *)
Inductive Shown : Type :=
| NoTextToast                         (* "No text to enhance" *)
| SettingsOpened
| EnhancedTextShown (enhanced : jsstring)
| FailureToast (description : jsstring).

Open Scope async_scope.

(** [handleEnhance], as a function of the state it reads: the text of
    the textarea, [isConfigured] and [apiService].  Timers and the other
    state setters are left out. *)
Definition handleEnhance (inputText : jsstring) (isConfigured : bool)
           (apiService : option OpenRouterApiService.OpenRouterConfig)
  : Async Shown :=
  match trim inputText with
  | [] => ret NoTextToast
  | _ :: _ =>
      match isConfigured, apiService with
      | true, Some service =>
          tryCatch
            (let request :=
               {| text := trim inputText; enhancementType := Some general;
                  tone := None; targetAudience := None;
                  customInstructions := None |} in
             response <- OpenRouterApiService.enhanceText service request ;;
             ret (EnhancedTextShown (OpenRouterApiService.enhancedText response)))
            (fun error => ret (FailureToast (message error)))
      | _, _ => ret SettingsOpened
      end
  end.

End IndexPage.

(* ================================================================== *)
(** ** lib/validations.ts *)
(* ================================================================== *)

(** [validateTextLength(text, maxLength = 8000)] *)
Definition validateTextLength (text : jsstring) (maxLength : option Z) : bool :=
  let maxLength := match maxLength with Some m => m | None => 8000%Z end in
  (0 <? jslength text)%Z && (jslength text <=? maxLength)%Z.

(** [sanitizeInput]: [input.trim().replace(/\s+/g, ' ')] *)
Definition sanitizeInput (input : jsstring) : jsstring :=
  replaceAll false whitespaceRun (js " ") (trim input).

(* ================================================================== *)
(** ** Reading a built prompt *)
(* ================================================================== *)

(** The notions the specification uses to talk about a prompt: its
    sections, and the text enclosed by the triple-quote fence.  They are
    not part of the sources. *)
Module PromptShape.

Fixpoint linesFrom (cur : jsstring) (s : jsstring) : list jsstring :=
  match s with
  | [] => [rev cur]
  | c :: s' =>
      if N.eqb c 10 then rev cur :: linesFrom [] s'
      else linesFrom (c :: cur) s'
  end.

(** The lines of a text. *)
Definition lines (s : jsstring) : list jsstring := linesFrom [] s.

Fixpoint afterLine (header : jsstring) (ls : list jsstring)
  : option (list jsstring) :=
  match ls with
  | [] => None
  | l :: ls' => if streq l header then Some ls' else afterLine header ls'
  end.

Fixpoint untilBlank (ls : list jsstring) : list jsstring :=
  match ls with
  | [] => []
  | [] :: _ => []
  | l :: ls' => l :: untilBlank ls'
  end.

(** The section of a prompt under a header line: the lines that follow
    the header, up to the next blank line. *)
Definition promptSection (header : string) (prompt : jsstring)
  : option (list jsstring) :=
  option_map untilBlank (afterLine (js header) (lines prompt)).

(** A section mentions a cue when one of its lines contains it. *)
Definition sectionMentions (header cue : string) (prompt : jsstring) : bool :=
  match promptSection header prompt with
  | Some ls => existsb (includes (js cue)) ls
  | None => false
  end.

(** The pieces of a text between the occurrences of a non-empty
    delimiter, found from left to right without overlap. *)
Fixpoint piecesFrom (delimiter : jsstring) (skip : nat) (cur : jsstring)
         (s : jsstring) {struct s} : list jsstring :=
  match s with
  | [] => [rev cur]
  | c :: s' =>
      match skip with
      | S skip' => piecesFrom delimiter skip' cur s'
      | O =>
          if startsWith delimiter s
          then rev cur :: piecesFrom delimiter (pred (length delimiter)) [] s'
          else piecesFrom delimiter O (c :: cur) s'
      end
  end.

(** Of the pieces, those enclosed by an opening and a closing
    delimiter: the second, the fourth, and so on, as long as a closing
    delimiter follows. *)
Fixpoint enclosedPieces (pieces : list jsstring) : list jsstring :=
  match pieces with
  | _ :: inside :: ((_ :: _) as rest) => inside :: enclosedPieces rest
  | _ => []
  end.

(** What a prompt holds inside its triple-quote fences. *)
Definition fencedContents (prompt : jsstring) : list jsstring :=
  enclosedPieces (piecesFrom PromptEnhancer.tripleQuote O [] prompt).

(** A text free of the double-quote character. *)
Definition quoteFree (s : jsstring) : Prop := ~ In dquote s.

(** A text that does not hold the delimiter of the fence, three double
    quotes in a row; single and paired double quotes are allowed. *)
Definition delimiterFree (s : jsstring) : Prop :=
  includes PromptEnhancer.tripleQuote s = false.

Definition delimiterFreeOpt (o : option jsstring) : Prop :=
  match o with
  | Some s => delimiterFree s
  | None => True
  end.

End PromptShape.


(* ================================================================== *)
(** ** Plain descriptions of what the patterns match *)
(* ================================================================== *)

(** Reference functions, written without the matcher: the proofs relate
    the patterns of the sources to them. *)
Module Plain.

(** A continuation of the matcher that does not look at the code unit
    before the position. *)
Definition forgetful (k : option N -> jsstring -> option jsstring) : Prop :=
  forall prev prev' s, k prev s = k prev' s.

(** [p] is a prefix of [s], code units compared by [eq]. *)
Fixpoint prefixBy (eq : N -> N -> bool) (p s : jsstring) : bool :=
  match p, s with
  | [], _ => true
  | c :: p', x :: s' => eq c x && prefixBy eq p' s'
  | _ :: _, [] => false
  end.

(** [p] occurs in [s]. *)
Fixpoint occursBy (eq : N -> N -> bool) (p s : jsstring) : bool :=
  prefixBy eq p s ||
  match s with
  | [] => false
  | _ :: s' => occursBy eq p s'
  end.

(** [p] occurs in [s] when the ASCII letters of both are taken in one
    case. *)
Definition occursIgnoringCase (p s : jsstring) : bool :=
  includes (map canonicalize p) (map canonicalize s).

(** No atom of the pattern accepts the code unit [c]: a match of the
    pattern cannot run over [c]. *)
Fixpoint never (ignoreCase : bool) (c : N) (r : regex) : bool :=
  match r with
  | RChar x => negb (charEq ignoreCase x c)
  | RClass p => negb (p c)
  | REmpty => true
  | RSeq a b => never ignoreCase c a && never ignoreCase c b
  | RAlt a b => never ignoreCase c a && never ignoreCase c b
  | RStar a => never ignoreCase c a
  | RWordB => true
  | REnd => true
  end.

(** The input after its longest prefix of code units satisfying [p]. *)
Fixpoint dropWhile (p : N -> bool) (s : jsstring) : jsstring :=
  match s with
  | x :: s' => if p x then dropWhile p s' else s
  | [] => []
  end.

(** The length of that prefix. *)
Fixpoint runLength (p : N -> bool) (s : jsstring) : nat :=
  match s with
  | x :: s' => if p x then S (runLength p s') else O
  | [] => O
  end.

(** Every run of white space becomes one space; [inRun] tells that the
    code unit before was white space. *)
Fixpoint collapseFrom (inRun : bool) (s : jsstring) : jsstring :=
  match s with
  | [] => []
  | x :: s' =>
      if isWhiteSpace x
      then (if inRun then collapseFrom true s' else 32%N :: collapseFrom true s')
      else x :: collapseFrom false s'
  end.

(** Every white-space code unit of [s] is a space that stands before a
    code unit that is not white space. *)
Fixpoint singleSpaced (s : jsstring) : bool :=
  match s with
  | [] => true
  | x :: s' =>
      (if isWhiteSpace x
       then N.eqb x 32
            && match s' with
               | y :: _ => negb (isWhiteSpace y)
               | [] => false
               end
       else true)
      && singleSpaced s'
  end.

(** [s] does not end with white space. *)
Fixpoint endsClean (s : jsstring) : bool :=
  match s with
  | [] => true
  | x :: s' =>
      match s' with
      | [] => negb (isWhiteSpace x)
      | _ :: _ => endsClean s'
      end
  end.

(** [s] does not start with white space. *)
Definition startsClean (s : jsstring) : bool :=
  match s with
  | x :: _ => negb (isWhiteSpace x)
  | [] => true
  end.

End Plain.

Import Plain.

(* ================================================================== *)
(** ** Inputs of the scenarios *)
(* ================================================================== *)

Module Scenario.

(** The candidate of the second end-to-end scenario. *)
Definition clarifyingQuestion : jsstring :=
  js "Could you clarify what tone you want?".

(** The raw input of the first end-to-end scenario. *)
Definition linkedinInput : jsstring :=
  js "uh i need like a short linkedin post...".

(** The prompt built for it, with the enhancement type [general]. *)
Definition linkedinPrompt : jsstring :=
  PromptEnhancer.enhancedPrompt
    (PromptEnhancer.enhancePrompt
       {| PromptEnhancer.rawText := linkedinInput;
          PromptEnhancer.p_enhancementType := Some general;
          PromptEnhancer.p_tone := None;
          PromptEnhancer.p_targetAudience := None;
          PromptEnhancer.p_customInstructions := None |}).

(** The options of a prompt of type [general] and tone [professional]
    with the given custom instructions. *)
Definition optionsWith (instructions : option jsstring)
  : PromptEnhancer.PromptOptions :=
  {| PromptEnhancer.o_enhancementType := js "general";
     PromptEnhancer.o_tone := js "professional";
     PromptEnhancer.o_targetAudience := None;
     PromptEnhancer.o_customInstructions := instructions |}.

Definition keepItShort : jsstring := js "Keep it short.".

(** Custom instructions and a raw text that hold double quotes, one of
    them doubled, but not the delimiter. *)
Definition quotedInstructions : jsstring :=
  js "Say " ++ dquote :: js "hi" ++ [dquote; dquote].
Definition quotedRequest : jsstring :=
  js "make " ++ dquote :: js "hello team" ++ dquote :: js " sound better".

(** A request that only sets its text. *)
Definition plainRequest (t : jsstring) : EnhancementRequest :=
  {| text := t; enhancementType := None; tone := None;
     targetAudience := None; customInstructions := None |}.

(** A 200 response whose first choice carries [content]. *)
Definition completion (content : jsstring) : FetchOutcome :=
  Responded {| ok := true; status := 200; statusText := js "OK";
               bodyText := []; bodyJson := MessageContent content |}.

(** A response with an error status and a body text. *)
Definition refusal (code : N) (reason body : jsstring) : FetchOutcome :=
  Responded {| ok := false; status := code; statusText := reason;
               bodyText := body; bodyJson := NoMessage |}.

Definition offline : FetchOutcome :=
  Rejected (TypeError (js "Failed to fetch")).

(** A network that answers the successive requests of a run with the
    outcomes of a script, and is unreachable afterwards. *)
Definition scripted (script : list FetchOutcome) : Network :=
  fun n _ => nth n script offline.

Definition singleConfig : SingleModelEnhancer.SingleModelConfig :=
  {| SingleModelEnhancer.apiKey := js "sk-test";
     SingleModelEnhancer.baseUrl := None |}.

Definition routerConfig : OpenRouterApiService.OpenRouterConfig :=
  {| OpenRouterApiService.apiKey := js "sk-test";
     OpenRouterApiService.configuredModel := OpenRouterApiService.PRIMARY_MODEL;
     OpenRouterApiService.baseUrl := None |}.

(** A text of 8001 code units. *)
Definition overlongText : jsstring := repeat 97%N (N.to_nat 8001).

Definition teamRequest : jsstring :=
  js "please make this text better for my team".
Definition askingCould : jsstring :=
  js "Could you make this text better for my team?".
Definition askingWould : jsstring :=
  js "Would you like this text better for my team?".
Definition commenting : jsstring :=
  js "To improve, please make this text better for my team.".
Definition polished : jsstring :=
  js "Please make this text better for my whole team.".
Definition bracketed : jsstring :=
  js "Please make this [text] better for my whole team.".

(** What the fallback service returns for the completion [polished]. *)
Definition polishedResponse : OpenRouterApiService.EnhancementResponse :=
  {| OpenRouterApiService.enhancedText := polished;
     OpenRouterApiService.originalLength := jslength teamRequest;
     OpenRouterApiService.enhancedLength := jslength polished |}.

(** The error of the fallback service for a 401 with body [denied]. *)
Definition denied : jsstring := js "No auth credentials found".
Definition deniedError : JsError :=
  OpenRouterApiService.OpenRouterApiError
    (js "API request failed: 401 - No auth credentials found")
    (Some 401%N) (Some denied).

End Scenario.

Import Scenario.

(* ================================================================== *)
(** * Properties *)
(* ================================================================== *)

Open Scope Z_scope.
Unset Implicit Arguments.

(** ** The quality validator *)

Section ValidatorFacts.

Context {host : StringHost}.

Lemma streq_refl (a : jsstring) : streq a a = true.
Proof.
  induction a as [|x a IH]; simpl; [reflexivity|].
  rewrite N.eqb_refl. exact IH.
Qed.

Lemma deduct_score fired found p d t :
  tallyScore (deduct fired found p d t) = tallyScore t - charge fired p.
Proof.
  destruct t as [[i s] c], fired; unfold tallyScore, charge; simpl; lia.
Qed.

Lemma deduct_issues fired found p d t :
  tallyIssues (deduct fired found p d t) = tallyIssues t ++ reported fired found.
Proof.
  destruct t as [[i s] c], fired; unfold tallyIssues, reported; simpl;
    [reflexivity | symmetry; apply app_nil_r].
Qed.

Lemma charge_nonneg fired p : 0 <= p -> 0 <= charge fired p.
Proof. destruct fired; unfold charge; lia. Qed.

Ltac split_conditions :=
  repeat match goal with
         | |- context [if ?b then _ else _] => destruct b
         end.

Lemma validateLength_penalty original enhanced :
  0 <= c_penalty (validateLength original enhanced).
Proof. unfold validateLength. split_conditions; simpl; lia. Qed.

Lemma validateContentPreservation_penalty original enhanced :
  0 <= c_penalty (validateContentPreservation original enhanced).
Proof. unfold validateContentPreservation. split_conditions; simpl; lia. Qed.

Lemma validateToneConsistency_penalty original enhanced :
  0 <= c_penalty (validateToneConsistency original enhanced).
Proof. unfold validateToneConsistency. split_conditions; simpl; lia. Qed.

(** The two multi-issue checks: the penalty is never negative, and an
    invalid outcome carries an issue. *)
Lemma validateBasicQuality_sound enhanced :
  0 <= cs_penalty (validateBasicQuality enhanced)
  /\ (cs_isValid (validateBasicQuality enhanced) = false ->
      cs_issues (validateBasicQuality enhanced) <> []).
Proof.
  unfold validateBasicQuality.
  destruct (trim enhanced) eqn:Htrim; split_conditions;
    simpl; split; try lia; congruence.
Qed.

Lemma strictModeValidation_sound enhanced :
  0 <= cs_penalty (strictModeValidation enhanced)
  /\ (cs_isValid (strictModeValidation enhanced) = false ->
      cs_issues (strictModeValidation enhanced) <> []).
Proof.
  unfold strictModeValidation. split_conditions;
    simpl; split; try lia; congruence.
Qed.

(** [validateEnhancement] in terms of its final tally. *)
Lemma validateEnhancement_tally original enhanced config :
  let cfg := spread DEFAULT_CONFIG config in
  let t := finalTally original enhanced (strictMode cfg) in
  let r := validateEnhancement original enhanced config in
  score r = Z.max 0 (tallyScore t)
  /\ issues r = tallyIssues t
  /\ isValid r = (minScore cfg <=? score r) && (length (issues r) =? 0)%nat.
Proof.
  cbv zeta. unfold validateEnhancement, finalTally. cbv zeta.
  match goal with
  | |- context [match ?chain with (_, _) => _ end] =>
      destruct chain as [[i s] c]
  end.
  simpl. auto.
Qed.

(** The score before the floor: 100 less the penalties of the blocks
    that fired; the issues: what those blocks reported, in order. *)
Lemma finalTally_score original enhanced strict :
  tallyScore (finalTally original enhanced strict) =
  100
  - charge (containsQuestions enhanced) 60
  - charge (containsExplanations enhanced) 40
  - charge (containsMetaCommentary enhanced) 35
  - charge (negb (c_isValid (validateLength original enhanced)))
           (c_penalty (validateLength original enhanced))
  - charge (negb (c_isValid (validateContentPreservation original enhanced)))
           (c_penalty (validateContentPreservation original enhanced))
  - charge (negb (cs_isValid (validateBasicQuality enhanced)))
           (cs_penalty (validateBasicQuality enhanced))
  - charge (negb (c_isValid (validateToneConsistency original enhanced)))
           (c_penalty (validateToneConsistency original enhanced))
  - charge (strict && negb (cs_isValid (strictModeValidation enhanced)))
           (cs_penalty (strictModeValidation enhanced)).
Proof.
  unfold finalTally. cbv zeta.
  destruct strict; rewrite ?deduct_score; unfold tallyScore; simpl fst; simpl snd;
    simpl andb; unfold charge; cbv iota; lia.
Qed.

Lemma finalTally_issues original enhanced strict :
  tallyIssues (finalTally original enhanced strict) =
  reported (containsQuestions enhanced) [issueQuestions]
  ++ reported (containsExplanations enhanced) [issueExplanations]
  ++ reported (containsMetaCommentary enhanced) [issueMeta]
  ++ reported (negb (c_isValid (validateLength original enhanced)))
              [c_issue (validateLength original enhanced)]
  ++ reported (negb (c_isValid (validateContentPreservation original enhanced)))
              [c_issue (validateContentPreservation original enhanced)]
  ++ reported (negb (cs_isValid (validateBasicQuality enhanced)))
              (cs_issues (validateBasicQuality enhanced))
  ++ reported (negb (c_isValid (validateToneConsistency original enhanced)))
              [c_issue (validateToneConsistency original enhanced)]
  ++ reported (strict && negb (cs_isValid (strictModeValidation enhanced)))
              (cs_issues (strictModeValidation enhanced)).
Proof.
  unfold finalTally. cbv zeta.
  destruct strict; rewrite ?deduct_issues; unfold tallyIssues; simpl fst;
    simpl andb; unfold reported; cbv iota; rewrite ?app_nil_r, <- ?app_assoc;
    reflexivity.
Qed.

(** The score before the floor never exceeds 100 less any one charge. *)
Lemma finalTally_score_le original enhanced strict :
  tallyScore (finalTally original enhanced strict) <=
  100
  - charge (containsQuestions enhanced) 60
  - charge (negb (c_isValid (validateContentPreservation original enhanced)))
           (c_penalty (validateContentPreservation original enhanced)).
Proof.
  rewrite finalTally_score.
  pose proof (charge_nonneg (containsExplanations enhanced) 40 ltac:(lia)).
  pose proof (charge_nonneg (containsMetaCommentary enhanced) 35 ltac:(lia)).
  pose proof (charge_nonneg (negb (c_isValid (validateLength original enhanced))) _
                (validateLength_penalty original enhanced)).
  pose proof (charge_nonneg (negb (cs_isValid (validateBasicQuality enhanced))) _
                (proj1 (validateBasicQuality_sound enhanced))).
  pose proof (charge_nonneg (negb (c_isValid (validateToneConsistency original enhanced))) _
                (validateToneConsistency_penalty original enhanced)).
  pose proof (charge_nonneg (strict && negb (cs_isValid (strictModeValidation enhanced))) _
                (proj1 (strictModeValidation_sound enhanced))).
  lia.
Qed.

Lemma reported_nil fired found :
  (fired = true -> found <> []) -> reported fired found = [] -> fired = false.
Proof.
  destruct fired; [|reflexivity]. unfold reported. intros Hfound Hnil.
  exfalso. exact (Hfound eq_refl Hnil).
Qed.

Lemma singleton_not_nil (b : bool) (x : jsstring) : b = true -> [x] <> [].
Proof. discriminate. Qed.

(** A result without issues has the full score: every block that
    lowers the score also reports an issue. *)
Lemma no_issue_full_score original enhanced config :
  issues (validateEnhancement original enhanced config) = [] ->
  score (validateEnhancement original enhanced config) = 100.
Proof.
  destruct (validateEnhancement_tally original enhanced config) as (Hs & Hi & _).
  rewrite Hs, Hi, finalTally_score, finalTally_issues.
  intros Hnil.
  apply app_eq_nil in Hnil. destruct Hnil as [H1 Hnil].
  apply app_eq_nil in Hnil. destruct Hnil as [H2 Hnil].
  apply app_eq_nil in Hnil. destruct Hnil as [H3 Hnil].
  apply app_eq_nil in Hnil. destruct Hnil as [H4 Hnil].
  apply app_eq_nil in Hnil. destruct Hnil as [H5 Hnil].
  apply app_eq_nil in Hnil. destruct Hnil as [H6 Hnil].
  apply app_eq_nil in Hnil. destruct Hnil as [H7 H8].
  apply reported_nil in H1; [|apply singleton_not_nil].
  apply reported_nil in H2; [|apply singleton_not_nil].
  apply reported_nil in H3; [|apply singleton_not_nil].
  apply reported_nil in H4; [|apply singleton_not_nil].
  apply reported_nil in H5; [|apply singleton_not_nil].
  apply reported_nil in H6;
    [|intros Hb; apply negb_true_iff in Hb;
      exact (proj2 (validateBasicQuality_sound enhanced) Hb)].
  apply reported_nil in H7; [|apply singleton_not_nil].
  apply reported_nil in H8;
    [|intros Hb; apply andb_true_iff in Hb; destruct Hb as [_ Hb];
      apply negb_true_iff in Hb;
      exact (proj2 (strictModeValidation_sound enhanced) Hb)].
  rewrite H1, H2, H3, H4, H5, H6, H7, H8. reflexivity.
Qed.

(** C1.  Whatever the two texts and whatever threshold the caller
    passes as [minScore], the result of [validateEnhancement] is valid
    exactly when its score reaches that threshold and its list of issues
    is empty; a result at or above the threshold that carries an issue is
    invalid.  A caller that passes no [minScore] gets the same with the
    default threshold 70. *)
Theorem validateEnhancement_isValid_iff original enhanced config :
  (forall threshold,
      minScore_opt config = Some threshold ->
      (isValid (validateEnhancement original enhanced config) = true <->
       threshold <= score (validateEnhancement original enhanced config)
       /\ issues (validateEnhancement original enhanced config) = [])
      /\ (threshold <= score (validateEnhancement original enhanced config) ->
          issues (validateEnhancement original enhanced config) <> [] ->
          isValid (validateEnhancement original enhanced config) = false))
  /\ (minScore_opt config = None ->
      (isValid (validateEnhancement original enhanced config) = true <->
       70 <= score (validateEnhancement original enhanced config)
       /\ issues (validateEnhancement original enhanced config) = [])
      /\ (70 <= score (validateEnhancement original enhanced config) ->
          issues (validateEnhancement original enhanced config) <> [] ->
          isValid (validateEnhancement original enhanced config) = false)).
Proof.
  destruct (validateEnhancement_tally original enhanced config) as (_ & _ & Hv).
  assert (Hiff : forall threshold,
    minScore (spread DEFAULT_CONFIG config) = threshold ->
    (isValid (validateEnhancement original enhanced config) = true <->
     threshold <= score (validateEnhancement original enhanced config)
     /\ issues (validateEnhancement original enhanced config) = [])
    /\ (threshold <= score (validateEnhancement original enhanced config) ->
        issues (validateEnhancement original enhanced config) <> [] ->
        isValid (validateEnhancement original enhanced config) = false)).
  { intros threshold Hthreshold.
    assert (H : isValid (validateEnhancement original enhanced config) = true <->
                threshold <= score (validateEnhancement original enhanced config)
                /\ issues (validateEnhancement original enhanced config) = []).
    { rewrite Hv, Hthreshold, andb_true_iff, Z.leb_le, Nat.eqb_eq,
        length_zero_iff_nil. reflexivity. }
    split; [exact H|].
    intros _ Hissues.
    destruct (isValid (validateEnhancement original enhanced config));
      [|reflexivity].
    exfalso. apply Hissues. apply H. reflexivity. }
  split.
  - intros threshold Hgiven. apply Hiff.
    unfold spread. cbn [minScore]. rewrite Hgiven. reflexivity.
  - intros Hgiven. apply Hiff.
    unfold spread. cbn [minScore]. rewrite Hgiven. reflexivity.
Qed.

(** C5.  A candidate identical to the original scores at most 50 and
    is invalid, whatever the text and the configuration: the check of
    content preservation reports that nothing was enhanced. *)
Theorem validateEnhancement_identical x config :
  score (validateEnhancement x x config) <= 50
  /\ isValid (validateEnhancement x x config) = false
  /\ In issueIdentical (issues (validateEnhancement x x config)).
Proof.
  destruct (validateEnhancement_tally x x config) as (Hs & Hi & Hv).
  assert (Hcontent : validateContentPreservation x x =
                     {| c_isValid := false; c_issue := issueIdentical;
                        c_penalty := 50 |}).
  { unfold validateContentPreservation. rewrite streq_refl. reflexivity. }
  assert (Hin : In issueIdentical (issues (validateEnhancement x x config))).
  { rewrite Hi, finalTally_issues, Hcontent. simpl reported at 5.
    do 4 (apply in_or_app; right). apply in_or_app; left. left. reflexivity. }
  split; [|split]; [| |exact Hin].
  - rewrite Hs.
    pose proof (finalTally_score_le x x (strictMode (spread DEFAULT_CONFIG config))) as Hle.
    rewrite Hcontent in Hle. simpl charge at 2 in Hle.
    pose proof (charge_nonneg (containsQuestions x) 60 ltac:(lia)).
    lia.
  - rewrite Hv. apply andb_false_iff. right. apply Nat.eqb_neq.
    intros Hlen. apply length_zero_iff_nil in Hlen.
    rewrite Hlen in Hin. exact Hin.
Qed.

(** C6.  Whatever the original, the candidate "Could you clarify what
    tone you want?" is reported as containing questions and scores at
    most 40. *)
Theorem validateEnhancement_question original config :
  In issueQuestions (issues (validateEnhancement original clarifyingQuestion config))
  /\ score (validateEnhancement original clarifyingQuestion config) <= 40.
Proof.
  destruct (validateEnhancement_tally original clarifyingQuestion config)
    as (Hs & Hi & _).
  assert (Hq : containsQuestions clarifyingQuestion = true) by (vm_compute; reflexivity).
  split.
  - rewrite Hi, finalTally_issues, Hq. left. reflexivity.
  - rewrite Hs.
    pose proof (finalTally_score_le original clarifyingQuestion
                  (strictMode (spread DEFAULT_CONFIG config))) as Hle.
    rewrite Hq in Hle. simpl charge at 1 in Hle.
    pose proof (charge_nonneg
                  (negb (c_isValid (validateContentPreservation original clarifyingQuestion))) _
                  (validateContentPreservation_penalty original clarifyingQuestion)).
    lia.
Qed.

(** C10, as amended.  With an empty original and a non-empty candidate
    the quotient of the two lengths is [Infinity], not [NaN]: the check
    of the length reports the candidate as too long, with penalty 25,
    and so does [validateEnhancement].  The quotient is [NaN] only when
    the candidate is empty as well; no ratio branch fires then, and the
    candidate is reported as extremely short. *)
Theorem validateLength_empty_original candidate config :
  (candidate <> [] ->
   div (jslength candidate) (jslength []) = Infinity
   /\ validateLength [] candidate =
      {| c_isValid := false; c_issue := issueTooLongRatio; c_penalty := 25 |}
   /\ In issueTooLongRatio (issues (validateEnhancement [] candidate config)))
  /\ (div (jslength []) (jslength []) = NaN
      /\ validateLength [] [] =
         {| c_isValid := false; c_issue := issueExtremelyShort; c_penalty := 40 |}).
Proof.
  split; [|split; reflexivity].
  intros Hne.
  assert (Hdiv : div (jslength candidate) (jslength []) = Infinity).
  { destruct candidate as [|c cs]; [congruence|].
    unfold div, jslength. simpl length.
    rewrite Z.eqb_refl.
    replace (Z.of_nat (S (length cs)) =? 0) with false; [reflexivity|].
    symmetry. apply Z.eqb_neq. lia. }
  assert (Hlen : validateLength [] candidate =
                 {| c_isValid := false; c_issue := issueTooLongRatio;
                    c_penalty := 25 |}).
  { unfold validateLength. rewrite Hdiv. reflexivity. }
  split; [exact Hdiv|]. split; [exact Hlen|].
  destruct (validateEnhancement_tally [] candidate config) as (_ & Hi & _).
  rewrite Hi, finalTally_issues, Hlen. simpl reported at 4.
  do 3 (apply in_or_app; right). apply in_or_app; left. left. reflexivity.
Qed.

End ValidatorFacts.

(** C10: a witness, the candidate "Hello world." against the empty
    original. *)
Lemma validateLength_empty_original_witness :
  div (jslength (js "Hello world.")) (jslength []) = Infinity
  /\ validateLength [] (js "Hello world.") =
     {| c_isValid := false; c_issue := issueTooLongRatio; c_penalty := 25 |}
  /\ In issueTooLongRatio
        (issues (@validateEnhancement basicLatinHost [] (js "Hello world.") emptyConfig)).
Proof.
  apply (proj1 (@validateLength_empty_original basicLatinHost (js "Hello world.")
                  emptyConfig)).
  vm_compute. discriminate.
Defined.

(** C10 as stated fails: the candidate "Hello world." has 12 code
    units, and against the empty original its ratio is not [NaN] and the
    too-long violation of the length ratio is reported. *)
Lemma empty_original_reports_ratio_violation :
  10 <= jslength (js "Hello world.")
  /\ div (jslength (js "Hello world.")) (jslength []) <> NaN
  /\ In issueTooLongRatio
        (issues (@validateEnhancement basicLatinHost [] (js "Hello world.") emptyConfig)).
Proof.
  split; [vm_compute; discriminate|].
  split; [vm_compute; discriminate|].
  vm_compute. left. reflexivity.
Qed.

(** ** The fallback over the model list *)

Section Fallback.

Import OpenRouterApiService.

Variable config : OpenRouterConfig.
Variable request : EnhancementRequest.
Variable net : Network.

Lemma attempt_log modelId log :
  snd (attempt config request modelId net log) =
  log ++ [requestFor config request modelId].
Proof.
  unfold attempt, bind, fetch.
  destruct (net (length log) (requestFor config request modelId)) as [e|r];
    [reflexivity|].
  destruct (ok r); [|reflexivity].
  destruct (bodyJson r); try reflexivity.
  destruct (jslength (trim content) <? 10); reflexivity.
Qed.

Lemma attempt_outcome modelId log (res : JsError + EnhancementResponse) :
  fst (attempt config request modelId net log) = res ->
  attempt config request modelId net log =
  (res, log ++ [requestFor config request modelId]).
Proof.
  intros Hfst. pose proof (attempt_log modelId log) as Hlog.
  destruct (attempt config request modelId net log) as [res' log'].
  simpl in Hfst, Hlog. subst. reflexivity.
Qed.

(** The loop only appends to the log. *)
Lemma tryModels_log_grows remaining :
  forall lastError log, exists more,
    snd (tryModels config request remaining lastError net log) = log ++ more.
Proof.
  induction remaining as [|m remaining IH]; intros lastError log.
  - exists []. simpl. symmetry. apply app_nil_r.
  - simpl. unfold tryCatch.
    pose proof (attempt_log m log) as Hlog.
    destruct (attempt config request m net log) as [[e|r] log'];
      simpl in Hlog; subst log'.
    + destruct (IH (Some e) (log ++ [requestFor config request m])) as [more Hmore].
      exists (requestFor config request m :: more).
      rewrite Hmore, <- app_assoc. reflexivity.
    + exists [requestFor config request m]. reflexivity.
Qed.

(** A non-empty list of models: the loop opens with the request for
    the first. *)
Lemma tryModels_first_request m remaining lastError log :
  exists more,
    snd (tryModels config request (m :: remaining) lastError net log) =
    log ++ requestFor config request m :: more.
Proof.
  simpl. unfold tryCatch.
  pose proof (attempt_log m log) as Hlog.
  destruct (attempt config request m net log) as [[e|r] log'];
    simpl in Hlog; subst log'.
  - destruct (tryModels_log_grows remaining (Some e)
                (log ++ [requestFor config request m])) as [more Hmore].
    exists more. rewrite Hmore, <- app_assoc. reflexivity.
  - exists []. reflexivity.
Qed.

Lemma allFail_tail log m failing :
  allFail config request net log (m :: failing) ->
  allFail config request net (log ++ [requestFor config request m]) failing.
Proof.
  intros Hall before m' after Heq.
  destruct (Hall (m :: before) m' after) as [e He].
  { rewrite Heq. reflexivity. }
  exists e. rewrite <- app_assoc. exact He.
Qed.

Lemma allFail_head log m failing :
  allFail config request net log (m :: failing) ->
  exists e, fst (attempt config request m net log) = inl e.
Proof.
  intros Hall. destruct (Hall [] m failing eq_refl) as [e He].
  exists e. simpl in He. rewrite app_nil_r in He. exact He.
Qed.

Lemma allFail_nil log : allFail config request net log [].
Proof.
  intros before m after Heq. destruct before; discriminate Heq.
Qed.

Lemma allFail_cons log m failing e :
  fst (attempt config request m net log) = inl e ->
  allFail config request net (log ++ [requestFor config request m]) failing ->
  allFail config request net log (m :: failing).
Proof.
  intros He Hall before m' after Heq.
  destruct before as [|b before]; simpl in Heq; inversion Heq; subst.
  - exists e. simpl. rewrite app_nil_r. exact He.
  - destruct (Hall before m' after eq_refl) as [e' He'].
    exists e'. simpl. rewrite <- app_assoc in He'. exact He'.
Qed.

(** The first success ends the loop. *)
Lemma tryModels_first_success failing :
  forall m later lastError log r,
    allFail config request net log failing ->
    fst (attempt config request m net (log ++ requestsFor config request failing))
    = inr r ->
    tryModels config request (failing ++ m :: later) lastError net log =
    (inr r, log ++ requestsFor config request (failing ++ [m])).
Proof.
  unfold requestsFor.
  induction failing as [|f failing IH]; intros m later lastError log r Hall Hm.
  - simpl in *. rewrite app_nil_r in Hm. unfold tryCatch.
    rewrite (attempt_outcome _ _ _ Hm). reflexivity.
  - destruct (allFail_head _ _ _ Hall) as [e He].
    simpl. unfold tryCatch. rewrite (attempt_outcome _ _ _ He).
    rewrite (IH m later (Some e) (log ++ [requestFor config request f]) r).
    + rewrite <- app_assoc. reflexivity.
    + apply allFail_tail. exact Hall.
    + rewrite <- app_assoc. exact Hm.
Qed.

(** When every model fails, the error of the last one is thrown. *)
Lemma tryModels_all_fail failing :
  forall m lastError log e,
    allFail config request net log failing ->
    fst (attempt config request m net (log ++ requestsFor config request failing))
    = inl e ->
    tryModels config request (failing ++ [m]) lastError net log =
    (inl e, log ++ requestsFor config request (failing ++ [m])).
Proof.
  unfold requestsFor.
  induction failing as [|f failing IH]; intros m lastError log e Hall Hm.
  - simpl in *. rewrite app_nil_r in Hm. unfold tryCatch.
    rewrite (attempt_outcome _ _ _ Hm). reflexivity.
  - destruct (allFail_head _ _ _ Hall) as [e' He'].
    simpl. unfold tryCatch. rewrite (attempt_outcome _ _ _ He').
    rewrite (IH m (Some e') (log ++ [requestFor config request f]) e).
    + rewrite <- app_assoc. reflexivity.
    + apply allFail_tail. exact Hall.
    + rewrite <- app_assoc. exact Hm.
Qed.

(** C4.  In the loop over an ordered list of models, run from an empty
    log: when the models of [failing] fail and the next model [m]
    succeeds with [r], the loop returns [r] and has sent requests for
    [failing] and [m] only, none for a later model; when [m] is the
    last model and fails too, with [e], the loop throws [e] itself, not
    the error of an earlier model.  [enhanceText] is this loop over the
    three models of the service. *)
Theorem fallback_first_success_else_last_error failing m :
  (forall later r,
      allFail config request net [] failing ->
      fst (attempt config request m net (requestsFor config request failing))
      = inr r ->
      run (tryModels config request (failing ++ m :: later) None) net =
      (inr r, requestsFor config request (failing ++ [m])))
  /\ (forall e,
        allFail config request net [] failing ->
        fst (attempt config request m net (requestsFor config request failing))
        = inl e ->
        run (tryModels config request (failing ++ [m]) None) net =
        (inl e, requestsFor config request (failing ++ [m])))
  /\ enhanceText config request = tryModels config request models None.
Proof.
  split; [|split].
  - intros later r Hall Hm. unfold run.
    apply (tryModels_first_success failing m later None [] r Hall Hm).
  - intros e Hall Hm. unfold run.
    apply (tryModels_all_fail failing m None [] e Hall Hm).
  - reflexivity.
Qed.

End Fallback.

(** ** The retry controller *)

Section RetryController.

Context {host : StringHost}.

Import SingleModelEnhancer.

Lemma callOptimalModel_log config prompt net log :
  snd (callOptimalModel config prompt net log) = log ++ [requestFor config prompt].
Proof.
  unfold callOptimalModel, bind, fetch.
  destruct (net (length log) (requestFor config prompt)) as [e|r]; [reflexivity|].
  destruct (ok r); [|reflexivity].
  destruct (bodyJson r); reflexivity.
Qed.

(** A call that returned: its outcome with the log it leaves. *)
Lemma callOptimalModel_returns config prompt net log t :
  fst (callOptimalModel config prompt net log) = inr t ->
  callOptimalModel config prompt net log = (inr t, log ++ [requestFor config prompt]).
Proof.
  intros Hfst.
  pose proof (callOptimalModel_log config prompt net log) as Hlog.
  destruct (callOptimalModel config prompt net log) as [res log'].
  simpl in Hfst, Hlog. subst. reflexivity.
Qed.

(** A run whose first call returned [t1] without opening the gate. *)
Lemma enhanceText_single config request net t1 :
  fst (callOptimalModel config (firstPrompt request) net []) = inr t1 ->
  retryGate (validateEnhancement (text request) t1 firstPassConfig) = false ->
  run (enhanceText config request) net =
  (inr (buildResponse (text request) t1
          (score (validateEnhancement (text request) t1 firstPassConfig))
          (PromptEnhancer.overallScore (promptOf request))),
   [requestFor config (firstPrompt request)]).
Proof.
  intros H1 Hgate. apply callOptimalModel_returns in H1.
  unfold run, enhanceText, tryCatch, bind. fold (firstPrompt request). rewrite H1.
  unfold retryGate in Hgate. rewrite Hgate. reflexivity.
Qed.

(** A run whose first call returned [t1] and opened the gate, and whose
    second call returned [t2]. *)
Lemma enhanceText_retried config request net t1 t2 :
  fst (callOptimalModel config (firstPrompt request) net []) = inr t1 ->
  retryGate (validateEnhancement (text request) t1 firstPassConfig) = true ->
  fst (callOptimalModel config
         (createStricterPrompt (firstPrompt request)
            (issues (validateEnhancement (text request) t1 firstPassConfig)))
         net [requestFor config (firstPrompt request)]) = inr t2 ->
  run (enhanceText config request) net =
  (inr (if isValid (validateEnhancement (text request) t2 retryConfig)
           || (score (validateEnhancement (text request) t1 firstPassConfig)
               <? score (validateEnhancement (text request) t2 retryConfig))
        then buildResponse (text request) t2
               (score (validateEnhancement (text request) t2 retryConfig))
               (PromptEnhancer.overallScore (promptOf request))
        else buildResponse (text request) t1
               (score (validateEnhancement (text request) t1 firstPassConfig))
               (PromptEnhancer.overallScore (promptOf request))),
   [requestFor config (firstPrompt request);
    requestFor config
      (createStricterPrompt (firstPrompt request)
         (issues (validateEnhancement (text request) t1 firstPassConfig)))]).
Proof.
  intros H1 Hgate H2.
  apply callOptimalModel_returns in H1. apply callOptimalModel_returns in H2.
  unfold run, enhanceText, tryCatch, bind. fold (firstPrompt request). rewrite H1.
  unfold retryGate in Hgate. rewrite Hgate.
  simpl app in *. rewrite H2.
  destruct (isValid (validateEnhancement (text request) t2 retryConfig)
            || (score (validateEnhancement (text request) t1 firstPassConfig)
                <? score (validateEnhancement (text request) t2 retryConfig)));
    reflexivity.
Qed.

(** The requests of a run, whatever the second call gives. *)
Lemma enhanceText_requests config request net t1 :
  fst (callOptimalModel config (firstPrompt request) net []) = inr t1 ->
  snd (run (enhanceText config request) net) =
  requestFor config (firstPrompt request) ::
  (if retryGate (validateEnhancement (text request) t1 firstPassConfig)
   then [requestFor config
           (createStricterPrompt (firstPrompt request)
              (issues (validateEnhancement (text request) t1 firstPassConfig)))]
   else []).
Proof.
  intros H1.
  destruct (retryGate (validateEnhancement (text request) t1 firstPassConfig))
    eqn:Hgate.
  - pose proof (callOptimalModel_log config
                  (createStricterPrompt (firstPrompt request)
                     (issues (validateEnhancement (text request) t1 firstPassConfig)))
                  net [requestFor config (firstPrompt request)]) as Hlog.
    apply callOptimalModel_returns in H1.
    unfold run, enhanceText, tryCatch, bind. fold (firstPrompt request). rewrite H1.
    unfold retryGate in Hgate. rewrite Hgate. simpl app in *.
    destruct (callOptimalModel config
                (createStricterPrompt (firstPrompt request)
                   (issues (validateEnhancement (text request) t1 firstPassConfig)))
                net [requestFor config (firstPrompt request)]) as [[e|t2] log2];
      simpl in Hlog; subst log2; [reflexivity|].
    destruct (isValid (validateEnhancement (text request) t2 retryConfig)
              || (score (validateEnhancement (text request) t1 firstPassConfig)
                  <? score (validateEnhancement (text request) t2 retryConfig)));
      reflexivity.
  - rewrite (enhanceText_single config request net t1 H1 Hgate). reflexivity.
Qed.

(** A valid result has the full score. *)
Lemma valid_full_score original enhanced config :
  isValid (validateEnhancement original enhanced config) = true ->
  score (validateEnhancement original enhanced config) = 100.
Proof.
  intros Hvalid. apply no_issue_full_score.
  destruct (validateEnhancement_tally original enhanced config) as (_ & _ & Hv).
  rewrite Hv in Hvalid. apply andb_true_iff in Hvalid. destruct Hvalid as [_ Hlen].
  apply Nat.eqb_eq in Hlen. apply length_zero_iff_nil. exact Hlen.
Qed.

Lemma retryGate_true validation :
  retryGate validation = true <-> isValid validation = false /\ score validation < 70.
Proof.
  unfold retryGate. rewrite andb_true_iff, negb_true_iff, Z.ltb_lt. reflexivity.
Qed.

(** The test that keeps the retry, when a valid retry always scores
    more than the first stage: it is the strict comparison. *)
Lemma keep_retry_iff (retryValid : bool) (first retry : Z) :
  (retryValid = true -> first < retry) ->
  (retry <= first -> retryValid || (first <? retry) = false)
  /\ (first < retry -> retryValid || (first <? retry) = true).
Proof.
  intros Hvalid. split; intros Hcmp.
  - destruct retryValid; [specialize (Hvalid eq_refl); lia|].
    simpl. apply Z.ltb_ge. exact Hcmp.
  - apply orb_true_iff. right. apply Z.ltb_lt. exact Hcmp.
Qed.

(** C2, as amended.  When the first call returned [t1], the gate
    opened and the retry returned [t2]: a retry that scores no more
    than the first stage leaves the text of the first stage in the
    result, a tie included; the text of the retry is kept exactly when
    it scores strictly more. *)
Theorem retry_kept_only_when_strictly_higher config request net t1 t2 :
  fst (callOptimalModel config (firstPrompt request) net []) = inr t1 ->
  isValid (validateEnhancement (text request) t1 firstPassConfig) = false ->
  score (validateEnhancement (text request) t1 firstPassConfig) < 70 ->
  fst (callOptimalModel config
         (createStricterPrompt (firstPrompt request)
            (issues (validateEnhancement (text request) t1 firstPassConfig)))
         net [requestFor config (firstPrompt request)]) = inr t2 ->
  (score (validateEnhancement (text request) t2 retryConfig)
     <= score (validateEnhancement (text request) t1 firstPassConfig) ->
   fst (run (enhanceText config request) net) =
   inr (buildResponse (text request) t1
          (score (validateEnhancement (text request) t1 firstPassConfig))
          (PromptEnhancer.overallScore (promptOf request))))
  /\ (score (validateEnhancement (text request) t1 firstPassConfig)
        < score (validateEnhancement (text request) t2 retryConfig) ->
      fst (run (enhanceText config request) net) =
      inr (buildResponse (text request) t2
             (score (validateEnhancement (text request) t2 retryConfig))
             (PromptEnhancer.overallScore (promptOf request)))).
Proof.
  intros H1 Hinvalid Hlow H2.
  assert (Hgate : retryGate (validateEnhancement (text request) t1 firstPassConfig)
                  = true) by (apply retryGate_true; split; assumption).
  rewrite (enhanceText_retried config request net t1 t2 H1 Hgate H2).
  unfold fst.
  destruct (keep_retry_iff
              (isValid (validateEnhancement (text request) t2 retryConfig))
              (score (validateEnhancement (text request) t1 firstPassConfig))
              (score (validateEnhancement (text request) t2 retryConfig)))
    as [Hle Hgt].
  { intros Hv2. apply valid_full_score in Hv2. lia. }
  split; intros Hcmp; [rewrite (Hle Hcmp) | rewrite (Hgt Hcmp)]; reflexivity.
Qed.

(** C3.  When the first call returned [t1], the run issues a second
    request, carrying the stricter prompt, exactly when the validation
    of [t1] is invalid with a score below 70; with a score of 70 or
    more the first request is the only one. *)
Theorem retry_exactly_when_invalid_below_70 config request net t1 :
  fst (callOptimalModel config (firstPrompt request) net []) = inr t1 ->
  (isValid (validateEnhancement (text request) t1 firstPassConfig) = false
   /\ score (validateEnhancement (text request) t1 firstPassConfig) < 70 ->
   snd (run (enhanceText config request) net) =
   [requestFor config (firstPrompt request);
    requestFor config
      (createStricterPrompt (firstPrompt request)
         (issues (validateEnhancement (text request) t1 firstPassConfig)))])
  /\ (~ (isValid (validateEnhancement (text request) t1 firstPassConfig) = false
         /\ score (validateEnhancement (text request) t1 firstPassConfig) < 70) ->
      snd (run (enhanceText config request) net) =
      [requestFor config (firstPrompt request)])
  /\ (70 <= score (validateEnhancement (text request) t1 firstPassConfig) ->
      snd (run (enhanceText config request) net) =
      [requestFor config (firstPrompt request)]).
Proof.
  intros H1. rewrite (enhanceText_requests config request net t1 H1).
  destruct (retryGate (validateEnhancement (text request) t1 firstPassConfig))
    eqn:Hgate.
  - apply retryGate_true in Hgate.
    split; [reflexivity|]. split; [tauto|]. lia.
  - assert (Hno : ~ (isValid (validateEnhancement (text request) t1 firstPassConfig)
                     = false
                     /\ score (validateEnhancement (text request) t1 firstPassConfig)
                        < 70)).
    { intros Hyes. apply retryGate_true in Hyes. congruence. }
    split; [tauto|]. split; reflexivity.
Qed.

(** C7, as amended.  [enhanceText] does not look at the length of the
    text: whatever the request, its run opens with the request that
    carries the built prompt, and so does the run of the fallback
    service with its first model.  The bound itself is what
    [validateTextLength] decides, false exactly on a text that is empty
    or longer than 8000; no entry point calls it.  A text that is empty
    once trimmed is turned down by the handler of the page, before any
    request. *)
Theorem enhanceText_sends_whatever_the_length config request net :
  (exists rest,
      snd (run (enhanceText config request) net) =
      requestFor config (firstPrompt request) :: rest)
  /\ (forall routerConfig, exists rest,
        snd (run (OpenRouterApiService.enhanceText routerConfig request) net) =
        OpenRouterApiService.requestFor routerConfig request
          OpenRouterApiService.PRIMARY_MODEL :: rest)
  /\ (validateTextLength (text request) None = false <->
      jslength (text request) = 0 \/ 8000 < jslength (text request))
  /\ (forall inputText isConfigured apiService,
        trim inputText = [] ->
        run (IndexPage.handleEnhance inputText isConfigured apiService) net =
        (inr IndexPage.NoTextToast, [])).
Proof.
  split; [|split; [|split]].
  - destruct (fst (callOptimalModel config (firstPrompt request) net []))
      as [e|t1] eqn:H1.
    + pose proof (callOptimalModel_log config (firstPrompt request) net []) as Hlog.
      unfold run, enhanceText, tryCatch, bind. fold (firstPrompt request).
      destruct (callOptimalModel config (firstPrompt request) net [])
        as [res log1].
      simpl in H1, Hlog. subst. exists []. reflexivity.
    + rewrite (enhanceText_requests config request net t1 H1). eexists. reflexivity.
  - intros routerConfig.
    exact (tryModels_first_request routerConfig request net
             OpenRouterApiService.PRIMARY_MODEL
             [OpenRouterApiService.FALLBACK_MODEL;
              OpenRouterApiService.PREMIUM_FALLBACK] None []).
  - unfold validateTextLength. rewrite andb_false_iff, Z.ltb_ge, Z.leb_gt.
    unfold jslength. lia.
  - intros inputText isConfigured apiService Hblank.
    unfold run, IndexPage.handleEnhance. rewrite Hblank. reflexivity.
Qed.

End RetryController.

(** ** The prompt builder *)

Section PromptFacts.

Import PromptEnhancer PromptShape.

(** C8, as amended.  In the prompt built for "uh i need like a short
    linkedin post..." the section EXTRACTED REQUIREMENTS holds the
    default requirement only; the length cue "short" and the platform
    cue "linkedin" are listed in the section CONTENT SPECIFICATIONS, after
    the content type. *)
Theorem linkedin_cues_in_content_specifications :
  promptSection "EXTRACTED REQUIREMENTS:" linkedinPrompt =
  Some [bullet :: js " Improve overall clarity and engagement"]
  /\ promptSection "CONTENT SPECIFICATIONS:" linkedinPrompt =
     Some [bullet :: js " Content type: post";
           bullet :: js " Length preference: short";
           bullet :: js " Platform: linkedin"]
  /\ sectionMentions "CONTENT SPECIFICATIONS:" "short" linkedinPrompt = true
  /\ sectionMentions "CONTENT SPECIFICATIONS:" "linkedin" linkedinPrompt = true.
Proof.
  assert (Hinfo : extractKeyInformation linkedinInput =
                  {| requirements := [js "Improve overall clarity and engagement"];
                     contentSpecs := [js "Content type: post";
                                      js "Length preference: short";
                                      js "Platform: linkedin"] |})
    by (vm_compute; reflexivity).
  assert (Hprompt : linkedinPrompt =
                    buildEnhancedPrompt linkedinInput
                      {| o_enhancementType := js "general";
                         o_tone := js "professional";
                         o_targetAudience := None;
                         o_customInstructions := None |})
    by (vm_compute; reflexivity).
  rewrite Hprompt. unfold buildEnhancedPrompt. rewrite Hinfo.
  repeat split; vm_compute; reflexivity.
Qed.

(** *** Where matched text comes from *)

Lemma incl_skipn (A : Type) (n : nat) (l : list A) : incl (skipn n l) l.
Proof.
  intros x Hx. rewrite <- (firstn_skipn n l). apply in_or_app. right. exact Hx.
Qed.

Lemma replaceFirst_incl pat s : incl (replaceFirst pat [] s) s.
Proof.
  induction s as [|c s IH]; simpl.
  - destruct (startsWith pat []); [apply incl_skipn | apply incl_refl].
  - destruct (startsWith pat (c :: s)).
    + simpl. apply (incl_skipn _ (length pat) (c :: s)).
    + intros x [Hx|Hx]; [left; exact Hx | right; exact (IH x Hx)].
Qed.

(** *** Texts without the double quote *)

Lemma quoteFree_incl a b : incl a b -> quoteFree b -> quoteFree a.
Proof. intros Hincl Hb Ha. exact (Hb (Hincl _ Ha)). Qed.

Lemma quoteFree_app a b : quoteFree a -> quoteFree b -> quoteFree (a ++ b).
Proof.
  intros Ha Hb Hin. apply in_app_or in Hin. destruct Hin; [exact (Ha H) | exact (Hb H)].
Qed.

(** A literal is checked by running over it. *)
Lemma quoteFree_check s :
  forallb (fun c => negb (N.eqb c dquote)) s = true -> quoteFree s.
Proof.
  intros Hall Hin. rewrite forallb_forall in Hall.
  specialize (Hall _ Hin). rewrite N.eqb_refl in Hall. discriminate Hall.
Qed.

Lemma quoteFree_join sep items :
  quoteFree sep -> Forall quoteFree items -> quoteFree (join sep items).
Proof.
  intros Hsep Hitems. induction Hitems as [|a items Ha Hitems IH]; simpl.
  - intros [].
  - destruct items as [|b items]; [exact Ha|].
    apply quoteFree_app; [exact Ha|]. apply quoteFree_app; [exact Hsep | exact IH].
Qed.

Lemma quoteFree_bulleted items :
  Forall quoteFree items -> quoteFree (bulleted items).
Proof.
  intros Hitems. unfold bulleted. apply quoteFree_join.
  - apply quoteFree_check. reflexivity.
  - apply Forall_map. revert Hitems. apply Forall_impl. intros x Hx.
    apply (quoteFree_app [bullet; 32%N] x); [apply quoteFree_check; reflexivity | exact Hx].
Qed.


(** *** Occurrences of a text in another *)

Lemma includes_head pat s : startsWith pat s = true -> includes pat s = true.
Proof. intros Hs. destruct s; simpl in *; rewrite Hs; reflexivity. Qed.

Lemma includes_skip pat chunk rest :
  includes pat rest = true -> includes pat (chunk ++ rest) = true.
Proof.
  intros Hrest. induction chunk as [|c chunk IH]; [exact Hrest|].
  simpl. rewrite IH. apply orb_true_r.
Qed.

Lemma startsWith_app p r : startsWith p (p ++ r) = true.
Proof.
  induction p as [|c p IH]; [reflexivity|].
  cbn [app startsWith]. rewrite N.eqb_refl. exact IH.
Qed.

Lemma startsWith_split p s : startsWith p s = true -> exists r, s = p ++ r.
Proof.
  revert s. induction p as [|c p IH]; intros s H; [exists s; reflexivity|].
  destruct s as [|x s]; [discriminate H|]. cbn [startsWith] in H.
  apply andb_prop in H. destruct H as [Hc Hp]. apply N.eqb_eq in Hc. subst x.
  destruct (IH s Hp) as [r ->]. exists r. reflexivity.
Qed.

Lemma includes_mid l p r : includes p (l ++ p ++ r) = true.
Proof. apply includes_skip, includes_head, startsWith_app. Qed.

Lemma includes_split p s :
  includes p s = true -> exists l r, s = l ++ p ++ r.
Proof.
  induction s as [|x s IH]; cbn [includes]; intros H;
    apply orb_prop in H; destruct H as [H|H].
  - destruct (startsWith_split _ _ H) as [r Hr]. exists [], r. exact Hr.
  - discriminate H.
  - destruct (startsWith_split _ _ H) as [r Hr]. exists [], r. exact Hr.
  - destruct (IH H) as (l & r & ->). exists (x :: l), r. reflexivity.
Qed.

Lemma includes_trans a b c :
  includes a b = true -> includes b c = true -> includes a c = true.
Proof.
  intros Hab Hbc. destruct (includes_split _ _ Hab) as (l & r & ->).
  destruct (includes_split _ _ Hbc) as (l' & r' & ->).
  replace (l' ++ (l ++ a ++ r) ++ r') with ((l' ++ l) ++ a ++ (r ++ r'))
    by (rewrite <- !app_assoc; reflexivity).
  apply includes_mid.
Qed.

Lemma join_holds sep arr a :
  In a arr -> includes a (join sep arr) = true.
Proof.
  induction arr as [|b arr IH]; intros Hin; [destruct Hin|].
  destruct arr as [|b' arr].
  - destruct Hin as [->|[]]. cbn [join].
    rewrite <- (app_nil_r a) at 2. apply (includes_mid [] a []).
  - change (join sep (b :: b' :: arr)) with (b ++ sep ++ join sep (b' :: arr)).
    destruct Hin as [->|Hin].
    + apply (includes_mid [] a).
    + rewrite app_assoc. apply includes_skip. apply IH. exact Hin.
Qed.

(** *** What a match can run over *)

(** A match of a pattern that never accepts [c] consumes a stretch of
    the input without [c]. *)
Lemma rmatch_never ignoreCase c r :
  never ignoreCase c r = true ->
  forall prev s k e,
    rmatch ignoreCase r prev s k = Some e ->
    exists consumed prev' s',
      s = consumed ++ s' /\ ~ In c consumed /\ k prev' s' = Some e.
Proof.
  induction r as [x | p | | a IHa b IHb | a IHa b IHb | a IHa | |];
    intros Hnever prev s k e Hmatch; cbn [never] in Hnever;
    cbn [rmatch] in Hmatch.
  - destruct s as [|y s]; [discriminate Hmatch|].
    destruct (charEq ignoreCase x y) eqn:Hy; [|discriminate Hmatch].
    exists [y], (Some y), s. split; [reflexivity|]. split; [|exact Hmatch].
    intros [Heq|[]]. subst y. rewrite Hy in Hnever. discriminate Hnever.
  - destruct s as [|y s]; [discriminate Hmatch|].
    destruct (p y) eqn:Hy; [|discriminate Hmatch].
    exists [y], (Some y), s. split; [reflexivity|]. split; [|exact Hmatch].
    intros [Heq|[]]. subst y. rewrite Hy in Hnever. discriminate Hnever.
  - exists [], prev, s. split; [reflexivity|]. split; [intros [] | exact Hmatch].
  - apply andb_prop in Hnever. destruct Hnever as [Ha Hb].
    destruct (IHa Ha _ _ _ _ Hmatch) as (c1 & prev1 & s1 & -> & Hc1 & Hrest).
    destruct (IHb Hb _ _ _ _ Hrest) as (c2 & prev2 & s2 & -> & Hc2 & Hk).
    exists (c1 ++ c2), prev2, s2. split; [rewrite app_assoc; reflexivity|].
    split; [|exact Hk].
    intros Hin. apply in_app_or in Hin. destruct Hin; [exact (Hc1 H) | exact (Hc2 H)].
  - apply andb_prop in Hnever. destruct Hnever as [Ha Hb].
    destruct (rmatch ignoreCase a prev s k) as [e'|] eqn:Hleft.
    + injection Hmatch as ->. exact (IHa Ha _ _ _ _ Hleft).
    + exact (IHb Hb _ _ _ _ Hmatch).
  - revert Hmatch.
    match goal with
    | |- ?loop (length s) prev s = Some e -> _ =>
        assert (Hloop : forall fuel q t,
                   loop fuel q t = Some e ->
                   exists consumed prev' s',
                     t = consumed ++ s' /\ ~ In c consumed /\ k prev' s' = Some e)
    end.
    { induction fuel as [|fuel IHfuel]; intros q t Hrun.
      - exists [], q, t. split; [reflexivity|]. split; [intros [] | exact Hrun].
      - cbn beta iota in Hrun.
        match type of Hrun with
        | match ?inner with _ => _ end = _ => destruct inner as [e'|] eqn:Hinner
        end.
        + injection Hrun as ->.
          destruct (IHa Hnever _ _ _ _ Hinner)
            as (c1 & prev1 & s1 & -> & Hc1 & Hrest).
          cbn beta in Hrest.
          destruct (length s1 <? length (c1 ++ s1))%nat; [|discriminate Hrest].
          destruct (IHfuel _ _ Hrest) as (c2 & prev2 & s2 & -> & Hc2 & Hk).
          exists (c1 ++ c2), prev2, s2. split; [rewrite app_assoc; reflexivity|].
          split; [|exact Hk].
          intros Hin. apply in_app_or in Hin.
          destruct Hin; [exact (Hc1 H) | exact (Hc2 H)].
        + exists [], q, t. split; [reflexivity|]. split; [intros [] | exact Hrun]. }
    apply Hloop.
  - destruct (xorb (isWordBefore prev) (isWordAt s)); [|discriminate Hmatch].
    exists [], prev, s. split; [reflexivity|]. split; [intros [] | exact Hmatch].
  - destruct s as [|y s]; [|discriminate Hmatch].
    exists [], prev, []. split; [reflexivity|]. split; [intros [] | exact Hmatch].
Qed.

Lemma firstn_consumed (consumed e : jsstring) :
  firstn (length (consumed ++ e) - length e) (consumed ++ e) = consumed.
Proof.
  rewrite length_app.
  replace (length consumed + length e - length e)%nat
    with (length consumed + 0)%nat by lia.
  rewrite firstn_app_2. cbn [firstn]. apply app_nil_r.
Qed.

Lemma matchHere_never ignoreCase c r prev s e :
  never ignoreCase c r = true ->
  matchHere ignoreCase r prev s = Some e ->
  ~ In c (firstn (length s - length e) s).
Proof.
  intros Hnever Hmatch. unfold matchHere in Hmatch.
  destruct (rmatch_never ignoreCase c r Hnever _ _ _ _ Hmatch)
    as (consumed & prev' & s' & -> & Hfree & Hend).
  injection Hend as ->. rewrite firstn_consumed. exact Hfree.
Qed.

Lemma search_never ignoreCase c r s :
  never ignoreCase c r = true ->
  forall prev from e,
    search ignoreCase r prev s = Some (from, e) ->
    ~ In c (firstn (length from - length e) from).
Proof.
  intros Hnever. induction s as [|x s IH]; intros prev from e Hsearch;
    cbn [search] in Hsearch.
  - destruct (matchHere ignoreCase r prev []) as [e'|] eqn:Hhere;
      [|discriminate Hsearch].
    injection Hsearch as <- <-. exact (matchHere_never _ _ _ _ _ _ Hnever Hhere).
  - destruct (matchHere ignoreCase r prev (x :: s)) as [e'|] eqn:Hhere.
    + injection Hsearch as <- <-. exact (matchHere_never _ _ _ _ _ _ Hnever Hhere).
    + exact (IH _ _ _ Hsearch).
Qed.

Lemma matchFirst_never ignoreCase c r s found :
  never ignoreCase c r = true ->
  matchFirst ignoreCase r s = Some found -> ~ In c found.
Proof.
  intros Hnever. unfold matchFirst.
  destruct (search ignoreCase r None s) as [[from e]|] eqn:Hsearch;
    intros Hfound; [|discriminate Hfound].
  injection Hfound as <-. exact (search_never _ _ _ _ Hnever _ _ _ Hsearch).
Qed.

Lemma matchAllFrom_never ignoreCase c r s :
  never ignoreCase c r = true ->
  forall skip prev found,
    In found (matchAllFrom ignoreCase r skip prev s) -> ~ In c found.
Proof.
  intros Hnever. induction s as [|x s IH]; intros skip prev found Hin.
  - destruct skip; cbn [matchAllFrom] in Hin; [|contradiction].
    destruct (matchHere ignoreCase r prev []) as [e|] eqn:Hhere; [|contradiction].
    destruct Hin as [<-|[]]. exact (matchHere_never _ _ _ _ _ _ Hnever Hhere).
  - destruct skip as [|skip]; cbn [matchAllFrom] in Hin.
    + destruct (matchHere ignoreCase r prev (x :: s)) as [e|] eqn:Hhere.
      * destruct Hin as [<-|Hin].
        -- exact (matchHere_never _ _ _ _ _ _ Hnever Hhere).
        -- exact (IH _ _ _ Hin).
      * exact (IH _ _ _ Hin).
    + exact (IH _ _ _ Hin).
Qed.

Lemma quoteFree_pushMatch prefix pattern raw arr :
  quoteFree (js prefix) -> never true dquote pattern = true ->
  Forall quoteFree arr ->
  Forall quoteFree (pushMatch prefix (matchFirst true pattern raw) arr).
Proof.
  intros Hprefix Hnever Harr. unfold pushMatch.
  destruct (matchFirst true pattern raw) as [found|] eqn:Hfound; [|exact Harr].
  apply Forall_app. split; [exact Harr|]. constructor; [|constructor].
  apply quoteFree_app; [exact Hprefix|].
  exact (matchFirst_never _ _ _ _ _ Hnever Hfound).
Qed.

(** What [extractKeyInformation] lists is made of literals and of text
    that its patterns matched, and none of its patterns can match a
    double quote: whatever the raw text, the lists hold none. *)
Lemma extractKeyInformation_quoteFree raw :
  Forall quoteFree (requirements (extractKeyInformation raw))
  /\ Forall quoteFree (contentSpecs (extractKeyInformation raw)).
Proof.
  assert (Hall : forall pattern found,
             never true dquote pattern = true ->
             In found (matchAll true pattern raw) -> quoteFree found).
  { intros pattern found Hnever Hin.
    exact (matchAllFrom_never _ _ _ _ Hnever _ _ _ Hin). }
  unfold extractKeyInformation. cbv zeta. split.
  - match goal with
    | |- Forall quoteFree (requirements {| requirements := match ?l with _ => _ end;
                                           contentSpecs := _ |}) =>
        remember l as listed eqn:Hlisted
    end.
    assert (Hl : Forall quoteFree listed).
    { subst listed.
      apply quoteFree_pushMatch;
        [apply quoteFree_check; reflexivity | reflexivity |].
      apply Forall_app. split; [apply Forall_app; split|].
      - apply quoteFree_pushMatch;
          [apply quoteFree_check; reflexivity | reflexivity | constructor].
      - apply Forall_map. apply Forall_forall. intros found Hin.
        apply quoteFree_app; [apply quoteFree_check; reflexivity|].
        apply (Hall numberPattern); [reflexivity | exact Hin].
      - apply Forall_map. apply Forall_forall. intros found Hin.
        apply quoteFree_app; [apply quoteFree_check; reflexivity|].
        apply (quoteFree_incl _ _ (replaceFirst_incl _ found)).
        apply (Hall avoidPattern); [reflexivity | exact Hin]. }
    clear Hlisted. cbv beta iota delta [requirements].
    destruct listed; [|exact Hl].
    constructor; [apply quoteFree_check; reflexivity | constructor].
  - match goal with
    | |- Forall quoteFree (contentSpecs {| requirements := _;
                                           contentSpecs := match ?l with _ => _ end |}) =>
        remember l as listed eqn:Hlisted
    end.
    assert (Hl : Forall quoteFree listed).
    { subst listed.
      apply quoteFree_pushMatch;
        [apply quoteFree_check; reflexivity | reflexivity |].
      apply quoteFree_pushMatch;
        [apply quoteFree_check; reflexivity | reflexivity |].
      apply quoteFree_pushMatch;
        [apply quoteFree_check; reflexivity | reflexivity | constructor]. }
    clear Hlisted. cbv beta iota delta [contentSpecs].
    destruct listed; [|exact Hl].
    constructor; [apply quoteFree_check; reflexivity | constructor].
Qed.

(** *** The pieces of a prompt *)

Lemma join_app sep (front back : list jsstring) :
  front <> [] -> back <> [] ->
  join sep (front ++ back) = join sep front ++ sep ++ join sep back.
Proof.
  intros Hfront Hback. induction front as [|a front IH]; [congruence|].
  destruct front as [|b front].
  - destruct back as [|c back]; [congruence|]. reflexivity.
  - change (join sep ((a :: b :: front) ++ back))
      with (a ++ sep ++ join sep ((b :: front) ++ back)).
    rewrite IH by discriminate.
    change (join sep (a :: b :: front)) with (a ++ sep ++ join sep (b :: front)).
    rewrite <- !app_assoc. reflexivity.
Qed.

(** A chunk without a quote is read into the current piece. *)
Lemma pieces_chunk chunk :
  quoteFree chunk ->
  forall cur rest,
    piecesFrom tripleQuote 0 cur (chunk ++ rest) =
    piecesFrom tripleQuote 0 (rev chunk ++ cur) rest.
Proof.
  induction chunk as [|c chunk IH]; intros Hfree cur rest; [reflexivity|].
  assert (Hc : N.eqb dquote c = false).
  { apply N.eqb_neq. intros Heq. apply Hfree. left. symmetry. exact Heq. }
  assert (Htail : quoteFree chunk).
  { intros Hin. apply Hfree. right. exact Hin. }
  change (piecesFrom tripleQuote 0 cur ((c :: chunk) ++ rest))
    with (if startsWith tripleQuote (c :: chunk ++ rest)
          then rev cur :: piecesFrom tripleQuote (pred (length tripleQuote)) []
                            (chunk ++ rest)
          else piecesFrom tripleQuote 0 (c :: cur) (chunk ++ rest)).
  replace (startsWith tripleQuote (c :: chunk ++ rest)) with false.
  - rewrite (IH Htail). simpl rev. rewrite <- app_assoc. reflexivity.
  - change (startsWith tripleQuote (c :: chunk ++ rest))
      with (N.eqb dquote c && startsWith [dquote; dquote] (chunk ++ rest)).
    rewrite Hc. reflexivity.
Qed.

(** The fence closes the current piece and opens the next. *)
Lemma pieces_fence cur rest :
  piecesFrom tripleQuote 0 cur (tripleQuote ++ rest) =
  rev cur :: piecesFrom tripleQuote 0 [] rest.
Proof. reflexivity. Qed.

Lemma pieces_last chunk :
  quoteFree chunk ->
  forall cur, piecesFrom tripleQuote 0 cur chunk = [rev cur ++ chunk].
Proof.
  intros Hfree cur.
  rewrite <- (app_nil_r chunk) at 1. rewrite (pieces_chunk chunk Hfree).
  simpl. rewrite rev_app_distr, rev_involutive. reflexivity.
Qed.

(** *** Texts without the delimiter *)

Lemma quoteFree_delimiterFree s : quoteFree s -> delimiterFree s.
Proof.
  unfold delimiterFree. induction s as [|c s IH]; intros Hfree; [reflexivity|].
  cbn [includes].
  replace (startsWith tripleQuote (c :: s)) with false.
  - apply IH. intros Hin. apply Hfree. right. exact Hin.
  - change (startsWith tripleQuote (c :: s))
      with (N.eqb dquote c && startsWith [dquote; dquote] s).
    replace (N.eqb dquote c) with false; [reflexivity|].
    symmetry. apply N.eqb_neq. intros Heq. apply Hfree. left. symmetry. exact Heq.
Qed.

(** A text that occurs in a text without the delimiter holds none. *)
Lemma delimiterFree_factor x s :
  includes x s = true -> delimiterFree s -> delimiterFree x.
Proof.
  unfold delimiterFree. intros Hx Hs.
  destruct (includes tripleQuote x) eqn:Hhas; [|reflexivity].
  rewrite (includes_trans _ _ _ Hhas Hx) in Hs. discriminate Hs.
Qed.

Lemma delimiterFree_head c s :
  delimiterFree (c :: s) ->
  startsWith tripleQuote (c :: s) = false /\ delimiterFree s.
Proof.
  unfold delimiterFree. cbn [includes]. intros H.
  apply orb_false_iff in H. exact H.
Qed.

(** A line feed after a text without the delimiter completes none. *)
Lemma delimiter_not_completed chunk rest :
  startsWith tripleQuote chunk = false ->
  startsWith tripleQuote (chunk ++ nl ++ rest) = false.
Proof.
  destruct chunk as [|a [|b [|c chunk]]]; cbn [app startsWith tripleQuote nl].
  - intros _. reflexivity.
  - intros _. destruct (N.eqb dquote a); reflexivity.
  - intros _. destruct (N.eqb dquote a), (N.eqb dquote b); reflexivity.
  - intros H. exact H.
Qed.

(** A chunk without the delimiter that a line feed follows is read into
    the current piece, whatever single or paired quotes it holds. *)
Lemma pieces_guarded chunk :
  delimiterFree chunk ->
  forall cur rest,
    piecesFrom tripleQuote 0 cur (chunk ++ nl ++ rest) =
    piecesFrom tripleQuote 0 (rev chunk ++ cur) (nl ++ rest).
Proof.
  induction chunk as [|c chunk IH]; intros Hfree cur rest; [reflexivity|].
  destruct (delimiterFree_head _ _ Hfree) as [Hhead Htail].
  change (piecesFrom tripleQuote 0 cur ((c :: chunk) ++ nl ++ rest))
    with (if startsWith tripleQuote ((c :: chunk) ++ nl ++ rest)
          then rev cur :: piecesFrom tripleQuote (pred (length tripleQuote)) []
                            (chunk ++ nl ++ rest)
          else piecesFrom tripleQuote 0 (c :: cur) (chunk ++ nl ++ rest)).
  rewrite (delimiter_not_completed (c :: chunk) rest Hhead).
  rewrite (IH Htail). cbn [rev]. rewrite <- app_assoc. reflexivity.
Qed.

Lemma delimiterFree_optionalLine label v :
  quoteFree (js label) -> delimiterFreeOpt v ->
  delimiterFree (optionalLine label v).
Proof.
  intros Hlabel Hv. unfold optionalLine.
  destruct (truthy v); [|reflexivity].
  destruct v as [x|]; [|apply quoteFree_delimiterFree;
                         rewrite app_nil_r; exact Hlabel].
  cbn [delimiterFreeOpt] in Hv. unfold delimiterFree in *.
  induction (js label) as [|c l IH]; [exact Hv|].
  cbn [app includes].
  replace (startsWith tripleQuote (c :: l ++ x)) with false.
  - apply IH. intros Hin. apply Hlabel. right. exact Hin.
  - change (startsWith tripleQuote (c :: l ++ x))
      with (N.eqb dquote c && startsWith [dquote; dquote] (l ++ x)).
    replace (N.eqb dquote c) with false; [reflexivity|].
    symmetry. apply N.eqb_neq. intros Heq. apply Hlabel. left. symmetry. exact Heq.
Qed.

(** *** The pieces of any text *)

Lemma piecesFrom_not_nil delimiter s :
  forall skip cur, piecesFrom delimiter skip cur s <> [].
Proof.
  induction s as [|c s IH]; intros skip cur; cbn [piecesFrom]; [discriminate|].
  destruct skip as [|skip]; [|apply IH].
  destruct (startsWith delimiter (c :: s)); [discriminate | apply IH].
Qed.

(** Putting the delimiter back between the pieces gives the text. *)
Lemma pieces_join s :
  forall skip cur,
    (skip <= 2)%nat ->
    (skip <> O -> startsWith (repeat dquote skip) s = true) ->
    join tripleQuote (piecesFrom tripleQuote skip cur s) =
    rev cur ++ skipn skip s.
Proof.
  induction s as [|c s IH]; intros skip cur Hskip Hquotes.
  - cbn [piecesFrom join]. rewrite skipn_nil, app_nil_r. reflexivity.
  - destruct skip as [|skip].
    + change (piecesFrom tripleQuote 0 cur (c :: s))
        with (if startsWith tripleQuote (c :: s)
              then rev cur :: piecesFrom tripleQuote 2 [] s
              else piecesFrom tripleQuote 0 (c :: cur) s).
      destruct (startsWith tripleQuote (c :: s)) eqn:Hstart.
      * pose proof (piecesFrom_not_nil tripleQuote s 2 []) as Hne.
        assert (Hrest : join tripleQuote (piecesFrom tripleQuote 2 [] s)
                        = skipn 2 s).
        { rewrite IH; [reflexivity | lia |].
          intros _. cbn [startsWith tripleQuote] in Hstart.
          apply andb_prop in Hstart. exact (proj2 Hstart). }
        destruct (piecesFrom tripleQuote 2 [] s) as [|p ps]; [congruence|].
        change (join tripleQuote (rev cur :: p :: ps))
          with (rev cur ++ tripleQuote ++ join tripleQuote (p :: ps)).
        rewrite Hrest. cbn [skipn]. f_equal.
        destruct (startsWith_split _ _ Hstart) as [r Hr].
        cbn [tripleQuote app] in Hr. injection Hr as -> ->. reflexivity.
      * rewrite IH; [|lia|congruence]. cbn [rev skipn].
        rewrite <- app_assoc. reflexivity.
    + cbn [piecesFrom]. rewrite IH; [reflexivity | lia |].
      intros Hne. specialize (Hquotes ltac:(discriminate)).
      destruct skip as [|skip]; [congruence|].
      cbn [repeat startsWith] in Hquotes.
      apply andb_prop in Hquotes. destruct Hquotes as [_ Hquotes].
      assert (skip = O) by lia. subst skip. exact Hquotes.
Qed.

(** No delimiter starts inside the part of the current piece read so
    far. *)
Lemma includes_none p l :
  (forall a b, l = a ++ b -> startsWith p b = false) -> includes p l = false.
Proof.
  induction l as [|c l IH]; intros Hall; cbn [includes].
  - rewrite (Hall [] [] eq_refl). reflexivity.
  - rewrite (Hall [] (c :: l) eq_refl). cbn [orb]. apply IH.
    intros a b Hsplit. apply (Hall (c :: a) b). rewrite Hsplit. reflexivity.
Qed.

Lemma startsWith_longer p b s :
  startsWith p b = true -> startsWith p (b ++ s) = true.
Proof.
  intros H. destruct (startsWith_split _ _ H) as [r ->].
  rewrite <- app_assoc. apply startsWith_app.
Qed.

Lemma pieces_free s :
  forall skip cur,
    (skip = O ->
     forall a b, rev cur = a ++ b -> b <> [] ->
                 startsWith tripleQuote (b ++ s) = false) ->
    (skip <> O -> cur = []) ->
    Forall delimiterFree (piecesFrom tripleQuote skip cur s).
Proof.
  assert (Hclose : forall cur t,
             (forall a b, rev cur = a ++ b -> b <> [] ->
                          startsWith tripleQuote (b ++ t) = false) ->
             delimiterFree (rev cur)).
  { intros cur t Hinv. apply includes_none. intros a b Hsplit.
    destruct b as [|x b]; [reflexivity|].
    destruct (startsWith tripleQuote (x :: b)) eqn:Hstart; [|reflexivity].
    rewrite <- (Hinv a (x :: b) Hsplit ltac:(discriminate)).
    symmetry. apply startsWith_longer. exact Hstart. }
  induction s as [|c s IH]; intros skip cur Hinv Hcur.
  - cbn [piecesFrom]. constructor; [|constructor].
    destruct skip as [|skip].
    + apply (Hclose cur []). apply Hinv. reflexivity.
    + rewrite (Hcur ltac:(discriminate)). reflexivity.
  - destruct skip as [|skip].
    + change (piecesFrom tripleQuote 0 cur (c :: s))
        with (if startsWith tripleQuote (c :: s)
              then rev cur :: piecesFrom tripleQuote 2 [] s
              else piecesFrom tripleQuote 0 (c :: cur) s).
      destruct (startsWith tripleQuote (c :: s)) eqn:Hstart.
      * constructor.
        -- apply (Hclose cur (c :: s)). apply Hinv. reflexivity.
        -- apply IH; [discriminate | reflexivity].
      * apply IH; [|congruence].
        intros _ a b Hsplit Hb. cbn [rev] in Hsplit.
        destruct (exists_last Hb) as (b' & x & ->).
        rewrite app_assoc in Hsplit. apply app_inj_tail in Hsplit.
        destruct Hsplit as [Hsplit ->].
        rewrite <- app_assoc. cbn [app].
        destruct b' as [|y b']; [exact Hstart|].
        apply (Hinv eq_refl a (y :: b') Hsplit). discriminate.
    + cbn [piecesFrom]. rewrite (Hcur ltac:(discriminate)).
      apply IH; [|reflexivity].
      intros _ a b Hsplit Hb. cbn [rev] in Hsplit.
      destruct a, b; try discriminate Hsplit. congruence.
Qed.

(** *** The template around the fence *)

(** What the template puts in front of the fence. *)
Lemma built_prompt_split raw options :
  exists front,
    buildEnhancedPrompt raw options =
    front ++ tripleQuote ++ (nl ++ raw ++ nl) ++ tripleQuote
      ++ nl ++ nl ++ js "Please provide the enhanced version:"
    /\ includes (o_enhancementType options) front = true
    /\ includes (o_tone options) front = true
    /\ includes (optionalLine "TARGET AUDIENCE: " (o_targetAudience options))
                front = true
    /\ includes (optionalLine "ADDITIONAL INSTRUCTIONS: "
                   (o_customInstructions options)) front = true.
Proof.
  unfold buildEnhancedPrompt.
  match goal with
  | |- exists front, join nl ?L = _ /\ _ => rewrite <- (firstn_skipn 22 L)
  end.
  cbn [firstn skipn]. rewrite join_app by discriminate.
  match goal with
  | |- exists front, ?head ++ nl ++ _ = _ /\ _ => exists (head ++ nl)
  end.
  split.
  { cbn [join]. rewrite <- !app_assoc. reflexivity. }
  assert (Hline : forall line head,
             In line head -> includes line (join nl head ++ nl) = true).
  { intros line head Hin.
    apply includes_trans with (b := join nl head); [apply join_holds; exact Hin|].
    exact (includes_mid [] (join nl head) nl). }
  split; [|split; [|split]].
  - apply includes_trans
      with (b := js "ENHANCEMENT TYPE: " ++ o_enhancementType options).
    + rewrite <- (app_nil_r (o_enhancementType options)) at 2.
      apply includes_mid.
    + apply Hline. do 2 right. left. reflexivity.
  - apply includes_trans with (b := js "TARGET TONE: " ++ o_tone options).
    + rewrite <- (app_nil_r (o_tone options)) at 2. apply includes_mid.
    + apply Hline. do 3 right. left. reflexivity.
  - apply Hline. do 4 right. left. reflexivity.
  - apply Hline. do 19 right. left. reflexivity.
Qed.

Lemma optionalLine_holds label v x :
  v = Some x -> includes x (optionalLine label v) = true.
Proof.
  intros ->. unfold optionalLine. destruct x as [|c x]; [reflexivity|].
  cbn [truthy]. rewrite <- (app_nil_r (c :: x)) at 2. apply includes_mid.
Qed.

Ltac quote_free :=
  first [ assumption
        | apply quoteFree_check; reflexivity
        | apply quoteFree_bulleted; apply extractKeyInformation_quoteFree ].

Ltac delimiter_free :=
  first [ assumption
        | apply delimiterFree_optionalLine;
          [apply quoteFree_check; reflexivity | assumption] ].

(** With no delimiter in the inserted texts, the prompt falls into
    three pieces: what stands before the fence, the raw text between two
    line feeds, and the closing request. *)
Lemma built_prompt_pieces raw options :
  delimiterFree raw ->
  delimiterFree (o_enhancementType options) ->
  delimiterFree (o_tone options) ->
  delimiterFreeOpt (o_targetAudience options) ->
  delimiterFreeOpt (o_customInstructions options) ->
  exists head,
    piecesFrom tripleQuote 0 [] (buildEnhancedPrompt raw options) =
    [head; nl ++ raw ++ nl;
     nl ++ nl ++ js "Please provide the enhanced version:"].
Proof.
  intros Hraw Htype Htone Haudience Hci.
  unfold buildEnhancedPrompt. cbn [join].
  rewrite <- !app_assoc.
  repeat first [ rewrite pieces_fence
               | rewrite pieces_chunk by quote_free
               | rewrite pieces_guarded by delimiter_free ].
  rewrite pieces_last by quote_free.
  eexists. f_equal. f_equal.
  rewrite !rev_app_distr, !rev_involutive. rewrite <- !app_assoc. reflexivity.
Qed.

(** C9, as amended.  The custom instructions are inserted as they are,
    after their label and before the fenced original text.  When no
    inserted text (raw text, type, tone, audience, custom instructions)
    holds the delimiter, three double quotes in a row, the prompt has one
    fence and its content is the raw text between two line feeds; other
    double quotes in the inserted texts do no harm.  This proviso is
    exact: the two delimiters of the template are the only ones found in
    the prompt, with the raw text between them, if and only if no inserted
    text holds the delimiter. *)
Theorem customInstructions_inserted_verbatim raw options :
  (forall instructions,
      o_customInstructions options = Some instructions ->
      instructions <> [] ->
      exists before,
        buildEnhancedPrompt raw options =
        before ++ js "ADDITIONAL INSTRUCTIONS: " ++ instructions
          ++ nl ++ nl ++ js "ORIGINAL TEXT:" ++ nl
          ++ tripleQuote ++ nl ++ raw ++ nl ++ tripleQuote
          ++ nl ++ nl ++ js "Please provide the enhanced version:")
  /\ (delimiterFree raw ->
      delimiterFree (o_enhancementType options) ->
      delimiterFree (o_tone options) ->
      delimiterFreeOpt (o_targetAudience options) ->
      delimiterFreeOpt (o_customInstructions options) ->
      fencedContents (buildEnhancedPrompt raw options) = [nl ++ raw ++ nl])
  /\ ((exists head,
          piecesFrom tripleQuote 0 [] (buildEnhancedPrompt raw options) =
          [head; nl ++ raw ++ nl;
           nl ++ nl ++ js "Please provide the enhanced version:"])
      <->
      delimiterFree raw
      /\ delimiterFree (o_enhancementType options)
      /\ delimiterFree (o_tone options)
      /\ delimiterFreeOpt (o_targetAudience options)
      /\ delimiterFreeOpt (o_customInstructions options)).
Proof.
  split; [|split].
  - intros instructions Hci Hne. unfold buildEnhancedPrompt.
    match goal with
    | |- exists before, join nl ?L = _ => rewrite <- (firstn_skipn 19 L)
    end.
    cbn [firstn skipn]. rewrite join_app by discriminate.
    match goal with
    | |- exists before, ?front ++ nl ++ _ = _ => exists (front ++ nl)
    end.
    rewrite <- app_assoc. do 2 f_equal.
    cbn [join]. rewrite Hci. unfold optionalLine.
    destruct instructions as [|c instructions]; [congruence|].
    cbn [truthy]. rewrite <- !app_assoc. reflexivity.
  - intros Hraw Htype Htone Haudience Hci.
    destruct (built_prompt_pieces raw options Hraw Htype Htone Haudience Hci)
      as [head Hpieces].
    unfold fencedContents. rewrite Hpieces. reflexivity.
  - split.
    + intros [head Hpieces].
      pose proof (pieces_free (buildEnhancedPrompt raw options) O []
                    ltac:(intros _ a b Hsplit Hb; destruct a, b;
                          try discriminate Hsplit; congruence)
                    ltac:(congruence)) as Hfree.
      pose proof (pieces_join (buildEnhancedPrompt raw options) O []
                    ltac:(lia) ltac:(congruence)) as Hjoin.
      rewrite Hpieces in Hfree, Hjoin.
      apply Forall_cons_iff in Hfree. destruct Hfree as [Hhead Hfree].
      apply Forall_cons_iff in Hfree. destruct Hfree as [Hmid _].
      destruct (built_prompt_split raw options)
        as (front & Hsplit & Htype & Htone & Haudience & Hci).
      cbn [join rev skipn app] in Hjoin. rewrite Hsplit in Hjoin.
      apply app_inv_tail in Hjoin. subst head.
      split.
      { apply (delimiterFree_factor raw (nl ++ raw ++ nl));
          [apply includes_mid | exact Hmid]. }
      split; [exact (delimiterFree_factor _ _ Htype Hhead)|].
      split; [exact (delimiterFree_factor _ _ Htone Hhead)|].
      split.
      * destruct (o_targetAudience options) as [x|] eqn:Hx; [|exact I].
        apply (delimiterFree_factor x (optionalLine "TARGET AUDIENCE: " (Some x)));
          [apply (optionalLine_holds _ _ x eq_refl)|].
        exact (delimiterFree_factor _ _ Haudience Hhead).
      * destruct (o_customInstructions options) as [x|] eqn:Hx; [|exact I].
        apply (delimiterFree_factor x
                 (optionalLine "ADDITIONAL INSTRUCTIONS: " (Some x)));
          [apply (optionalLine_holds _ _ x eq_refl)|].
        exact (delimiterFree_factor _ _ Hci Hhead).
    + intros (Hraw & Htype & Htone & Haudience & Hci).
      exact (built_prompt_pieces raw options Hraw Htype Htone Haudience Hci).
Qed.

End PromptFacts.

(** ** The claims on concrete runs *)

Import SingleModelEnhancer.

(** C4: a witness.  The first model is rate-limited and the second
    answers: its result is returned after two requests, the third model
    is not asked.  With three refusals the error of the third, a 401, is
    the one thrown. *)
Lemma fallback_first_success_else_last_error_witness :
  run (OpenRouterApiService.enhanceText routerConfig (plainRequest teamRequest))
      (scripted [refusal 429 (js "Too Many Requests") (js "slow down");
                 completion polished]) =
  (inr polishedResponse,
   OpenRouterApiService.requestsFor routerConfig (plainRequest teamRequest)
     [OpenRouterApiService.PRIMARY_MODEL; OpenRouterApiService.FALLBACK_MODEL])
  /\ run (OpenRouterApiService.enhanceText routerConfig (plainRequest teamRequest))
         (scripted [refusal 429 (js "Too Many Requests") (js "slow down");
                    refusal 503 (js "Service Unavailable") (js "down");
                    refusal 401 (js "Unauthorized") denied]) =
     (inl deniedError,
      OpenRouterApiService.requestsFor routerConfig (plainRequest teamRequest)
        OpenRouterApiService.models).
Proof.
  split.
  - refine (proj1 (fallback_first_success_else_last_error
                     routerConfig (plainRequest teamRequest)
                     (scripted [refusal 429 (js "Too Many Requests") (js "slow down");
                                completion polished])
                     [OpenRouterApiService.PRIMARY_MODEL]
                     OpenRouterApiService.FALLBACK_MODEL)
                  [OpenRouterApiService.PREMIUM_FALLBACK] polishedResponse _ _).
    + eapply allFail_cons; [vm_compute; reflexivity | apply allFail_nil].
    + vm_compute. reflexivity.
  - refine (proj1 (proj2 (fallback_first_success_else_last_error
                     routerConfig (plainRequest teamRequest)
                     (scripted [refusal 429 (js "Too Many Requests") (js "slow down");
                                refusal 503 (js "Service Unavailable") (js "down");
                                refusal 401 (js "Unauthorized") denied])
                     [OpenRouterApiService.PRIMARY_MODEL;
                      OpenRouterApiService.FALLBACK_MODEL]
                     OpenRouterApiService.PREMIUM_FALLBACK))
                  deniedError _ _).
    + eapply allFail_cons; [vm_compute; reflexivity|].
      eapply allFail_cons; [vm_compute; reflexivity | apply allFail_nil].
    + vm_compute. reflexivity.
Defined.

(** C2: a witness.  Both candidates ask a question and score 40; the
    text of the first stage is the one returned. *)
Lemma retry_kept_only_when_strictly_higher_witness :
  fst (run (@enhanceText basicLatinHost singleConfig (plainRequest teamRequest))
           (scripted [completion askingCould; completion askingWould])) =
  inr (buildResponse teamRequest askingCould 40
         (PromptEnhancer.overallScore (promptOf (plainRequest teamRequest)))).
Proof.
  refine (proj1 (@retry_kept_only_when_strictly_higher basicLatinHost
                   singleConfig (plainRequest teamRequest)
                   (scripted [completion askingCould; completion askingWould])
                   askingCould askingWould _ _ _ _) _).
  - vm_compute. reflexivity.
  - vm_compute. reflexivity.
  - vm_compute. reflexivity.
  - vm_compute. reflexivity.
  - vm_compute. discriminate.
Defined.

(** C2 as stated fails on a tie: the two candidates differ, both score
    40, the retry was made, and the result carries the text of the first
    stage, not that of the retry. *)
Lemma tie_goes_to_first_stage :
  score (@validateEnhancement basicLatinHost teamRequest askingCould firstPassConfig)
  = score (@validateEnhancement basicLatinHost teamRequest askingWould retryConfig)
  /\ askingCould <> askingWould
  /\ map prompt
       (snd (run (@enhanceText basicLatinHost singleConfig (plainRequest teamRequest))
                 (scripted [completion askingCould; completion askingWould])))
     = [firstPrompt (plainRequest teamRequest);
        createStricterPrompt (firstPrompt (plainRequest teamRequest))
          [issueQuestions]]
  /\ match fst (run (@enhanceText basicLatinHost singleConfig (plainRequest teamRequest))
                    (scripted [completion askingCould; completion askingWould])) with
     | inr result => enhancedText result = askingCould
                     /\ enhancedText result <> askingWould
     | inl _ => False
     end.
Proof.
  split; [vm_compute; reflexivity|].
  split; [vm_compute; discriminate|].
  split; [vm_compute; reflexivity|].
  vm_compute. split; [reflexivity|discriminate].
Qed.

(** C3: a witness.  A first candidate with meta-commentary scores 65
    and is invalid: the stricter prompt is sent.  A first candidate with
    brackets scores 90 and is invalid as well: nothing more is sent. *)
Lemma retry_exactly_when_invalid_below_70_witness :
  (score (@validateEnhancement basicLatinHost teamRequest commenting firstPassConfig) = 65
   /\ isValid (@validateEnhancement basicLatinHost teamRequest commenting firstPassConfig)
      = false
   /\ snd (run (@enhanceText basicLatinHost singleConfig (plainRequest teamRequest))
               (scripted [completion commenting; completion polished])) =
      [requestFor singleConfig (firstPrompt (plainRequest teamRequest));
       requestFor singleConfig
         (createStricterPrompt (firstPrompt (plainRequest teamRequest))
            (issues (@validateEnhancement basicLatinHost teamRequest commenting
                       firstPassConfig)))])
  /\ (score (@validateEnhancement basicLatinHost teamRequest bracketed firstPassConfig) = 90
      /\ isValid (@validateEnhancement basicLatinHost teamRequest bracketed firstPassConfig)
         = false
      /\ snd (run (@enhanceText basicLatinHost singleConfig (plainRequest teamRequest))
                  (scripted [completion bracketed; completion polished])) =
         [requestFor singleConfig (firstPrompt (plainRequest teamRequest))]).
Proof.
  split.
  - split; [vm_compute; reflexivity|]. split; [vm_compute; reflexivity|].
    refine (proj1 (@retry_exactly_when_invalid_below_70 basicLatinHost
                     singleConfig (plainRequest teamRequest)
                     (scripted [completion commenting; completion polished])
                     commenting _) _).
    + vm_compute. reflexivity.
    + split; vm_compute; reflexivity.
  - split; [vm_compute; reflexivity|]. split; [vm_compute; reflexivity|].
    refine (proj2 (proj2 (@retry_exactly_when_invalid_below_70 basicLatinHost
                     singleConfig (plainRequest teamRequest)
                     (scripted [completion bracketed; completion polished])
                     bracketed _)) _).
    + vm_compute. reflexivity.
    + vm_compute. discriminate.
Defined.

(** C7 as stated fails: an empty text and a text of 8001 code units
    both make [enhanceText] send its request. *)
Lemma unchecked_text_reaches_network :
  (jslength (text (plainRequest [])) = 0
   /\ snd (run (@enhanceText basicLatinHost singleConfig (plainRequest []))
               (scripted [])) =
      [requestFor singleConfig (firstPrompt (plainRequest []))])
  /\ (8000 < jslength (text (plainRequest overlongText))
      /\ snd (run (@enhanceText basicLatinHost singleConfig (plainRequest overlongText))
                  (scripted [])) =
         [requestFor singleConfig (firstPrompt (plainRequest overlongText))]).
Proof.
  split; split; vm_compute; reflexivity.
Qed.

(** C8 as stated fails: the section EXTRACTED REQUIREMENTS of that
    prompt mentions neither "short" nor "linkedin". *)
Lemma extracted_requirements_lack_the_cues :
  PromptShape.sectionMentions "EXTRACTED REQUIREMENTS:" "short" linkedinPrompt = false
  /\ PromptShape.sectionMentions "EXTRACTED REQUIREMENTS:" "linkedin" linkedinPrompt
     = false.
Proof.
  split; vm_compute; reflexivity.
Qed.

(** C9: a witness, with custom instructions and a raw text that hold
    double quotes but not the delimiter. *)
Lemma customInstructions_inserted_verbatim_witness :
  (exists before,
      PromptEnhancer.buildEnhancedPrompt quotedRequest
        (optionsWith (Some quotedInstructions)) =
      before ++ js "ADDITIONAL INSTRUCTIONS: " ++ quotedInstructions
        ++ nl ++ nl ++ js "ORIGINAL TEXT:" ++ nl
        ++ PromptEnhancer.tripleQuote ++ nl ++ quotedRequest ++ nl
        ++ PromptEnhancer.tripleQuote
        ++ nl ++ nl ++ js "Please provide the enhanced version:")
  /\ PromptShape.fencedContents
       (PromptEnhancer.buildEnhancedPrompt quotedRequest
          (optionsWith (Some quotedInstructions)))
     = [nl ++ quotedRequest ++ nl]
  /\ exists head,
       PromptShape.piecesFrom PromptEnhancer.tripleQuote 0 []
         (PromptEnhancer.buildEnhancedPrompt quotedRequest
            (optionsWith (Some quotedInstructions))) =
       [head; nl ++ quotedRequest ++ nl;
        nl ++ nl ++ js "Please provide the enhanced version:"].
Proof.
  split; [|split].
  - apply (proj1 (customInstructions_inserted_verbatim quotedRequest
                    (optionsWith (Some quotedInstructions))) quotedInstructions).
    + reflexivity.
    + vm_compute. discriminate.
  - apply (proj1 (proj2 (customInstructions_inserted_verbatim quotedRequest
                           (optionsWith (Some quotedInstructions))))).
    + vm_compute. reflexivity.
    + vm_compute. reflexivity.
    + vm_compute. reflexivity.
    + exact I.
    + vm_compute. reflexivity.
  - apply (proj2 (proj2 (proj2 (customInstructions_inserted_verbatim quotedRequest
                                  (optionsWith (Some quotedInstructions)))))).
    split; [vm_compute; reflexivity|].
    split; [vm_compute; reflexivity|].
    split; [vm_compute; reflexivity|].
    split; [exact I | vm_compute; reflexivity].
Defined.

(** C9 as stated fails: custom instructions made of the delimiter are
    inserted unchanged and open a fence of their own, which holds the
    header of the original text; the original text is left outside. *)
Lemma delimiter_in_instructions_breaks_fence :
  PromptShape.fencedContents
    (PromptEnhancer.buildEnhancedPrompt teamRequest
       (optionsWith (Some PromptEnhancer.tripleQuote)))
  = [nl ++ nl ++ js "ORIGINAL TEXT:" ++ nl]
  /\ PromptShape.fencedContents
       (PromptEnhancer.buildEnhancedPrompt teamRequest
          (optionsWith (Some PromptEnhancer.tripleQuote)))
     <> [nl ++ teamRequest ++ nl]
  /\ includes (js "ADDITIONAL INSTRUCTIONS: " ++ PromptEnhancer.tripleQuote ++ nl)
       (PromptEnhancer.buildEnhancedPrompt teamRequest
          (optionsWith (Some PromptEnhancer.tripleQuote))) = true.
Proof.
  split; [vm_compute; reflexivity|].
  split; [vm_compute; discriminate|].
  vm_compute. reflexivity.
Qed.

(** C7: a witness.  A blank input stops in the handler; the overlong
    text fails [validateTextLength] and is sent all the same. *)
Lemma enhanceText_sends_whatever_the_length_witness :
  run (IndexPage.handleEnhance (js "   ") true (Some routerConfig)) (scripted [])
  = (inr IndexPage.NoTextToast, [])
  /\ validateTextLength overlongText None = false
  /\ exists rest,
       snd (run (@enhanceText basicLatinHost singleConfig (plainRequest overlongText))
                (scripted [])) =
       requestFor singleConfig (firstPrompt (plainRequest overlongText)) :: rest.
Proof.
  split; [|split].
  - apply (proj2 (proj2 (proj2
             (@enhanceText_sends_whatever_the_length basicLatinHost singleConfig
                (plainRequest overlongText) (scripted []))))).
    vm_compute. reflexivity.
  - apply (proj1 (proj2 (proj2
             (@enhanceText_sends_whatever_the_length basicLatinHost singleConfig
                (plainRequest overlongText) (scripted []))))).
    right. vm_compute. reflexivity.
  - exact (proj1 (@enhanceText_sends_whatever_the_length basicLatinHost singleConfig
                    (plainRequest overlongText) (scripted []))).
Defined.

(** C1: a witness.  The candidate with brackets scores 90, above the
    default threshold of 70, and carries an issue: it is invalid.  The
    polished candidate scores 100 without an issue: it is valid for a
    caller that asks for 100, and invalid for a caller that asks for
    101. *)
Lemma validateEnhancement_isValid_iff_witness :
  (score (@validateEnhancement basicLatinHost teamRequest bracketed emptyConfig) = 90
   /\ issues (@validateEnhancement basicLatinHost teamRequest bracketed emptyConfig)
      = [issueMarkup]
   /\ isValid (@validateEnhancement basicLatinHost teamRequest bracketed emptyConfig)
      = false)
  /\ (score (@validateEnhancement basicLatinHost teamRequest polished
               {| minScore_opt := Some 101; maxRetries_opt := None;
                  strictMode_opt := None |}) = 100
      /\ issues (@validateEnhancement basicLatinHost teamRequest polished
                   {| minScore_opt := Some 101; maxRetries_opt := None;
                      strictMode_opt := None |}) = []
      /\ isValid (@validateEnhancement basicLatinHost teamRequest polished
                    {| minScore_opt := Some 101; maxRetries_opt := None;
                       strictMode_opt := None |}) = false)
  /\ isValid (@validateEnhancement basicLatinHost teamRequest polished
                {| minScore_opt := Some 100; maxRetries_opt := None;
                   strictMode_opt := None |}) = true.
Proof.
  split; [|split].
  - split; [vm_compute; reflexivity|].
    split; [vm_compute; reflexivity|].
    apply (proj2 (proj2 (@validateEnhancement_isValid_iff basicLatinHost
                           teamRequest bracketed emptyConfig) eq_refl)).
    + vm_compute. discriminate.
    + vm_compute. discriminate.
  - split; [vm_compute; reflexivity|].
    split; [vm_compute; reflexivity|].
    destruct (isValid (@validateEnhancement basicLatinHost teamRequest polished
                         {| minScore_opt := Some 101; maxRetries_opt := None;
                            strictMode_opt := None |})) eqn:Hvalid;
      [|reflexivity].
    apply (proj1 (proj1 (@validateEnhancement_isValid_iff basicLatinHost
                           teamRequest polished
                           {| minScore_opt := Some 101; maxRetries_opt := None;
                              strictMode_opt := None |}) 101 eq_refl)) in Hvalid.
    destruct Hvalid as [Hscore _]. vm_compute in Hscore.
    exfalso. apply Hscore. reflexivity.
  - apply (proj1 (proj1 (@validateEnhancement_isValid_iff basicLatinHost
                           teamRequest polished
                           {| minScore_opt := Some 100; maxRetries_opt := None;
                              strictMode_opt := None |}) 100 eq_refl)).
    split; [vm_compute; discriminate | vm_compute; reflexivity].
Defined.

(* ================================================================== *)
(** * Further properties *)
(* ================================================================== *)

(** ** What the patterns match *)

Section PatternFacts.

Lemma rmatch_literal ignoreCase p :
  forall prev s k,
    forgetful k ->
    rmatch ignoreCase (RLit p) prev s k =
    if prefixBy (charEq ignoreCase) p s then k prev (skipn (length p) s) else None.
Proof.
  induction p as [|c p IH]; intros prev s k Hk; [reflexivity|].
  destruct p as [|c' p].
  - destruct s as [|x s]; simpl; [reflexivity|].
    rewrite andb_true_r. destruct (charEq ignoreCase c x); [apply Hk | reflexivity].
  - change (RLit (c :: c' :: p)) with (RSeq (RChar c) (RLit (c' :: p))).
    destruct s as [|x s]; [reflexivity|].
    change (rmatch ignoreCase (RSeq (RChar c) (RLit (c' :: p))) prev (x :: s) k)
      with (if charEq ignoreCase c x
            then rmatch ignoreCase (RLit (c' :: p)) (Some x) s k
            else None).
    change (prefixBy (charEq ignoreCase) (c :: c' :: p) (x :: s))
      with (charEq ignoreCase c x && prefixBy (charEq ignoreCase) (c' :: p) s).
    destruct (charEq ignoreCase c x); [|reflexivity].
    rewrite (IH (Some x) s k Hk). cbn [andb].
    destruct (prefixBy (charEq ignoreCase) (c' :: p) s); [|reflexivity].
    change (skipn (length (c :: c' :: p)) (x :: s)) with (skipn (length (c' :: p)) s).
    apply Hk.
Qed.

Lemma matchHere_literal ignoreCase p prev s :
  matchHere ignoreCase (RLit p) prev s =
  if prefixBy (charEq ignoreCase) p s then Some (skipn (length p) s) else None.
Proof.
  unfold matchHere. apply rmatch_literal. intros q q' t. reflexivity.
Qed.

(** A literal pattern tests for an occurrence. *)
Lemma test_literal ignoreCase p s :
  test ignoreCase (RLit p) s = occursBy (charEq ignoreCase) p s.
Proof.
  unfold test. generalize (@None N) as prev.
  induction s as [|x s IH]; intros prev.
  - simpl. rewrite matchHere_literal.
    destruct (prefixBy (charEq ignoreCase) p []); reflexivity.
  - simpl search. rewrite matchHere_literal.
    change (occursBy (charEq ignoreCase) p (x :: s))
      with (prefixBy (charEq ignoreCase) p (x :: s)
            || occursBy (charEq ignoreCase) p s).
    destruct (prefixBy (charEq ignoreCase) p (x :: s)); [reflexivity|].
    simpl orb. apply IH.
Qed.

Lemma prefixBy_exact p s : prefixBy (charEq false) p s = startsWith p s.
Proof.
  revert s. induction p as [|c p IH]; intros s; [reflexivity|].
  destruct s as [|x s]; [reflexivity|]. simpl. rewrite IH. reflexivity.
Qed.

Lemma prefixBy_ignoringCase p s :
  prefixBy (charEq true) p s = startsWith (map canonicalize p) (map canonicalize s).
Proof.
  revert s. induction p as [|c p IH]; intros s; [reflexivity|].
  destruct s as [|x s]; [reflexivity|]. simpl. rewrite IH. reflexivity.
Qed.

Lemma occursBy_exact p s : occursBy (charEq false) p s = includes p s.
Proof.
  induction s as [|x s IH]; simpl; rewrite prefixBy_exact; [reflexivity|].
  rewrite IH. reflexivity.
Qed.

Lemma occursBy_ignoringCase p s :
  occursBy (charEq true) p s = occursIgnoringCase p s.
Proof.
  unfold occursIgnoringCase.
  induction s as [|x s IH]; simpl; rewrite prefixBy_ignoringCase; [reflexivity|].
  rewrite IH. reflexivity.
Qed.

(** The pattern of one character finds the texts that hold it. *)
Lemma test_char c s : test false (RChar c) s = existsb (N.eqb c) s.
Proof.
  change (RChar c) with (RLit [c]). rewrite test_literal.
  induction s as [|x s IH]; [reflexivity|].
  simpl. rewrite IH. rewrite andb_true_r. reflexivity.
Qed.

Lemma test_char_In c s : In c s -> test false (RChar c) s = true.
Proof.
  intros Hin. rewrite test_char. apply existsb_exists. exists c.
  split; [exact Hin | apply N.eqb_refl].
Qed.

Lemma somePatternTests_phrases ws text :
  somePatternTests (map phrase ws) text =
  existsb (fun w => occursIgnoringCase (js w) text) ws.
Proof.
  unfold somePatternTests. induction ws as [|w ws IH]; [reflexivity|].
  cbn [map existsb]. rewrite IH. unfold phrase. cbn [fst snd].
  rewrite test_literal, occursBy_ignoringCase. reflexivity.
Qed.

End PatternFacts.

(** ** More on the quality validator *)

Section ValidatorBounds.

Context {host : StringHost}.

Lemma deduct_confidence fired found p d t :
  tallyConfidence (deduct fired found p d t) = tallyConfidence t - charge fired d.
Proof.
  destruct t as [[i s] c], fired; unfold tallyConfidence, charge; simpl; lia.
Qed.

Lemma validateEnhancement_confidence original enhanced config :
  confidence (validateEnhancement original enhanced config) =
  Z.max 0 (tallyConfidence
             (finalTally original enhanced
                (strictMode (spread DEFAULT_CONFIG config)))).
Proof.
  unfold validateEnhancement, finalTally. cbv zeta.
  match goal with
  | |- context [match ?chain with (_, _) => _ end] =>
      destruct chain as [[i s] c]
  end.
  reflexivity.
Qed.

Lemma finalTally_confidence original enhanced strict :
  tallyConfidence (finalTally original enhanced strict) =
  100
  - charge (containsQuestions enhanced) 40
  - charge (containsExplanations enhanced) 30
  - charge (containsMetaCommentary enhanced) 25
  - charge (negb (c_isValid (validateLength original enhanced))) 15
  - charge (negb (c_isValid (validateContentPreservation original enhanced))) 20
  - charge (negb (cs_isValid (validateBasicQuality enhanced))) 10
  - charge (negb (c_isValid (validateToneConsistency original enhanced))) 10
  - charge (strict && negb (cs_isValid (strictModeValidation enhanced))) 15.
Proof.
  unfold finalTally. cbv zeta.
  destruct strict; rewrite ?deduct_confidence; unfold tallyConfidence; simpl snd;
    simpl andb; unfold charge; cbv iota; lia.
Qed.

(** The score of a pair of texts, as a sum: the facts every bound on a
    score is drawn from. *)
Lemma score_sum original enhanced config :
  exists q x m l c b t s,
    score (validateEnhancement original enhanced config) =
    Z.max 0 (100 - q - x - m - l - c - b - t - s)
    /\ q = charge (containsQuestions enhanced) 60
    /\ 0 <= x /\ 0 <= m
    /\ l = charge (negb (c_isValid (validateLength original enhanced)))
             (c_penalty (validateLength original enhanced))
    /\ 0 <= l
    /\ c = charge (negb (c_isValid (validateContentPreservation original enhanced)))
             (c_penalty (validateContentPreservation original enhanced))
    /\ 0 <= c
    /\ b = charge (negb (cs_isValid (validateBasicQuality enhanced)))
             (cs_penalty (validateBasicQuality enhanced))
    /\ 0 <= b
    /\ t = charge (negb (c_isValid (validateToneConsistency original enhanced)))
             (c_penalty (validateToneConsistency original enhanced))
    /\ 0 <= t
    /\ 0 <= s.
Proof.
  destruct (validateEnhancement_tally original enhanced config) as (Hs & _ & _).
  rewrite Hs, finalTally_score.
  do 8 eexists. split; [reflexivity|].
  split; [reflexivity|].
  split; [apply charge_nonneg; lia|].
  split; [apply charge_nonneg; lia|].
  split; [reflexivity|].
  split; [apply charge_nonneg, validateLength_penalty|].
  split; [reflexivity|].
  split; [apply charge_nonneg, validateContentPreservation_penalty|].
  split; [reflexivity|].
  split; [apply charge_nonneg, validateBasicQuality_sound|].
  split; [reflexivity|].
  split; [apply charge_nonneg, validateToneConsistency_penalty|].
  apply charge_nonneg, strictModeValidation_sound.
Qed.

(** An issue reported by one of the blocks is an issue of the result. *)
Lemma issues_blocks original enhanced config :
  exists (strict : bool),
    issues (validateEnhancement original enhanced config) =
    reported (containsQuestions enhanced) [issueQuestions]
    ++ reported (containsExplanations enhanced) [issueExplanations]
    ++ reported (containsMetaCommentary enhanced) [issueMeta]
    ++ reported (negb (c_isValid (validateLength original enhanced)))
                [c_issue (validateLength original enhanced)]
    ++ reported (negb (c_isValid (validateContentPreservation original enhanced)))
                [c_issue (validateContentPreservation original enhanced)]
    ++ reported (negb (cs_isValid (validateBasicQuality enhanced)))
                (cs_issues (validateBasicQuality enhanced))
    ++ reported (negb (c_isValid (validateToneConsistency original enhanced)))
                [c_issue (validateToneConsistency original enhanced)]
    ++ reported (strict && negb (cs_isValid (strictModeValidation enhanced)))
                (cs_issues (strictModeValidation enhanced)).
Proof.
  destruct (validateEnhancement_tally original enhanced config) as (_ & Hi & _).
  eexists. rewrite Hi. apply finalTally_issues.
Qed.

(** A result that carries an issue is invalid. *)
Lemma issue_invalid original enhanced config issue :
  In issue (issues (validateEnhancement original enhanced config)) ->
  isValid (validateEnhancement original enhanced config) = false.
Proof.
  intros Hin.
  destruct (validateEnhancement_tally original enhanced config) as (_ & _ & Hv).
  rewrite Hv. apply andb_false_iff. right. apply Nat.eqb_neq.
  intros Hlen. apply length_zero_iff_nil in Hlen. rewrite Hlen in Hin. exact Hin.
Qed.

(** Without issues no block fired. *)
Lemma no_issue_flags original enhanced strict :
  tallyIssues (finalTally original enhanced strict) = [] ->
  containsQuestions enhanced = false
  /\ containsExplanations enhanced = false
  /\ containsMetaCommentary enhanced = false
  /\ negb (c_isValid (validateLength original enhanced)) = false
  /\ negb (c_isValid (validateContentPreservation original enhanced)) = false
  /\ negb (cs_isValid (validateBasicQuality enhanced)) = false
  /\ negb (c_isValid (validateToneConsistency original enhanced)) = false
  /\ strict && negb (cs_isValid (strictModeValidation enhanced)) = false.
Proof.
  rewrite finalTally_issues. intros Hnil.
  apply app_eq_nil in Hnil. destruct Hnil as [H1 Hnil].
  apply app_eq_nil in Hnil. destruct Hnil as [H2 Hnil].
  apply app_eq_nil in Hnil. destruct Hnil as [H3 Hnil].
  apply app_eq_nil in Hnil. destruct Hnil as [H4 Hnil].
  apply app_eq_nil in Hnil. destruct Hnil as [H5 Hnil].
  apply app_eq_nil in Hnil. destruct Hnil as [H6 Hnil].
  apply app_eq_nil in Hnil. destruct Hnil as [H7 H8].
  apply reported_nil in H1; [|apply singleton_not_nil].
  apply reported_nil in H2; [|apply singleton_not_nil].
  apply reported_nil in H3; [|apply singleton_not_nil].
  apply reported_nil in H4; [|apply singleton_not_nil].
  apply reported_nil in H5; [|apply singleton_not_nil].
  apply reported_nil in H6;
    [|intros Hb; apply negb_true_iff in Hb;
      exact (proj2 (validateBasicQuality_sound enhanced) Hb)].
  apply reported_nil in H7; [|apply singleton_not_nil].
  apply reported_nil in H8;
    [|intros Hb; apply andb_true_iff in Hb; destruct Hb as [_ Hb];
      apply negb_true_iff in Hb;
      exact (proj2 (strictModeValidation_sound enhanced) Hb)].
  repeat split; assumption.
Qed.

Lemma no_issue_full_confidence original enhanced config :
  issues (validateEnhancement original enhanced config) = [] ->
  confidence (validateEnhancement original enhanced config) = 100.
Proof.
  destruct (validateEnhancement_tally original enhanced config) as (_ & Hi & _).
  rewrite Hi, validateEnhancement_confidence, finalTally_confidence.
  intros Hnil. apply no_issue_flags in Hnil.
  destruct Hnil as (H1 & H2 & H3 & H4 & H5 & H6 & H7 & H8).
  rewrite H1, H2, H3, H4, H5, H6, H7, H8. reflexivity.
Qed.

(** X1.  Score and confidence of every result lie between 0 and 100. *)
Theorem validateEnhancement_bounds original enhanced config :
  0 <= score (validateEnhancement original enhanced config) <= 100
  /\ 0 <= confidence (validateEnhancement original enhanced config) <= 100.
Proof.
  split.
  - destruct (score_sum original enhanced config)
      as (q & x & m & l & c & b & t & s & Hs & Hq & Hx & Hm & _ & Hl & _ & Hc
          & _ & Hb & _ & Ht & Hstrict).
    assert (0 <= q) by (subst q; apply charge_nonneg; lia).
    rewrite Hs. lia.
  - rewrite validateEnhancement_confidence, finalTally_confidence.
    repeat match goal with
           | |- context [charge ?f ?d] =>
               let H := fresh "Hc" in
               assert (H : 0 <= charge f d) by (apply charge_nonneg; lia);
               generalize dependent (charge f d); intros
           end.
    lia.
Qed.

(** X2.  A result is valid exactly when it carries no issue and the
    threshold is at most 100: the score of a result without issues is 100,
    and so is its confidence, so a threshold of 100 or less never decides. *)
Theorem valid_iff_no_issue original enhanced config :
  (isValid (validateEnhancement original enhanced config) = true <->
   issues (validateEnhancement original enhanced config) = []
   /\ minScore (spread DEFAULT_CONFIG config) <= 100)
  /\ (issues (validateEnhancement original enhanced config) = [] ->
      score (validateEnhancement original enhanced config) = 100
      /\ confidence (validateEnhancement original enhanced config) = 100).
Proof.
  destruct (validateEnhancement_tally original enhanced config) as (_ & _ & Hv).
  split.
  - rewrite Hv, andb_true_iff, Z.leb_le, Nat.eqb_eq, length_zero_iff_nil.
    split.
    + intros [Hmin Hnil]. split; [exact Hnil|].
      rewrite (no_issue_full_score original enhanced config Hnil) in Hmin. exact Hmin.
    + intros [Hnil Hmin]. split; [|exact Hnil].
      rewrite (no_issue_full_score original enhanced config Hnil). exact Hmin.
  - intros Hnil. split.
    + exact (no_issue_full_score original enhanced config Hnil).
    + exact (no_issue_full_confidence original enhanced config Hnil).
Qed.

(** X3.  Of a configuration only [strictMode] reaches the score, the
    issues and the confidence: two configurations that agree on it give
    the same three, whatever their thresholds and retry counts. *)
Theorem only_strictMode_matters original enhanced config config' :
  strictMode (spread DEFAULT_CONFIG config) = strictMode (spread DEFAULT_CONFIG config') ->
  score (validateEnhancement original enhanced config)
  = score (validateEnhancement original enhanced config')
  /\ issues (validateEnhancement original enhanced config)
     = issues (validateEnhancement original enhanced config')
  /\ confidence (validateEnhancement original enhanced config)
     = confidence (validateEnhancement original enhanced config').
Proof.
  intros Hstrict.
  destruct (validateEnhancement_tally original enhanced config) as (Hs & Hi & _).
  destruct (validateEnhancement_tally original enhanced config') as (Hs' & Hi' & _).
  rewrite Hs, Hs', Hi, Hi', !validateEnhancement_confidence, Hstrict.
  repeat split.
Qed.

(** X4.  Strict mode only adds: with it the issues of the lax
    validation are kept in front of what it reports, and the score is not
    higher. *)
Theorem strict_mode_only_adds original enhanced strictConfig laxConfig :
  strictMode (spread DEFAULT_CONFIG strictConfig) = true ->
  strictMode (spread DEFAULT_CONFIG laxConfig) = false ->
  score (validateEnhancement original enhanced strictConfig)
  <= score (validateEnhancement original enhanced laxConfig)
  /\ issues (validateEnhancement original enhanced strictConfig)
     = issues (validateEnhancement original enhanced laxConfig)
       ++ reported (negb (cs_isValid (strictModeValidation enhanced)))
                   (cs_issues (strictModeValidation enhanced)).
Proof.
  intros Hstrict Hlax.
  destruct (validateEnhancement_tally original enhanced strictConfig) as (Hs & Hi & _).
  destruct (validateEnhancement_tally original enhanced laxConfig) as (Hs' & Hi' & _).
  rewrite Hs, Hs', Hi, Hi', Hstrict, Hlax.
  rewrite !finalTally_score, !finalTally_issues. simpl andb.
  split.
  - pose proof (charge_nonneg (negb (cs_isValid (strictModeValidation enhanced))) _
                  (proj1 (strictModeValidation_sound enhanced))).
    unfold charge at 16. lia.
  - unfold reported at 16. rewrite app_nil_r, <- !app_assoc. reflexivity.
Qed.

End ValidatorBounds.

(** ** Candidates that cannot pass *)

Section ValidatorVerdicts.

Context {host : StringHost}.

Lemma containsQuestions_mark enhanced :
  In 63%N enhanced -> containsQuestions enhanced = true.
Proof.
  intros Hin. unfold containsQuestions, questionPatterns, somePatternTests.
  cbn [existsb fst snd]. rewrite (test_char_In _ _ Hin). reflexivity.
Qed.

Lemma In_reported (issue : jsstring) found :
  In issue found -> In issue (reported true found).
Proof. intros Hin. exact Hin. Qed.

(** X5.  A candidate that holds a question mark anywhere is reported
    as containing questions, scores at most 40 and is invalid, whatever
    the original. *)
Theorem question_mark_in_candidate original enhanced config :
  In 63%N enhanced ->
  In issueQuestions (issues (validateEnhancement original enhanced config))
  /\ score (validateEnhancement original enhanced config) <= 40
  /\ isValid (validateEnhancement original enhanced config) = false.
Proof.
  intros Hmark. pose proof (containsQuestions_mark enhanced Hmark) as Hq.
  assert (Hin : In issueQuestions (issues (validateEnhancement original enhanced config))).
  { destruct (issues_blocks original enhanced config) as [strict Hi].
    rewrite Hi, Hq. left. reflexivity. }
  split; [exact Hin|]. split; [|exact (issue_invalid _ _ _ _ Hin)].
  destruct (score_sum original enhanced config)
    as (q & x & m & l & c & b & t & s & Hs & Hq' & Hx & Hm & _ & Hl & _ & Hc
        & _ & Hb & _ & Ht & Hstrict).
  rewrite Hq in Hq'. unfold charge in Hq'. rewrite Hs. lia.
Qed.

(** X6.  An original that holds a question mark has no valid
    enhancement: a candidate with a question mark is taken for a
    question, a candidate without one is blamed for dropping it; the
    score stays at or below 80. *)
Theorem question_mark_in_original original enhanced config :
  In 63%N original ->
  isValid (validateEnhancement original enhanced config) = false
  /\ score (validateEnhancement original enhanced config) <= 80
  /\ (In issueQuestions (issues (validateEnhancement original enhanced config))
      \/ In issueQuestionsRemoved
            (issues (validateEnhancement original enhanced config))).
Proof.
  intros Hmark.
  destruct (score_sum original enhanced config)
    as (q & x & m & l & c & b & t & s & Hs & Hq & Hx & Hm & _ & Hl & _ & Hc
        & _ & Hb & Ht & Ht' & Hstrict).
  destruct (issues_blocks original enhanced config) as [strict Hi].
  destruct (test false (RChar 63) enhanced) eqn:Hcandidate.
  - assert (Hfired : containsQuestions enhanced = true).
    { unfold containsQuestions, questionPatterns, somePatternTests.
      cbn [existsb fst snd]. rewrite Hcandidate. reflexivity. }
    assert (Hin : In issueQuestions
                     (issues (validateEnhancement original enhanced config))).
    { rewrite Hi, Hfired. left. reflexivity. }
    split; [exact (issue_invalid _ _ _ _ Hin)|]. split; [|left; exact Hin].
    rewrite Hfired in Hq. unfold charge in Hq. rewrite Hs. lia.
  - assert (Htone : validateToneConsistency original enhanced =
                    {| c_isValid := false; c_issue := issueQuestionsRemoved;
                       c_penalty := 20 |}).
    { unfold validateToneConsistency.
      rewrite (test_char_In _ _ Hmark), Hcandidate. reflexivity. }
    assert (Hin : In issueQuestionsRemoved
                     (issues (validateEnhancement original enhanced config))).
    { rewrite Hi, Htone. do 6 (apply in_or_app; right). apply in_or_app; left.
      left. reflexivity. }
    split; [exact (issue_invalid _ _ _ _ Hin)|]. split; [|right; exact Hin].
    rewrite Htone in Ht. unfold charge in Ht. simpl in Ht.
    assert (0 <= q) by (subst q; apply charge_nonneg; lia).
    rewrite Hs. lia.
Qed.

Lemma validateBasicQuality_blank enhanced :
  trim enhanced = [] ->
  cs_isValid (validateBasicQuality enhanced) = false
  /\ 100 <= cs_penalty (validateBasicQuality enhanced)
  /\ In issueEmpty (cs_issues (validateBasicQuality enhanced)).
Proof.
  intros Hblank. unfold validateBasicQuality. rewrite Hblank.
  cbn [jslength length Z.of_nat Z.ltb Z.compare andb app].
  repeat match goal with
         | |- context [if ?b then _ else _] => destruct b
         end; simpl; repeat split; try lia; left; reflexivity.
Qed.

(** X7.  A candidate that is empty or white space only scores 0 and is
    invalid. *)
Theorem blank_candidate_scores_zero original enhanced config :
  trim enhanced = [] ->
  score (validateEnhancement original enhanced config) = 0
  /\ isValid (validateEnhancement original enhanced config) = false
  /\ In issueEmpty (issues (validateEnhancement original enhanced config)).
Proof.
  intros Hblank.
  destruct (validateBasicQuality_blank enhanced Hblank) as (Hinvalid & Hpenalty & Hempty).
  assert (Hin : In issueEmpty (issues (validateEnhancement original enhanced config))).
  { destruct (issues_blocks original enhanced config) as [strict Hi].
    rewrite Hi, Hinvalid. do 5 (apply in_or_app; right). apply in_or_app; left.
    exact Hempty. }
  split; [|split; [exact (issue_invalid _ _ _ _ Hin) | exact Hin]].
  destruct (score_sum original enhanced config)
    as (q & x & m & l & c & b & t & s & Hs & Hq & Hx & Hm & _ & Hl & _ & Hc
        & Hb & _ & _ & Ht & Hstrict).
  rewrite Hinvalid in Hb. unfold charge in Hb. simpl in Hb.
  assert (0 <= q) by (subst q; apply charge_nonneg; lia).
  rewrite Hs. lia.
Qed.

(** X8.  The check of the length passes exactly when the original is
    not empty, the candidate has at least 10 code units, and its length
    lies between three tenths of the original's and four times it. *)
Theorem validateLength_passes_iff original enhanced :
  c_isValid (validateLength original enhanced) = true <->
  0 < jslength original
  /\ 3 * jslength original <= 10 * jslength enhanced
  /\ jslength enhanced <= 4 * jslength original
  /\ 10 <= jslength enhanced.
Proof.
  assert (Ho : 0 <= jslength original) by (unfold jslength; lia).
  assert (He : 0 <= jslength enhanced) by (unfold jslength; lia).
  unfold validateLength, div.
  destruct (jslength enhanced <? 10) eqn:Hshort;
    [apply Z.ltb_lt in Hshort | apply Z.ltb_ge in Hshort];
    (destruct (jslength original =? 0) eqn:Hzero;
     [apply Z.eqb_eq in Hzero | apply Z.eqb_neq in Hzero]);
    try (destruct (jslength enhanced =? 0) eqn:Hezero;
         [apply Z.eqb_eq in Hezero | apply Z.eqb_neq in Hezero]);
    cbn [ltLit gtLit];
    try (destruct (jslength enhanced * 10 <? 3 * jslength original) eqn:H1;
         [apply Z.ltb_lt in H1 | apply Z.ltb_ge in H1]);
    try (destruct (4 * jslength original <? jslength enhanced * 1) eqn:H2;
         [apply Z.ltb_lt in H2 | apply Z.ltb_ge in H2]);
    cbn [c_isValid passed];
    (split; [intros Hvalid; try discriminate Hvalid; lia
            | intros Hbounds; try reflexivity; lia]).
Qed.

(** X9.  A candidate of fewer than 10 code units is never valid: the
    check of the length refuses it for one of its three reasons, at a cost
    of 25 or more. *)
Theorem short_candidate_invalid original enhanced config :
  jslength enhanced < 10 ->
  isValid (validateEnhancement original enhanced config) = false
  /\ score (validateEnhancement original enhanced config) <= 75.
Proof.
  intros Hshort.
  assert (Hlen : c_isValid (validateLength original enhanced) = false
                 /\ 25 <= c_penalty (validateLength original enhanced)
                 /\ In (c_issue (validateLength original enhanced))
                       [issueTooShortRatio; issueTooLongRatio; issueExtremelyShort]).
  { unfold validateLength.
    destruct (ltLit _ 3 10); [simpl; repeat split; try lia; left; reflexivity|].
    destruct (gtLit _ 4 1);
      [simpl; repeat split; try lia; right; left; reflexivity|].
    replace (jslength enhanced <? 10) with true
      by (symmetry; apply Z.ltb_lt; exact Hshort).
    simpl. repeat split; try lia. right. right. left. reflexivity. }
  destruct Hlen as (Hinvalid & Hpenalty & _).
  split.
  - apply (issue_invalid original enhanced config
             (c_issue (validateLength original enhanced))).
    destruct (issues_blocks original enhanced config) as [strict Hi].
    rewrite Hi, Hinvalid. do 3 (apply in_or_app; right). apply in_or_app; left.
    left. reflexivity.
  - destruct (score_sum original enhanced config)
      as (q & x & m & l & c & b & t & s & Hs & Hq & Hx & Hm & Hl & _ & _ & Hc
          & _ & Hb & _ & Ht & Hstrict).
    rewrite Hinvalid in Hl. unfold charge in Hl. simpl in Hl.
    assert (0 <= q) by (subst q; apply charge_nonneg; lia).
    rewrite Hs. lia.
Qed.

(** X10.  A candidate that differs from the original by leading or
    trailing white space only counts as no enhancement: it scores at most
    50 and is invalid. *)
Theorem surrounding_space_is_no_enhancement original enhanced config :
  trim original = trim enhanced ->
  In issueIdentical (issues (validateEnhancement original enhanced config))
  /\ score (validateEnhancement original enhanced config) <= 50
  /\ isValid (validateEnhancement original enhanced config) = false.
Proof.
  intros Hsame.
  assert (Hcontent : validateContentPreservation original enhanced =
                     {| c_isValid := false; c_issue := issueIdentical;
                        c_penalty := 50 |}).
  { unfold validateContentPreservation. rewrite Hsame, streq_refl. reflexivity. }
  assert (Hin : In issueIdentical (issues (validateEnhancement original enhanced config))).
  { destruct (issues_blocks original enhanced config) as [strict Hi].
    rewrite Hi, Hcontent. do 4 (apply in_or_app; right). apply in_or_app; left.
    left. reflexivity. }
  split; [exact Hin|]. split; [|exact (issue_invalid _ _ _ _ Hin)].
  destruct (score_sum original enhanced config)
    as (q & x & m & l & c & b & t & s & Hs & Hq & Hx & Hm & _ & Hl & Hc & _
        & _ & Hb & _ & Ht & Hstrict).
  rewrite Hcontent in Hc. unfold charge in Hc. simpl in Hc.
  assert (0 <= q) by (subst q; apply charge_nonneg; lia).
  rewrite Hs. lia.
Qed.

Lemma arrayIncludes_In (arr : list jsstring) (w : jsstring) :
  In w arr -> arrayIncludes arr w = true.
Proof.
  intros Hin. unfold arrayIncludes. apply existsb_exists. exists w.
  split; [exact Hin | apply streq_refl].
Qed.

(** X11.  A valid result gets no recommendation; a candidate with a
    question mark always gets the advice to forbid questions. *)
Theorem recommendations_follow_verdict original enhanced config :
  (isValid (validateEnhancement original enhanced config) = true ->
   getValidationRecommendations (validateEnhancement original enhanced config) = [])
  /\ (In 63%N enhanced ->
      In adviceNoQuestions
         (getValidationRecommendations (validateEnhancement original enhanced config))).
Proof.
  split.
  - intros Hvalid.
    destruct (validateEnhancement_tally original enhanced config) as (_ & _ & Hv).
    rewrite Hv in Hvalid. apply andb_true_iff in Hvalid. destruct Hvalid as [_ Hlen].
    apply Nat.eqb_eq, length_zero_iff_nil in Hlen.
    unfold getValidationRecommendations.
    rewrite (no_issue_full_score original enhanced config Hlen).
    rewrite (no_issue_full_confidence original enhanced config Hlen).
    rewrite Hlen. reflexivity.
  - intros Hmark.
    assert (Hin : In issueQuestions (issues (validateEnhancement original enhanced config))).
    { destruct (issues_blocks original enhanced config) as [strict Hi].
      rewrite Hi, (containsQuestions_mark enhanced Hmark). left. reflexivity. }
    unfold getValidationRecommendations.
    rewrite (arrayIncludes_In _ _ Hin). unfold pushWhen at 4. cbn [app].
    repeat match goal with
           | |- context [pushWhen ?b _ _] => destruct b; unfold pushWhen at 1
           end;
      repeat (apply in_or_app; left); left; reflexivity.
Qed.

(** X12.  The three families of phrase patterns look for their phrases
    anywhere in the candidate, in any ASCII letter case: a candidate is
    caught exactly when one of the phrases occurs in it once both are
    taken in one case. *)
Theorem phrase_patterns_are_occurrences text :
  containsExplanations text =
  existsb (fun w => occursIgnoringCase (js w) text)
    [ "here is"; "i have enhanced"; "the improved version";
      "here's the enhanced"; "i've rewritten"; "i've improved";
      "the enhanced text"; "below is the"; "the following is";
      "i've made the following"; "here are the improvements";
      "the revised version" ]
  /\ containsMetaCommentary text =
     existsb (fun w => occursIgnoringCase (js w) text)
       [ "i understand"; "based on your request"; "as requested";
         "to improve"; "in order to enhance"; "for better"; "this will help";
         "the goal is to"; "i've focused on"; "the changes include";
         "improvements made"; "to make it more" ]
  /\ containsQuestions text =
     existsb (N.eqb 63) text
     || existsb (fun w => occursIgnoringCase (js w) text)
          [ "could you"; "would you like"; "do you want"; "should i";
            "what would you prefer"; "would you prefer"; "can you clarify";
            "do you need"; "are you looking for"; "what kind of";
            "which would you"; "how would you like" ].
Proof.
  split; [|split].
  - unfold containsExplanations, explanationPatterns.
    apply somePatternTests_phrases.
  - unfold containsMetaCommentary, metaPatterns.
    apply somePatternTests_phrases.
  - unfold containsQuestions, questionPatterns.
    change (somePatternTests ((false, RChar 63) :: ?l) text)
      with (test false (RChar 63) text || somePatternTests l text).
    rewrite test_char, somePatternTests_phrases. reflexivity.
Qed.

End ValidatorVerdicts.

(** ** Trimming *)

Section TrimFacts.

Lemma trimStart_clean s : startsClean (trimStart s) = true.
Proof.
  induction s as [|x s IH]; [reflexivity|].
  simpl. destruct (isWhiteSpace x) eqn:Hx; [exact IH|]. simpl. rewrite Hx. reflexivity.
Qed.

Lemma trimStart_fixed s : startsClean s = true -> trimStart s = s.
Proof.
  destruct s as [|x s]; [reflexivity|]. simpl. intros Hx.
  apply negb_true_iff in Hx. rewrite Hx. reflexivity.
Qed.

Lemma trimStart_snoc l x :
  isWhiteSpace x = false -> trimStart (l ++ [x]) = trimStart l ++ [x].
Proof.
  intros Hx. induction l as [|y l IH]; simpl.
  - rewrite Hx. reflexivity.
  - destruct (isWhiteSpace y); [exact IH | reflexivity].
Qed.

Lemma trimEnd_fixed s : startsClean (rev s) = true -> trimEnd s = s.
Proof.
  intros Hclean. unfold trimEnd. rewrite (trimStart_fixed _ Hclean).
  apply rev_involutive.
Qed.

Lemma trimEnd_keeps_start s : startsClean s = true -> startsClean (trimEnd s) = true.
Proof.
  destruct s as [|x s]; [reflexivity|]. simpl. intros Hx.
  apply negb_true_iff in Hx. unfold trimEnd. simpl rev.
  rewrite (trimStart_snoc _ _ Hx), rev_app_distr. simpl. rewrite Hx. reflexivity.
Qed.

(** A trimmed text has white space at neither end. *)
Lemma trim_clean s :
  startsClean (trim s) = true /\ startsClean (rev (trim s)) = true.
Proof.
  unfold trim. split.
  - apply trimEnd_keeps_start, trimStart_clean.
  - unfold trimEnd. rewrite rev_involutive. apply trimStart_clean.
Qed.

Lemma trim_fixed s :
  startsClean s = true -> startsClean (rev s) = true -> trim s = s.
Proof.
  intros Hstart Hend. unfold trim. rewrite (trimStart_fixed _ Hstart).
  apply trimEnd_fixed. exact Hend.
Qed.

Lemma trim_idempotent s : trim (trim s) = trim s.
Proof.
  destruct (trim_clean s) as [Hstart Hend]. apply trim_fixed; assumption.
Qed.

End TrimFacts.

(** ** More on the prompt builder *)

Section PromptScores.

Import PromptEnhancer.

(** Neither list of [extractKeyInformation] is ever empty: each has a
    fallback entry. *)
Lemma extractKeyInformation_lists_nonempty raw :
  requirements (extractKeyInformation raw) <> []
  /\ contentSpecs (extractKeyInformation raw) <> [].
Proof.
  unfold extractKeyInformation. cbv zeta.
  cbv beta iota delta [requirements contentSpecs].
  split.
  - match goal with
    | |- match ?l with _ => _ end <> [] => destruct l
    end; discriminate.
  - match goal with
    | |- match ?l with _ => _ end <> [] => destruct l
    end; discriminate.
Qed.

Lemma bonus_bounds present points : 0 <= points -> 0 <= bonus present points <= points.
Proof. intros Hp. destruct present; unfold bonus; lia. Qed.

Lemma roundDiv_thirds n lo hi :
  6 * lo <= 2 * n + 3 < 6 * (hi + 1) -> lo <= roundDiv n 3 <= hi.
Proof.
  intros [Hlo Hhi]. unfold roundDiv. split.
  - apply Z.div_le_lower_bound; lia.
  - assert (Hlt : (2 * n + 3) / (2 * 3) < hi + 1);
      [apply Z.div_lt_upper_bound; lia | lia].
Qed.

(** X13.  Whatever the prompt, its three quality scores and their
    rounded mean lie between 50 and 100. *)
Theorem scorePromptQuality_bounds prompt :
  let '(clarity, specificity, actionability, overallScore) :=
    scorePromptQuality prompt in
  50 <= clarity <= 100
  /\ 50 <= specificity <= 100
  /\ 50 <= actionability <= 100
  /\ 50 <= overallScore <= 100.
Proof.
  unfold scorePromptQuality. cbv zeta.
  repeat match goal with
         | |- context [bonus ?b ?pts] =>
             let H := fresh "Hb" in
             assert (H : 0 <= bonus b pts <= pts) by (apply bonus_bounds; lia);
             generalize dependent (bonus b pts); intros
         end.
  repeat match goal with
         | |- context [Z.of_nat ?n] =>
             let H := fresh "Hn" in
             assert (H : 0 <= Z.of_nat n) by lia;
             generalize dependent (Z.of_nat n); intros
         end.
  assert (Hround : forall n, 150 <= n <= 300 -> 50 <= roundDiv n 3 <= 100)
    by (intros n Hrange; apply roundDiv_thirds; lia).
  repeat split; try lia; apply Hround; lia.
Qed.


(** The pattern of one character, with [g]: as many matches as the text
    has occurrences. *)
Lemma matchAll_char_count c s :
  length (matchAll false (RChar c) s) = count_occ N.eq_dec s c.
Proof.
  unfold matchAll. generalize (@None N) as prev.
  induction s as [|x s IH]; intros prev; [reflexivity|].
  cbn [matchAllFrom]. unfold matchHere. cbn [rmatch charEq].
  destruct (N.eqb_spec c x) as [Heq|Hneq].
  - subst x. replace (length (c :: s) - length s)%nat with 1%nat by (cbn [length]; lia).
    cbn [pred firstn length]. rewrite IH.
    rewrite count_occ_cons_eq by reflexivity. reflexivity.
  - rewrite IH. rewrite count_occ_cons_neq by congruence. reflexivity.
Qed.

Lemma count_bulleted items :
  (length items <= count_occ N.eq_dec (bulleted items) bullet)%nat.
Proof.
  unfold bulleted. induction items as [|a items IH]; [simpl; lia|].
  destruct items as [|b items].
  - cbn [map join length]. rewrite count_occ_cons_eq by reflexivity. lia.
  - change (join nl (map (fun x => bullet :: js " " ++ x) (a :: b :: items)))
      with ((bullet :: js " " ++ a) ++ nl
            ++ join nl (map (fun x => bullet :: js " " ++ x) (b :: items))).
    rewrite !count_occ_app. cbn [length] in *.
    rewrite count_occ_cons_eq by reflexivity. lia.
Qed.

Lemma count_bullet_line l : (1 <= count_occ N.eq_dec (bullet :: l) bullet)%nat.
Proof. rewrite count_occ_cons_eq by reflexivity. lia. Qed.

Ltac find_header :=
  repeat first [ apply includes_head; reflexivity | apply includes_skip ].

(** X14.  The prompt that [enhancePrompt] builds always scores 100
    for clarity, at least 70 for specificity and at least 90 for
    actionability, so the prompt score of every request lies between 87
    and 100. *)
Theorem built_prompt_scores request :
  clarity (enhancePrompt request) = 100
  /\ 70 <= specificity (enhancePrompt request) <= 100
  /\ 90 <= actionability (enhancePrompt request) <= 100
  /\ 87 <= overallScore (enhancePrompt request) <= 100.
Proof.
  unfold enhancePrompt. cbv zeta.
  match goal with
  | |- context [buildEnhancedPrompt ?raw ?options] =>
      set (built := buildEnhancedPrompt raw options);
      assert (Hshape : built = buildEnhancedPrompt raw options) by reflexivity
  end.
  unfold buildEnhancedPrompt in Hshape. cbn [join] in Hshape.
  rewrite <- !app_assoc in Hshape.
  assert (H1 : includes (js "ENHANCEMENT TYPE:") built = true)
    by (rewrite Hshape; find_header).
  assert (H2 : includes (js "TARGET TONE:") built = true)
    by (rewrite Hshape; find_header).
  assert (H3 : includes (js "QUALITY STANDARDS:") built = true)
    by (rewrite Hshape; find_header).
  assert (H4 : includes (js "EXTRACTED REQUIREMENTS:") built = true)
    by (rewrite Hshape; find_header).
  assert (H5 : includes (js "Please provide") built = true)
    by (rewrite Hshape; find_header).
  assert (H6 : includes (js "ORIGINAL TEXT:") built = true)
    by (rewrite Hshape; find_header).
  assert (H7 : includes (js "enhanced version") built = true).
  { rewrite Hshape. repeat apply includes_skip. reflexivity. }
  assert (Hbullets : (7 <= count_occ N.eq_dec built bullet)%nat).
  { rewrite Hshape. rewrite !count_occ_app.
    repeat match goal with
           | |- context [count_occ N.eq_dec (bullet :: ?l) bullet] =>
               let H := fresh "Hline" in
               pose proof (count_bullet_line l) as H;
               generalize dependent (count_occ N.eq_dec (bullet :: l) bullet);
               intros
           end.
    pose proof (count_bulleted (requirements (extractKeyInformation
                  (rawText request)))) as Hr.
    pose proof (count_bulleted (contentSpecs (extractKeyInformation
                  (rawText request)))) as Hc.
    destruct (extractKeyInformation_lists_nonempty (rawText request)) as [Hrne Hcne].
    destruct (requirements (extractKeyInformation (rawText request)));
      [congruence|].
    destruct (contentSpecs (extractKeyInformation (rawText request)));
      [congruence|].
    cbn [length] in Hr, Hc. lia. }
  unfold scorePromptQuality. cbv zeta.
  rewrite H1, H2, H3, H4, H5, H6, H7, matchAll_char_count.
  cbn [clarity specificity actionability overallScore bonus].
  assert (Hthree : Z.min (Z.of_nat (count_occ N.eq_dec built bullet) * 3) 20 = 20)
    by lia.
  rewrite Hthree.
  match goal with
  | |- context [bonus ?b 10] =>
      assert (Hb : 0 <= bonus b 10 <= 10) by (apply bonus_bounds; lia);
      generalize dependent (bonus b 10); intros extra Hextra
  end.
  match goal with
  | |- context [Z.of_nat (length ?l) * 5] =>
      assert (Hn : 0 <= Z.of_nat (length l)) by lia;
      generalize dependent (Z.of_nat (length l)); intros terms Hterms
  end.
  assert (Hround : forall n, 260 <= n <= 300 -> 87 <= roundDiv n 3 <= 100)
    by (intros n Hrange; apply roundDiv_thirds; lia).
  split; [lia|]. split; [lia|]. split; [lia|]. apply Hround. lia.
Qed.

End PromptScores.

(** ** More on the fallback over the model list *)

Section FallbackBounds.

Import OpenRouterApiService.

Variable config : OpenRouterConfig.
Variable request : EnhancementRequest.
Variable net : Network.

(** The loop asks the models in order and stops at the first success:
    its requests are those of a prefix of the list, the whole list when it
    throws. *)
Lemma tryModels_prefix remaining :
  forall lastError log,
  exists k,
    (k <= length remaining)%nat
    /\ snd (tryModels config request remaining lastError net log) =
       log ++ requestsFor config request (firstn k remaining)
    /\ (remaining <> [] -> (1 <= k)%nat)
    /\ (forall e,
          fst (tryModels config request remaining lastError net log) = inl e ->
          k = length remaining).
Proof.
  induction remaining as [|m remaining IH]; intros lastError log.
  - exists 0%nat. simpl. rewrite app_nil_r. repeat split; try lia; congruence.
  - simpl. unfold tryCatch.
    pose proof (attempt_log config request net m log) as Hlog.
    destruct (attempt config request m net log) as [[e|r] log'];
      simpl in Hlog; subst log'.
    + destruct (IH (Some e) (log ++ [requestFor config request m]))
        as (k & Hk & Hsnd & _ & Hall).
      exists (S k). split; [lia|]. split.
      * rewrite Hsnd, <- app_assoc. reflexivity.
      * split; [lia|]. intros e' He'. rewrite (Hall e' He'). reflexivity.
    + exists 1%nat. split; [lia|]. split; [reflexivity|].
      split; [lia|]. intros e He. discriminate He.
Qed.

(** What one attempt returns, when it returns. *)
Lemma attempt_returns modelId log r :
  fst (attempt config request modelId net log) = inr r ->
  trim (enhancedText r) = enhancedText r
  /\ 10 <= enhancedLength r
  /\ enhancedLength r = jslength (enhancedText r)
  /\ originalLength r = jslength (text request).
Proof.
  unfold attempt, bind, fetch.
  destruct (net (length log) (requestFor config request modelId)) as [e|response];
    [discriminate|].
  destruct (ok response); [|discriminate].
  destruct (bodyJson response); try discriminate.
  destruct (jslength (trim content) <? 10) eqn:Hshort; [discriminate|].
  intros Hr. inversion Hr; subst r. simpl.
  apply Z.ltb_ge in Hshort.
  split; [apply trim_idempotent|]. split; [exact Hshort|]. split; reflexivity.
Qed.

Lemma tryModels_returns remaining :
  forall lastError log r,
    fst (tryModels config request remaining lastError net log) = inr r ->
    trim (enhancedText r) = enhancedText r
    /\ 10 <= enhancedLength r
    /\ enhancedLength r = jslength (enhancedText r)
    /\ originalLength r = jslength (text request).
Proof.
  induction remaining as [|m remaining IH]; intros lastError log r;
    [discriminate|].
  simpl. unfold tryCatch.
  destruct (attempt config request m net log) as [[e|r'] log'] eqn:Hattempt.
  - apply IH.
  - intros Hr. inversion Hr; subst r'.
    apply (attempt_returns m log r). rewrite Hattempt. reflexivity.
Qed.

(** The loop stops at the first model that succeeds: the models asked
    are a prefix of the list, all but the last of them failed, and what
    the last of them gave is what the loop gives. *)
Lemma tryModels_stops remaining :
  remaining <> [] ->
  forall lastError log, exists failed m rest,
    remaining = failed ++ m :: rest
    /\ snd (tryModels config request remaining lastError net log) =
       log ++ requestsFor config request (failed ++ [m])
    /\ allFail config request net log failed
    /\ fst (attempt config request m net
              (log ++ requestsFor config request failed)) =
       fst (tryModels config request remaining lastError net log)
    /\ (forall e,
          fst (tryModels config request remaining lastError net log) = inl e ->
          rest = []).
Proof.
  induction remaining as [|m0 rest0 IH]; [congruence|].
  intros _ lastError log. cbn [tryModels]. unfold tryCatch.
  pose proof (attempt_log config request net m0 log) as Hlog.
  destruct (attempt config request m0 net log) as [[e|r] log'] eqn:Hattempt;
    cbn [snd] in Hlog; subst log'.
  - destruct rest0 as [|m1 rest1].
    + exists [], m0, []. cbn [tryModels throw app requestsFor map fst snd].
      rewrite app_nil_r, Hattempt.
      split; [reflexivity|]. split; [reflexivity|].
      split; [apply allFail_nil|]. split; [reflexivity|]. reflexivity.
    + destruct (IH ltac:(discriminate) (Some e)
                  (log ++ [requestFor config request m0]))
        as (failed & m & rest & Hsplit & Hsnd & Hfail & Hlast & Hthrow).
      exists (m0 :: failed), m, rest.
      split; [rewrite Hsplit; reflexivity|].
      split.
      { rewrite Hsnd, <- app_assoc. reflexivity. }
      split.
      { apply allFail_cons with (e := e); [rewrite Hattempt; reflexivity|].
        exact Hfail. }
      split; [|exact Hthrow].
      rewrite <- Hlast. unfold requestsFor. cbn [map].
      rewrite <- app_assoc. reflexivity.
  - exists [], m0, rest0. cbn [app requestsFor map fst snd].
    rewrite app_nil_r, Hattempt.
    split; [reflexivity|]. split; [reflexivity|].
    split; [apply allFail_nil|]. split; [reflexivity|].
    intros e He. discriminate He.
Qed.

(** X15.  A run of the fallback service asks the three models in the
    order of the list and stops at the first that succeeds: the models
    asked are a prefix of the list, between one and three; every model
    asked before the last one failed when its turn came; and the outcome
    of the run, result or error, is the outcome of the last model asked.
    When the run throws, all three models were asked. *)
Theorem fallback_stops_at_first_success :
  exists failed m rest,
    models = failed ++ m :: rest
    /\ snd (run (enhanceText config request) net) =
       requestsFor config request (failed ++ [m])
    /\ (1 <= length (snd (run (enhanceText config request) net)) <= 3)%nat
    /\ allFail config request net [] failed
    /\ fst (attempt config request m net (requestsFor config request failed)) =
       fst (run (enhanceText config request) net)
    /\ (forall e,
          fst (run (enhanceText config request) net) = inl e -> rest = []).
Proof.
  destruct (tryModels_stops models ltac:(discriminate) None [])
    as (failed & m & rest & Hsplit & Hsnd & Hfail & Hlast & Hthrow).
  exists failed, m, rest. unfold run, enhanceText.
  split; [exact Hsplit|]. split; [exact Hsnd|].
  split.
  { rewrite Hsnd. cbn [app]. unfold requestsFor. rewrite length_map, length_app.
    apply (f_equal (@length jsstring)) in Hsplit.
    rewrite length_app in Hsplit. cbn [models length] in Hsplit |- *. lia. }
  split; [exact Hfail|]. split; [exact Hlast | exact Hthrow].
Qed.

(** X16.  What the fallback service returns is never degenerate: the
    text is trimmed and has at least 10 code units, and the two lengths of
    the response are those of the request text and of the returned text.
    A shorter completion counts as a failure of its model. *)
Theorem fallback_result_is_substantial r :
  fst (run (enhanceText config request) net) = inr r ->
  trim (enhancedText r) = enhancedText r
  /\ 10 <= enhancedLength r
  /\ enhancedLength r = jslength (enhancedText r)
  /\ originalLength r = jslength (text request).
Proof.
  apply tryModels_returns.
Qed.

End FallbackBounds.

(** ** More on the retry controller *)

Section RetryBounds.

Context {host : StringHost}.

Import SingleModelEnhancer.

Variable config : SingleModelConfig.
Variable request : EnhancementRequest.
Variable net : Network.

(** What a call returns is trimmed. *)
Lemma callOptimalModel_trimmed prompt log t :
  fst (callOptimalModel config prompt net log) = inr t -> trim t = t.
Proof.
  unfold callOptimalModel, bind, fetch.
  destruct (net (length log) (requestFor config prompt)) as [e|response];
    [discriminate|].
  destruct (ok response); [|discriminate].
  destruct (bodyJson response); try discriminate.
  intros Ht. inversion Ht. apply trim_idempotent.
Qed.

Lemma callOptimalModel_throws prompt log e :
  fst (callOptimalModel config prompt net log) = inl e ->
  callOptimalModel config prompt net log = (inl e, log ++ [requestFor config prompt]).
Proof.
  intros Hfst.
  pose proof (callOptimalModel_log config prompt net log) as Hlog.
  destruct (callOptimalModel config prompt net log) as [res log'].
  simpl in Hfst, Hlog. subst. reflexivity.
Qed.

(** The four ways a run of [enhanceText] can go. *)
Lemma enhanceText_cases :
  (exists e,
      fst (callOptimalModel config (firstPrompt request) net []) = inl e
      /\ run (enhanceText config request) net =
         (inl (wrapped e), [requestFor config (firstPrompt request)]))
  \/ (exists t1,
         fst (callOptimalModel config (firstPrompt request) net []) = inr t1
         /\ retryGate (validateEnhancement (text request) t1 firstPassConfig) = false
         /\ run (enhanceText config request) net =
            (inr (buildResponse (text request) t1
                    (score (validateEnhancement (text request) t1 firstPassConfig))
                    (PromptEnhancer.overallScore (promptOf request))),
             [requestFor config (firstPrompt request)]))
  \/ (exists t1 e,
         fst (callOptimalModel config (firstPrompt request) net []) = inr t1
         /\ retryGate (validateEnhancement (text request) t1 firstPassConfig) = true
         /\ fst (callOptimalModel config (secondPrompt request t1) net
                   [requestFor config (firstPrompt request)]) = inl e
         /\ run (enhanceText config request) net =
            (inl (wrapped e),
             [requestFor config (firstPrompt request);
              requestFor config (secondPrompt request t1)]))
  \/ (exists t1 t2,
         fst (callOptimalModel config (firstPrompt request) net []) = inr t1
         /\ retryGate (validateEnhancement (text request) t1 firstPassConfig) = true
         /\ fst (callOptimalModel config (secondPrompt request t1) net
                   [requestFor config (firstPrompt request)]) = inr t2
         /\ run (enhanceText config request) net =
            (inr (if isValid (validateEnhancement (text request) t2 retryConfig)
                     || (score (validateEnhancement (text request) t1 firstPassConfig)
                         <? score (validateEnhancement (text request) t2 retryConfig))
                  then buildResponse (text request) t2
                         (score (validateEnhancement (text request) t2 retryConfig))
                         (PromptEnhancer.overallScore (promptOf request))
                  else buildResponse (text request) t1
                         (score (validateEnhancement (text request) t1 firstPassConfig))
                         (PromptEnhancer.overallScore (promptOf request))),
             [requestFor config (firstPrompt request);
              requestFor config (secondPrompt request t1)])).
Proof.
  destruct (fst (callOptimalModel config (firstPrompt request) net []))
    as [e|t1] eqn:H1.
  - left. exists e. split; [reflexivity|].
    apply callOptimalModel_throws in H1.
    unfold run, enhanceText, tryCatch, bind. fold (firstPrompt request).
    rewrite H1. reflexivity.
  - right.
    destruct (retryGate (validateEnhancement (text request) t1 firstPassConfig))
      eqn:Hgate.
    + right.
      destruct (fst (callOptimalModel config (secondPrompt request t1) net
                       [requestFor config (firstPrompt request)]))
        as [e|t2] eqn:H2.
      * left. exists t1, e. repeat split; try assumption.
        apply callOptimalModel_returns in H1. apply callOptimalModel_throws in H2.
        unfold run, enhanceText, tryCatch, bind. fold (firstPrompt request).
        rewrite H1. unfold retryGate in Hgate. rewrite Hgate.
        fold (secondPrompt request t1). simpl app in *. rewrite H2. reflexivity.
      * right. exists t1, t2. repeat split; try assumption.
        exact (enhanceText_retried config request net t1 t2 H1 Hgate H2).
    + left. exists t1. repeat split; try assumption.
      exact (enhanceText_single config request net t1 H1 Hgate).
Qed.

(** X17.  A run of the retry controller sends one request or two,
    never more: the first carries the built prompt, and both go to the one
    model of the service. *)
Theorem retry_is_bounded :
  exists rest,
    snd (run (enhanceText config request) net) =
    requestFor config (firstPrompt request) :: rest
    /\ (length rest <= 1)%nat
    /\ Forall (fun sent => model sent = OPTIMAL_MODEL)
              (snd (run (enhanceText config request) net)).
Proof.
  destruct enhanceText_cases
    as [(e & _ & Hrun) | [(t1 & _ & _ & Hrun) | [(t1 & e & _ & _ & _ & Hrun)
       | (t1 & t2 & _ & _ & _ & Hrun)]]];
    rewrite Hrun; eexists; (split; [reflexivity|]);
    (split; [simpl; lia|]); repeat constructor.
Qed.

(** X18.  Whatever fails inside [enhanceText], it is one of the two
    calls of the model, and the caller sees a plain [Error] whose message
    is "Enhancement failed: " followed by the message of the error that
    this call threw; a status code that error carried is not passed on.
    The failing call is the first one, or the retry after a first
    candidate that opened the retry gate. *)
Theorem failure_is_wrapped err :
  fst (run (enhanceText config request) net) = inl err ->
  exists e,
    (fst (callOptimalModel config (firstPrompt request) net []) = inl e
     \/ exists t1,
          fst (callOptimalModel config (firstPrompt request) net []) = inr t1
          /\ retryGate (validateEnhancement (text request) t1 firstPassConfig)
             = true
          /\ fst (callOptimalModel config (secondPrompt request t1) net
                    [requestFor config (firstPrompt request)]) = inl e)
    /\ err = wrapped e
    /\ name err = js "Error"
    /\ message err = js "Enhancement failed: " ++ message e
    /\ statusCode err = None.
Proof.
  destruct enhanceText_cases
    as [(e & Hfirst & Hrun) | [(t1 & _ & _ & Hrun)
       | [(t1 & e & Hfirst & Hgate & Hsecond & Hrun)
       | (t1 & t2 & _ & _ & _ & Hrun)]]];
    intros Herr; rewrite Hrun in Herr; unfold fst in Herr;
    try discriminate Herr; injection Herr as Herr; subst err; exists e.
  - split; [left; exact Hfirst|]. repeat split.
  - split; [right; exists t1; repeat split; assumption|]. repeat split.
Qed.

(** X19.  When the retry is made and its call fails, the run throws:
    the candidate of the first stage is not returned. *)
Theorem failed_retry_discards_first_candidate t1 e :
  fst (callOptimalModel config (firstPrompt request) net []) = inr t1 ->
  isValid (validateEnhancement (text request) t1 firstPassConfig) = false ->
  score (validateEnhancement (text request) t1 firstPassConfig) < 70 ->
  fst (callOptimalModel config (secondPrompt request t1) net
         [requestFor config (firstPrompt request)]) = inl e ->
  run (enhanceText config request) net =
  (inl (wrapped e),
   [requestFor config (firstPrompt request);
    requestFor config (secondPrompt request t1)]).
Proof.
  intros H1 Hinvalid Hlow H2.
  assert (Hgate : retryGate (validateEnhancement (text request) t1 firstPassConfig)
                  = true) by (apply retryGate_true; split; assumption).
  destruct enhanceText_cases
    as [(e' & H1' & _) | [(t1' & H1' & Hgate' & _)
       | [(t1' & e' & H1' & _ & H2' & Hrun) | (t1' & t2' & H1' & _ & H2' & _)]]];
    rewrite H1 in H1'; try discriminate H1'; inversion H1'; subst t1'.
  - rewrite Hgate in Hgate'. discriminate Hgate'.
  - rewrite H2 in H2'. inversion H2'; subst e'. exact Hrun.
  - rewrite H2 in H2'. discriminate H2'.
Qed.

(** The score of a candidate is the same under the two configurations
    of the controller. *)
Lemma score_retryConfig original enhanced :
  score (validateEnhancement original enhanced retryConfig)
  = score (validateEnhancement original enhanced firstPassConfig).
Proof.
  destruct (validateEnhancement_tally original enhanced retryConfig) as (Hs & _ & _).
  destruct (validateEnhancement_tally original enhanced firstPassConfig)
    as (Hs' & _ & _).
  rewrite Hs, Hs'. reflexivity.
Qed.

#[local] Opaque validateEnhancement PromptEnhancer.enhancePrompt
  createStricterPrompt callOptimalModel.

(** X20.  What [enhanceText] returns is coherent: its quality score is
    the validator's score of the very text it returns, between 0 and 100
    and not below the score of the first candidate; the text is trimmed
    and its recorded length is its own. *)
Theorem result_is_coherent r :
  fst (run (enhanceText config request) net) = inr r ->
  qualityScore r =
  score (validateEnhancement (text request) (enhancedText r) firstPassConfig)
  /\ 0 <= qualityScore r <= 100
  /\ trim (enhancedText r) = enhancedText r
  /\ enhancedLength r = jslength (enhancedText r)
  /\ originalLength r = jslength (text request)
  /\ modelUsed r = OPTIMAL_MODEL
  /\ (forall t1,
        fst (callOptimalModel config (firstPrompt request) net []) = inr t1 ->
        score (validateEnhancement (text request) t1 firstPassConfig)
        <= qualityScore r).
Proof.
  assert (Hbounds : forall t,
             0 <= score (validateEnhancement (text request) t firstPassConfig) <= 100).
  { intros t.
    destruct (validateEnhancement_tally (text request) t firstPassConfig)
      as (Hs & _ & _).
    pose proof (finalTally_score_le (text request) t
                  (strictMode (spread DEFAULT_CONFIG firstPassConfig))) as Hle.
    pose proof (charge_nonneg (containsQuestions t) 60 ltac:(lia)).
    pose proof (charge_nonneg
                  (negb (c_isValid (validateContentPreservation (text request) t))) _
                  (validateContentPreservation_penalty (text request) t)).
    rewrite Hs. lia. }
  destruct enhanceText_cases
    as [(e & _ & Hrun) | [(t1 & H1 & _ & Hrun) | [(t1 & e & _ & _ & _ & Hrun)
       | (t1 & t2 & H1 & Hgate & H2 & Hrun)]]];
    intros Hr; rewrite Hrun in Hr; unfold fst in Hr; try discriminate Hr;
    injection Hr as Hr; subst r.
  - cbn [qualityScore enhancedText enhancedLength originalLength modelUsed
         buildResponse].
    repeat split; try apply Hbounds.
    + exact (callOptimalModel_trimmed _ _ _ H1).
    + intros t1' H1'. rewrite H1 in H1'. inversion H1'. lia.
  - apply retryGate_true in Hgate. destruct Hgate as [_ Hlow].
    pose proof (score_retryConfig (text request) t2) as Hsame.
    match goal with
    | |- context [if ?b then _ else _] =>
        set (keep := b) in *;
        assert (Hkeep : b = keep) by reflexivity;
        clearbody keep; destruct keep
    end;
      cbn [qualityScore enhancedText enhancedLength originalLength modelUsed
           buildResponse].
    + repeat split; try (rewrite Hsame; apply Hbounds); try exact Hsame.
      * exact (callOptimalModel_trimmed _ _ _ H2).
      * intros t1' H1'. rewrite H1 in H1'. inversion H1'; subst t1'.
        apply orb_true_iff in Hkeep. destruct Hkeep as [Hvalid|Hmore].
        -- apply valid_full_score in Hvalid. lia.
        -- apply Z.ltb_lt in Hmore. lia.
    + repeat split; try apply Hbounds.
      * exact (callOptimalModel_trimmed _ _ _ H1).
      * intros t1' H1'. rewrite H1 in H1'. inversion H1'. lia.
Qed.

#[local] Transparent validateEnhancement PromptEnhancer.enhancePrompt
  createStricterPrompt callOptimalModel.

(** X21.  [testConnection] never throws and sends exactly one request;
    it answers [true] exactly when the call returned. *)
Theorem testConnection_never_throws :
  exists answer,
    run (testConnection config) net =
    (inr answer, [requestFor config testPrompt])
    /\ (answer = true <->
        exists t, fst (callOptimalModel config testPrompt net []) = inr t).
Proof.
  pose proof (callOptimalModel_log config testPrompt net []) as Hlog.
  unfold run, testConnection, tryCatch, bind, ret.
  destruct (callOptimalModel config testPrompt net []) as [[e|t] log];
    simpl in Hlog; subst log.
  - exists false. split; [reflexivity|]. split; [discriminate|].
    intros [t Ht]. discriminate Ht.
  - exists true. split; [reflexivity|]. split; [|reflexivity].
    intros _. exists t. reflexivity.
Qed.

End RetryBounds.

(** ** Runs of white space *)

Section WhitespaceRuns.

Lemma length_dropWhile p s :
  length (dropWhile p s) = (length s - runLength p s)%nat.
Proof.
  induction s as [|x s IH]; [reflexivity|].
  simpl. destruct (p x); [exact IH | reflexivity].
Qed.

Lemma runLength_le p s : (runLength p s <= length s)%nat.
Proof.
  induction s as [|x s IH]; [simpl; lia|].
  simpl. destruct (p x); simpl; lia.
Qed.

(** A starred class takes the longest run. *)
Lemma star_class ignoreCase p prev s :
  rmatch ignoreCase (RStar (RClass p)) prev s (fun _ e => Some e) =
  Some (dropWhile p s).
Proof.
  cbn [rmatch].
  match goal with
  | |- ?loop (length s) prev s = _ =>
      assert (Hloop : forall fuel q t,
                 (length t <= fuel)%nat -> loop fuel q t = Some (dropWhile p t))
  end.
  { induction fuel as [|fuel IH]; intros q t Hfuel.
    - destruct t; [reflexivity | simpl in Hfuel; lia].
    - destruct t as [|x t]; [reflexivity|].
      cbn [dropWhile]. destruct (p x) eqn:Hx.
      + cbn [length]. rewrite Nat.ltb_irrefl || idtac.
        replace (length t <? S (length t))%nat with true
          by (symmetry; apply Nat.ltb_lt; lia).
        rewrite IH by (simpl in Hfuel; lia). reflexivity.
      + reflexivity. }
  apply Hloop. lia.
Qed.

Lemma matchHere_whitespaceRun ignoreCase prev s :
  matchHere ignoreCase whitespaceRun prev s =
  match s with
  | x :: s' => if isWhiteSpace x then Some (dropWhile isWhiteSpace s') else None
  | [] => None
  end.
Proof.
  unfold matchHere, whitespaceRun, RPlus.
  destruct s as [|x s]; [reflexivity|].
  change (rmatch ignoreCase (RSeq (RClass isWhiteSpace) (RStar (RClass isWhiteSpace)))
            prev (x :: s) (fun _ e => Some e))
    with (if isWhiteSpace x
          then rmatch ignoreCase (RStar (RClass isWhiteSpace)) (Some x) s
                 (fun _ e => Some e)
          else None).
  destruct (isWhiteSpace x); [apply star_class | reflexivity].
Qed.

(** Replacing every run of white space by one space, without the
    matcher. *)
Lemma replaceAll_whitespaceRun s :
  forall prev,
    replaceAllFrom false whitespaceRun (js " ") O prev s = collapseFrom false s
    /\ replaceAllFrom false whitespaceRun (js " ") (runLength isWhiteSpace s) prev s
       = collapseFrom true s.
Proof.
  induction s as [|x s IH]; intros prev; [split; reflexivity|].
  assert (Hfresh : replaceAllFrom false whitespaceRun (js " ") O prev (x :: s)
                   = collapseFrom false (x :: s)).
  { cbn [replaceAllFrom]. rewrite matchHere_whitespaceRun.
    cbn [collapseFrom]. destruct (isWhiteSpace x) eqn:Hx.
    - rewrite length_dropWhile.
      pose proof (runLength_le isWhiteSpace s) as Hle.
      replace (length (x :: s) - (length s - runLength isWhiteSpace s))%nat
        with (S (runLength isWhiteSpace s)) by (cbn [length]; lia).
      cbn [Nat.eqb pred app]. rewrite (proj2 (IH (Some x))). reflexivity.
    - rewrite (proj1 (IH (Some x))). reflexivity. }
  split; [exact Hfresh|].
  cbn [runLength]. destruct (isWhiteSpace x) eqn:Hx.
  - cbn [replaceAllFrom collapseFrom]. rewrite Hx. apply (proj2 (IH (Some x))).
  - rewrite Hfresh. cbn [collapseFrom]. rewrite Hx. reflexivity.
Qed.

Lemma sanitizeInput_plain input :
  sanitizeInput input = collapseFrom false (trim input).
Proof.
  unfold sanitizeInput, replaceAll. apply replaceAll_whitespaceRun.
Qed.

End WhitespaceRuns.


(** ** Input sanitising *)

Section SanitizeFacts.

Lemma startsClean_app l m : l <> [] -> startsClean (l ++ m) = startsClean l.
Proof. destruct l; [congruence | reflexivity]. Qed.

Lemma endsClean_rev s : endsClean s = startsClean (rev s).
Proof.
  induction s as [|x s IH]; [reflexivity|].
  destruct s as [|y s]; [reflexivity|].
  change (endsClean (x :: y :: s)) with (endsClean (y :: s)).
  rewrite IH. change (rev (x :: y :: s)) with (rev (y :: s) ++ [x]).
  rewrite startsClean_app; [reflexivity|].
  cbn [rev]. destruct (rev s); discriminate.
Qed.

Lemma endsClean_tail x s : endsClean (x :: s) = true -> endsClean s = true.
Proof. destruct s; [reflexivity | exact (fun H => H)]. Qed.

(** Collapsing inside a run starts with what follows the run. *)
Lemma collapse_true_head s :
  endsClean s = true -> s <> [] ->
  match collapseFrom true s with
  | y :: _ => isWhiteSpace y = false
  | [] => False
  end.
Proof.
  induction s as [|x s IH]; [congruence|]. intros Hend _.
  cbn [collapseFrom]. destruct (isWhiteSpace x) eqn:Hx; [|exact Hx].
  destruct s as [|y s]; [cbn [endsClean] in Hend; rewrite Hx in Hend; discriminate|].
  apply IH; [exact Hend | discriminate].
Qed.

Lemma collapse_singleSpaced s :
  endsClean s = true ->
  forall inRun, singleSpaced (collapseFrom inRun s) = true.
Proof.
  induction s as [|x s IH]; intros Hend inRun; [reflexivity|].
  pose proof (endsClean_tail _ _ Hend) as Htail.
  cbn [collapseFrom]. destruct (isWhiteSpace x) eqn:Hx.
  - assert (Hs : s <> []).
    { intros ->. cbn [endsClean] in Hend. rewrite Hx in Hend. discriminate. }
    destruct inRun; [apply IH; exact Htail|].
    pose proof (collapse_true_head s Htail Hs) as Hhead.
    pose proof (IH Htail true) as Hrest.
    destruct (collapseFrom true s) as [|y r]; [contradiction|].
    change (singleSpaced (32%N :: y :: r))
      with (negb (isWhiteSpace y) && singleSpaced (y :: r)).
    rewrite Hhead, Hrest. reflexivity.
  - cbn [singleSpaced]. rewrite Hx. apply IH. exact Htail.
Qed.

Lemma collapse_startsClean s :
  startsClean s = true -> startsClean (collapseFrom false s) = true.
Proof.
  destruct s as [|x s]; [reflexivity|]. cbn [startsClean collapseFrom].
  destruct (isWhiteSpace x) eqn:Hx; [discriminate|].
  intros _. cbn [startsClean]. rewrite Hx. reflexivity.
Qed.

(** A text that is single-spaced is left as it is, and does not end with
    white space. *)
Lemma singleSpaced_fixed s :
  singleSpaced s = true -> collapseFrom false s = s /\ endsClean s = true.
Proof.
  induction s as [|x s IH]; [split; reflexivity|].
  cbn [singleSpaced collapseFrom]. intros H.
  apply andb_prop in H. destruct H as [Hx Hs]. destruct (IH Hs) as [Hfix Hend].
  destruct (isWhiteSpace x) eqn:Hws.
  - apply andb_prop in Hx. destruct Hx as [H32 Hnext].
    apply N.eqb_eq in H32. subst x.
    destruct s as [|y s]; [discriminate|].
    split; [|exact Hend].
    f_equal. cbn [collapseFrom] in Hfix |- *.
    destruct (isWhiteSpace y); [discriminate | exact Hfix].
  - split; [rewrite Hfix; reflexivity|].
    destruct s as [|y s]; [cbn [endsClean]; rewrite Hws; reflexivity | exact Hend].
Qed.

Lemma sanitizeInput_shape input :
  startsClean (sanitizeInput input) = true
  /\ singleSpaced (sanitizeInput input) = true.
Proof.
  rewrite sanitizeInput_plain. destruct (trim_clean input) as [Hstart Hend].
  split.
  - apply collapse_startsClean. exact Hstart.
  - apply collapse_singleSpaced. rewrite endsClean_rev. exact Hend.
Qed.

Lemma sanitizeInput_fixes s :
  startsClean s = true -> singleSpaced s = true -> sanitizeInput s = s.
Proof.
  intros Hstart Hsingle. destruct (singleSpaced_fixed s Hsingle) as [Hfix Hend].
  rewrite sanitizeInput_plain, trim_fixed;
    [exact Hfix | exact Hstart | rewrite <- endsClean_rev; exact Hend].
Qed.

(** X22.  What [sanitizeInput] returns is normalised: it neither starts
    nor ends with white space, and every white-space code unit in it is a
    single U+0020 standing between two code units that are not white
    space. *)
Theorem sanitizeInput_normalised input :
  startsClean (sanitizeInput input) = true
  /\ endsClean (sanitizeInput input) = true
  /\ singleSpaced (sanitizeInput input) = true.
Proof.
  destruct (sanitizeInput_shape input) as [Hstart Hsingle].
  split; [exact Hstart|]. split; [|exact Hsingle].
  apply (singleSpaced_fixed _ Hsingle).
Qed.

(** X23.  The texts [sanitizeInput] leaves unchanged are exactly the
    normalised ones. *)
Theorem sanitizeInput_fixed_iff s :
  sanitizeInput s = s <-> startsClean s = true /\ singleSpaced s = true.
Proof.
  split.
  - intros H. rewrite <- H. apply sanitizeInput_shape.
  - intros [Hstart Hsingle]. apply sanitizeInput_fixes; assumption.
Qed.

(** X24.  Sanitising twice is sanitising once. *)
Theorem sanitizeInput_idempotent input :
  sanitizeInput (sanitizeInput input) = sanitizeInput input.
Proof.
  destruct (sanitizeInput_shape input) as [Hstart Hsingle].
  apply sanitizeInput_fixes; assumption.
Qed.

Lemma filter_trimStart s :
  filter (fun c => negb (isWhiteSpace c)) (trimStart s) =
  filter (fun c => negb (isWhiteSpace c)) s.
Proof.
  induction s as [|x s IH]; [reflexivity|].
  cbn [trimStart filter]. destruct (isWhiteSpace x) eqn:Hx; [exact IH|].
  cbn [filter]. rewrite Hx. reflexivity.
Qed.

Lemma filter_rev_list (p : N -> bool) s : filter p (rev s) = rev (filter p s).
Proof.
  induction s as [|x s IH]; [reflexivity|].
  cbn [rev filter]. rewrite filter_app, IH. cbn [filter].
  destruct (p x); [reflexivity | rewrite app_nil_r; reflexivity].
Qed.

Lemma filter_collapse s inRun :
  filter (fun c => negb (isWhiteSpace c)) (collapseFrom inRun s) =
  filter (fun c => negb (isWhiteSpace c)) s.
Proof.
  revert inRun. induction s as [|x s IH]; intros inRun; [reflexivity|].
  cbn [collapseFrom filter]. destruct (isWhiteSpace x) eqn:Hx.
  - destruct inRun; [apply IH|]. cbn [filter negb].
    change (isWhiteSpace 32) with true. cbn [negb]. apply IH.
  - cbn [filter negb]. rewrite Hx. cbn [negb]. rewrite IH. reflexivity.
Qed.

(** X25.  [sanitizeInput] touches white space only: the code units that
    are not white space come out as they went in, in the same order. *)
Theorem sanitizeInput_keeps_text input :
  filter (fun c => negb (isWhiteSpace c)) (sanitizeInput input) =
  filter (fun c => negb (isWhiteSpace c)) input.
Proof.
  rewrite sanitizeInput_plain, filter_collapse. unfold trim, trimEnd.
  rewrite filter_rev_list, filter_trimStart, filter_rev_list, rev_involutive.
  apply filter_trimStart.
Qed.

End SanitizeFacts.

(** ** The page handler *)

Section HandlerFacts.

Import OpenRouterApiService IndexPage.

(** X26.  [handleEnhance] never throws and sends at most three requests.
    A blank text gives the "no text" toast and an unconfigured page opens
    the settings, both without any request; otherwise every request
    carries the prompt made from the trimmed text, and a text that is
    shown is trimmed and has at least 10 code units. *)
Theorem handleEnhance_outcomes inputText isConfigured apiService net :
  exists shown log,
    run (handleEnhance inputText isConfigured apiService) net = (inr shown, log)
    /\ (length log <= 3)%nat
    /\ (trim inputText = [] -> shown = NoTextToast /\ log = [])
    /\ (trim inputText <> [] -> isConfigured = false \/ apiService = None ->
        shown = SettingsOpened /\ log = [])
    /\ (forall sent, In sent log ->
        prompt sent =
        generateEnhancementPrompt
          {| text := trim inputText; enhancementType := Some general;
             tone := None; targetAudience := None;
             customInstructions := None |})
    /\ (forall enhanced, shown = EnhancedTextShown enhanced ->
        trim enhanced = enhanced /\ 10 <= jslength enhanced).
Proof.
  unfold handleEnhance, run.
  destruct (trim inputText) as [|c t] eqn:Htrim.
  { exists NoTextToast, []. split; [reflexivity|]. split; [simpl; lia|].
    split; [intros _; split; reflexivity|]. split; [congruence|].
    split; [intros sent []|]. intros enhanced H. discriminate H. }
  destruct isConfigured, apiService as [service|];
    try (exists SettingsOpened, []; split; [reflexivity|];
         split; [simpl; lia|]; split; [discriminate|];
         split; [intros _ _; split; reflexivity|];
         split; [intros sent [] | intros enhanced H; discriminate H]).
  set (request := {| text := c :: t; enhancementType := Some general;
                     tone := None; targetAudience := None;
                     customInstructions := None |}).
  destruct (tryModels_prefix service request net models None [])
    as (k & Hk & Hlog & _ & _).
  pose proof (tryModels_returns service request net models None []) as Hret.
  unfold tryCatch, bind, ret, enhanceText.
  destruct (tryModels service request models None net []) as [[e|r] log] eqn:Hrun;
    cbn [snd fst] in Hlog, Hret.
  - exists (FailureToast (message e)), log. split; [reflexivity|].
    subst log. split.
    { unfold requestsFor. rewrite app_nil_l, length_map.
      rewrite length_firstn. cbn [models length]. lia. }
    split; [discriminate|].
    split; [intros _ [H|H]; discriminate H|].
    split.
    { intros sent Hin. unfold requestsFor in Hin. rewrite app_nil_l in Hin.
      apply in_map_iff in Hin. destruct Hin as (m & <- & _). reflexivity. }
    intros enhanced H. discriminate H.
  - exists (EnhancedTextShown (enhancedText r)), log. split; [reflexivity|].
    subst log. split.
    { unfold requestsFor. rewrite app_nil_l, length_map.
      rewrite length_firstn. cbn [models length]. lia. }
    split; [discriminate|].
    split; [intros _ [H|H]; discriminate H|].
    split.
    { intros sent Hin. unfold requestsFor in Hin. rewrite app_nil_l in Hin.
      apply in_map_iff in Hin. destruct Hin as (m & <- & _). reflexivity. }
    intros enhanced H. injection H as <-.
    destruct (Hret r eq_refl) as (Htrimmed & Hlen & Heq & _).
    split; [exact Htrimmed | rewrite <- Heq; exact Hlen].
Qed.

End HandlerFacts.


(** ** What the prompts carry *)

Section PromptContents.

Context {host : StringHost}.

Import SingleModelEnhancer.


Lemma enhancedPrompt_built request :
  PromptEnhancer.enhancedPrompt (PromptEnhancer.enhancePrompt request) =
  PromptEnhancer.buildEnhancedPrompt (PromptEnhancer.rawText request)
    {| PromptEnhancer.o_enhancementType :=
         match PromptEnhancer.p_enhancementType request with
         | Some t => enhancementTypeName t
         | None => js "general"
         end;
       PromptEnhancer.o_tone :=
         match PromptEnhancer.p_tone request with
         | Some t => toneName t
         | None => js "professional"
         end;
       PromptEnhancer.o_targetAudience := PromptEnhancer.p_targetAudience request;
       PromptEnhancer.o_customInstructions :=
         PromptEnhancer.p_customInstructions request |}.
Proof.
  unfold PromptEnhancer.enhancePrompt. cbv zeta.
  destruct (PromptEnhancer.scorePromptQuality _) as [[[c s] a] o]. reflexivity.
Qed.

Lemma firstPrompt_holds_text request :
  includes (text request) (firstPrompt request) = true.
Proof.
  unfold firstPrompt, promptOf. rewrite enhancedPrompt_built.
  unfold PromptEnhancer.buildEnhancedPrompt. cbv zeta.
  apply join_holds. cbn [PromptEnhancer.rawText].
  do 23 right. left. reflexivity.
Qed.

Lemma createStricterPrompt_holds_prompt originalPrompt listed :
  includes originalPrompt (createStricterPrompt originalPrompt listed) = true.
Proof.
  unfold createStricterPrompt. apply join_holds.
  do 12 right. left. reflexivity.
Qed.

(** X27.  The stricter prompt of the retry holds the first prompt
    verbatim and names every issue of the first candidate, each as a
    bullet. *)
Theorem createStricterPrompt_keeps_prompt_and_issues originalPrompt listed :
  includes originalPrompt (createStricterPrompt originalPrompt listed) = true
  /\ forall issue,
       In issue listed ->
       includes (bullet :: js " " ++ issue)
                (createStricterPrompt originalPrompt listed) = true.
Proof.
  split; [apply createStricterPrompt_holds_prompt|].
  intros issue Hin.
  apply includes_trans with (b := PromptEnhancer.bulleted listed).
  - unfold PromptEnhancer.bulleted. apply join_holds.
    apply (in_map (fun x => bullet :: js " " ++ x)). exact Hin.
  - unfold createStricterPrompt. apply join_holds.
    do 2 right. left. reflexivity.
Qed.

(** X28.  Every request that [enhanceText] sends, the retry included,
    carries the text of the request verbatim in its prompt. *)
Theorem every_request_carries_the_text config request net :
  Forall (fun sent => includes (text request) (prompt sent) = true)
         (snd (run (enhanceText config request) net)).
Proof.
  assert (Hsecond : forall t1,
             includes (text request) (secondPrompt request t1) = true).
  { intros t1. apply includes_trans with (b := firstPrompt request).
    - apply firstPrompt_holds_text.
    - apply createStricterPrompt_holds_prompt. }
  pose proof (firstPrompt_holds_text request) as Hfirst.
  destruct (enhanceText_cases config request net)
    as [(e & _ & Hrun) | [(t1 & _ & _ & Hrun)
       | [(t1 & e & _ & _ & _ & Hrun) | (t1 & t2 & _ & _ & _ & Hrun)]]];
    rewrite Hrun; unfold snd;
    repeat (apply Forall_cons; [first [exact Hfirst | apply Hsecond]|]);
    apply Forall_nil.
Qed.

End PromptContents.

(** ** What the fallback service reads *)

Section FallbackReads.

Import OpenRouterApiService.

Variable config : OpenRouterConfig.
Variable net : Network.

Lemma attempt_reads_text r1 r2 modelId log :
  text r1 = text r2 ->
  attempt config r1 modelId net log = attempt config r2 modelId net log.
Proof.
  intros Htext. unfold attempt, requestFor, generateEnhancementPrompt.
  rewrite Htext. reflexivity.
Qed.

Lemma tryModels_reads_text r1 r2 remaining :
  text r1 = text r2 ->
  forall lastError log,
    tryModels config r1 remaining lastError net log =
    tryModels config r2 remaining lastError net log.
Proof.
  intros Htext. induction remaining as [|m rest IH]; intros lastError log.
  - reflexivity.
  - cbn [tryModels]. unfold tryCatch.
    rewrite (attempt_reads_text r1 r2 m log Htext).
    destruct (attempt config r2 m net log) as [[e|r] log']; [apply IH | reflexivity].
Qed.

(** X29.  The fallback service reads nothing of a request but its text:
    two requests with the same text, whatever their enhancement type,
    tone, audience and instructions, give the same run, request for
    request and result for result. *)
Theorem fallback_reads_only_the_text r1 r2 :
  text r1 = text r2 ->
  run (enhanceText config r1) net = run (enhanceText config r2) net.
Proof.
  intros Htext. unfold run, enhanceText. apply tryModels_reads_text. exact Htext.
Qed.

End FallbackReads.


(** ** The further properties on concrete runs *)

Lemma only_strictMode_matters_witness :
  score (@validateEnhancement basicLatinHost teamRequest askingCould firstPassConfig)
  = score (@validateEnhancement basicLatinHost teamRequest askingCould retryConfig)
  /\ issues (@validateEnhancement basicLatinHost teamRequest askingCould firstPassConfig)
     = issues (@validateEnhancement basicLatinHost teamRequest askingCould retryConfig)
  /\ confidence (@validateEnhancement basicLatinHost teamRequest askingCould firstPassConfig)
     = confidence (@validateEnhancement basicLatinHost teamRequest askingCould retryConfig).
Proof.
  apply (@only_strictMode_matters basicLatinHost teamRequest askingCould
           firstPassConfig retryConfig).
  reflexivity.
Defined.

Lemma strict_mode_only_adds_witness :
  score (@validateEnhancement basicLatinHost teamRequest commenting firstPassConfig)
  <= score (@validateEnhancement basicLatinHost teamRequest commenting
              {| minScore_opt := None; maxRetries_opt := None;
                 strictMode_opt := Some false |})
  /\ issues (@validateEnhancement basicLatinHost teamRequest commenting firstPassConfig)
     = issues (@validateEnhancement basicLatinHost teamRequest commenting
                 {| minScore_opt := None; maxRetries_opt := None;
                    strictMode_opt := Some false |})
       ++ reported (negb (cs_isValid (strictModeValidation commenting)))
                   (cs_issues (strictModeValidation commenting)).
Proof.
  apply (@strict_mode_only_adds basicLatinHost teamRequest commenting
           firstPassConfig
           {| minScore_opt := None; maxRetries_opt := None;
              strictMode_opt := Some false |}).
  - reflexivity.
  - reflexivity.
Defined.

Lemma question_mark_in_candidate_witness :
  In issueQuestions
     (issues (@validateEnhancement basicLatinHost teamRequest (js "Why?") emptyConfig))
  /\ score (@validateEnhancement basicLatinHost teamRequest (js "Why?") emptyConfig) <= 40
  /\ isValid (@validateEnhancement basicLatinHost teamRequest (js "Why?") emptyConfig)
     = false.
Proof.
  apply (@question_mark_in_candidate basicLatinHost teamRequest (js "Why?")
           emptyConfig).
  vm_compute. do 3 right. left. reflexivity.
Defined.

Lemma question_mark_in_original_witness :
  isValid (@validateEnhancement basicLatinHost (js "Why?") polished emptyConfig) = false
  /\ score (@validateEnhancement basicLatinHost (js "Why?") polished emptyConfig) <= 80
  /\ (In issueQuestions
         (issues (@validateEnhancement basicLatinHost (js "Why?") polished emptyConfig))
      \/ In issueQuestionsRemoved
            (issues (@validateEnhancement basicLatinHost (js "Why?") polished
                       emptyConfig))).
Proof.
  apply (@question_mark_in_original basicLatinHost (js "Why?") polished emptyConfig).
  vm_compute. do 3 right. left. reflexivity.
Defined.

Lemma blank_candidate_scores_zero_witness :
  score (@validateEnhancement basicLatinHost teamRequest (js "   ") emptyConfig) = 0
  /\ isValid (@validateEnhancement basicLatinHost teamRequest (js "   ") emptyConfig)
     = false
  /\ In issueEmpty
        (issues (@validateEnhancement basicLatinHost teamRequest (js "   ") emptyConfig)).
Proof.
  apply (@blank_candidate_scores_zero basicLatinHost teamRequest (js "   ")
           emptyConfig).
  vm_compute. reflexivity.
Defined.

Lemma short_candidate_invalid_witness :
  isValid (@validateEnhancement basicLatinHost teamRequest (js "Too short") emptyConfig)
  = false
  /\ score (@validateEnhancement basicLatinHost teamRequest (js "Too short") emptyConfig)
     <= 75.
Proof.
  apply (@short_candidate_invalid basicLatinHost teamRequest (js "Too short")
           emptyConfig).
  vm_compute. reflexivity.
Defined.

Lemma surrounding_space_is_no_enhancement_witness :
  In issueIdentical
     (issues (@validateEnhancement basicLatinHost teamRequest
                (js " " ++ teamRequest ++ js " ") emptyConfig))
  /\ score (@validateEnhancement basicLatinHost teamRequest
              (js " " ++ teamRequest ++ js " ") emptyConfig) <= 50
  /\ isValid (@validateEnhancement basicLatinHost teamRequest
                (js " " ++ teamRequest ++ js " ") emptyConfig) = false.
Proof.
  apply (@surrounding_space_is_no_enhancement basicLatinHost teamRequest
           (js " " ++ teamRequest ++ js " ") emptyConfig).
  vm_compute. reflexivity.
Defined.

Lemma fallback_result_is_substantial_witness :
  trim (OpenRouterApiService.enhancedText polishedResponse)
  = OpenRouterApiService.enhancedText polishedResponse
  /\ 10 <= OpenRouterApiService.enhancedLength polishedResponse
  /\ OpenRouterApiService.enhancedLength polishedResponse
     = jslength (OpenRouterApiService.enhancedText polishedResponse)
  /\ OpenRouterApiService.originalLength polishedResponse
     = jslength (text (plainRequest teamRequest)).
Proof.
  apply (fallback_result_is_substantial routerConfig (plainRequest teamRequest)
           (scripted [refusal 429 (js "Too Many Requests") (js "rate limited");
                      completion polished])
           polishedResponse).
  vm_compute. reflexivity.
Defined.

Lemma failure_is_wrapped_witness :
  exists e,
    (fst (callOptimalModel singleConfig (firstPrompt (plainRequest teamRequest))
            (scripted [refusal 401 (js "Unauthorized") denied]) []) = inl e
     \/ exists t1,
          fst (callOptimalModel singleConfig (firstPrompt (plainRequest teamRequest))
                 (scripted [refusal 401 (js "Unauthorized") denied]) []) = inr t1
          /\ retryGate (@validateEnhancement basicLatinHost
                          (text (plainRequest teamRequest)) t1 firstPassConfig)
             = true
          /\ fst (callOptimalModel singleConfig
                    (@secondPrompt basicLatinHost (plainRequest teamRequest) t1)
                    (scripted [refusal 401 (js "Unauthorized") denied])
                    [requestFor singleConfig
                       (firstPrompt (plainRequest teamRequest))]) = inl e)
    /\ wrapped (Error (js "API request failed: 401 Unauthorized")) = wrapped e
    /\ name (wrapped (Error (js "API request failed: 401 Unauthorized"))) = js "Error"
    /\ message (wrapped (Error (js "API request failed: 401 Unauthorized")))
       = js "Enhancement failed: " ++ message e
    /\ statusCode (wrapped (Error (js "API request failed: 401 Unauthorized"))) = None.
Proof.
  apply (@failure_is_wrapped basicLatinHost singleConfig (plainRequest teamRequest)
           (scripted [refusal 401 (js "Unauthorized") denied])
           (wrapped (Error (js "API request failed: 401 Unauthorized")))).
  vm_compute. reflexivity.
Defined.

Lemma failed_retry_discards_first_candidate_witness :
  run (@enhanceText basicLatinHost singleConfig (plainRequest teamRequest))
      (scripted [completion askingCould; offline]) =
  (inl (wrapped (TypeError (js "Failed to fetch"))),
   [requestFor singleConfig (firstPrompt (plainRequest teamRequest));
    requestFor singleConfig
      (@secondPrompt basicLatinHost (plainRequest teamRequest) askingCould)]).
Proof.
  apply (@failed_retry_discards_first_candidate basicLatinHost singleConfig
           (plainRequest teamRequest)
           (scripted [completion askingCould; offline])
           askingCould (TypeError (js "Failed to fetch"))).
  - vm_compute. reflexivity.
  - vm_compute. reflexivity.
  - vm_compute. reflexivity.
  - vm_compute. reflexivity.
Defined.

Lemma result_is_coherent_witness :
  qualityScore
    (buildResponse teamRequest polished
       (score (@validateEnhancement basicLatinHost teamRequest polished firstPassConfig))
       (PromptEnhancer.overallScore (promptOf (plainRequest teamRequest))))
  = score (@validateEnhancement basicLatinHost teamRequest polished firstPassConfig).
Proof.
  refine (proj1 (@result_is_coherent basicLatinHost singleConfig
                   (plainRequest teamRequest) (scripted [completion polished])
                   (buildResponse teamRequest polished
                      (score (@validateEnhancement basicLatinHost teamRequest
                                polished firstPassConfig))
                      (PromptEnhancer.overallScore
                         (promptOf (plainRequest teamRequest))))
                   _)).
  vm_compute. reflexivity.
Defined.

Lemma fallback_reads_only_the_text_witness :
  run (OpenRouterApiService.enhanceText routerConfig (plainRequest teamRequest))
      (scripted [completion polished]) =
  run (OpenRouterApiService.enhanceText routerConfig
         {| text := teamRequest; enhancementType := Some creative;
            tone := Some casual; targetAudience := Some (js "engineers");
            customInstructions := Some keepItShort |})
      (scripted [completion polished]).
Proof.
  apply (fallback_reads_only_the_text routerConfig (scripted [completion polished])
           (plainRequest teamRequest)
           {| text := teamRequest; enhancementType := Some creative;
              tone := Some casual; targetAudience := Some (js "engineers");
              customInstructions := Some keepItShort |}).
  reflexivity.
Defined.
